(** * hyperspy.learn.mva: decomposition and blind source separation

    A shallow embedding of [src/hyperspy/learn/mva.py] and the properties
    of its natural-language specification.

    Numbers.  The arrays of the program hold IEEE-754 doubles.  They are
    modelled by [float]: an exact real, one of the two infinities, or NaN.
    The special values follow IEEE-754; rounding, overflow and the sign of
    zero are not modelled (a zero divisor counts as +0).  The properties
    therefore say which operations the program performs, on which values
    and in which order, and how their results compare; none rests on an
    identity of real arithmetic that rounding breaks, such as
    [(x / c) * (y * c) = x * y].

    Arrays.  A one-dimensional array is a list, a two-dimensional array a
    list of rows; an array without rows carries no number of columns.
    Operations that numpy refuses (reductions of empty arrays, indices out
    of range, shapes that do not broadcast) return [Raise] with the
    exception numpy raises.  Arrays are numpy arrays: deferred (dask)
    arrays belong to the dataset collaborator and are not modelled.

    The file has two parts: the embedding of the program, with the notions
    of the specification and sample inputs at its end, then the proofs. *)

From Stdlib Require Import String Reals Lra Lia ZArith Bool Psatz List.
Import ListNotations.

Set Implicit Arguments.

(** ** Exceptions and the error monad *)

Inductive pyclass :=
| TypeError | AttributeError | ValueError | ImportError | IndexError.

(** One constructor per [raise] of the source that the properties reach;
    [E_numpy] is an exception raised inside numpy, [E_backend] one raised
    by an external factorization backend or estimator. *)
Inductive exn :=
| E_dtype_not_float
| E_navigation_size
| E_output_dimension_required (algorithm : string)
| E_requires_sklearn (algorithm : string)
| E_centre_incompatible
| E_negative_values
| E_var_func_and_var_array
| E_var_array_shape
| E_var_func_type
| E_algorithm_not_recognised
| E_undo_unavailable
| E_no_decomposition
| E_target_name
| E_reverse_criterion
| E_numpy (c : pyclass) (what : string)
| E_backend (c : pyclass) (what : string).

(** The Python class of each exception, as written at its [raise]. *)
Definition class_of (e : exn) : pyclass :=
  match e with
  | E_dtype_not_float => TypeError
  | E_navigation_size => AttributeError
  | E_output_dimension_required _ => ValueError
  | E_requires_sklearn _ => ImportError
  | E_centre_incompatible => ValueError
  | E_negative_values => ValueError
  | E_var_func_and_var_array => ValueError
  | E_var_array_shape => ValueError
  | E_var_func_type => ValueError
  | E_algorithm_not_recognised => ValueError
  | E_undo_unavailable => AttributeError
  | E_no_decomposition => ValueError
  | E_target_name => ValueError
  | E_reverse_criterion => ValueError
  | E_numpy c _ => c
  | E_backend c _ => c
  end.

Inductive result (A : Type) :=
| Ok (a : A)
| Raise (e : exn).
Arguments Ok {A} a.
Arguments Raise {A} e.

Definition bind {A B} (m : result A) (k : A -> result B) : result B :=
  match m with
  | Ok a => k a
  | Raise e => Raise e
  end.

Declare Scope py_scope.
Delimit Scope py_scope with py.
Notation "x <- m ;; k" := (bind m (fun x => k))
  (at level 61, m at next level, right associativity) : py_scope.
Notation "' pat <- m ;; k" := (bind m (fun x => match x with pat => k end))
  (at level 61, pat pattern, m at next level, right associativity) : py_scope.

Definition is_ok {A} (m : result A) : bool :=
  match m with Ok _ => true | Raise _ => false end.

(** ** Floating-point values *)

Open Scope R_scope.

Inductive float :=
| NaN
| NInf
| Fin (r : R)
| PInf.

Definition Rltb (x y : R) : bool := if Rlt_dec x y then true else false.
Definition Rleb (x y : R) : bool := if Rle_dec x y then true else false.
Definition Reqb (x y : R) : bool := if Req_dec_T x y then true else false.

Arguments Rltb : simpl never.
Arguments Rleb : simpl never.
Arguments Reqb : simpl never.

(** [x < y], [x <= y] and [x > y] on floats: false as soon as one side is
    NaN. *)
Definition fltb (x y : float) : bool :=
  match x, y with
  | NaN, _ | _, NaN => false
  | NInf, NInf => false
  | NInf, _ => true
  | Fin _, NInf => false
  | Fin a, Fin b => Rltb a b
  | Fin _, PInf => true
  | PInf, _ => false
  end.

Definition fleb (x y : float) : bool :=
  match x, y with
  | NaN, _ | _, NaN => false
  | NInf, _ => true
  | Fin _, NInf => false
  | Fin a, Fin b => Rleb a b
  | Fin _, PInf => true
  | PInf, PInf => true
  | PInf, _ => false
  end.

Definition fgtb (x y : float) : bool := fltb y x.

Definition isnan (x : float) : bool :=
  match x with NaN => true | _ => false end.

Definition fneg (x : float) : float :=
  match x with
  | NaN => NaN
  | NInf => PInf
  | Fin r => Fin (- r)
  | PInf => NInf
  end.

Definition fabs (x : float) : float :=
  match x with
  | NaN => NaN
  | NInf | PInf => PInf
  | Fin r => Fin (Rabs r)
  end.

Definition fadd (x y : float) : float :=
  match x, y with
  | NaN, _ | _, NaN => NaN
  | PInf, NInf | NInf, PInf => NaN
  | PInf, _ | _, PInf => PInf
  | NInf, _ | _, NInf => NInf
  | Fin a, Fin b => Fin (a + b)
  end.

Definition fsub (x y : float) : float := fadd x (fneg y).

(** An infinity of the sign of [r]; NaN when [r] is zero. *)
Definition inf_of_sign (r : R) : float :=
  if Rltb 0 r then PInf else if Rltb r 0 then NInf else NaN.

Definition fmul (x y : float) : float :=
  match x, y with
  | NaN, _ | _, NaN => NaN
  | Fin a, Fin b => Fin (a * b)
  | PInf, PInf | NInf, NInf => PInf
  | PInf, NInf | NInf, PInf => NInf
  | PInf, Fin b | Fin b, PInf => inf_of_sign b
  | NInf, Fin b | Fin b, NInf => inf_of_sign (- b)
  end.

Definition fdiv (x y : float) : float :=
  match x, y with
  | NaN, _ | _, NaN => NaN
  | Fin a, Fin b => if Reqb b 0 then inf_of_sign a else Fin (a / b)
  | Fin _, (PInf | NInf) => Fin 0
  | (PInf | NInf), (PInf | NInf) => NaN
  | PInf, Fin b => if Rltb b 0 then NInf else PInf
  | NInf, Fin b => if Rltb b 0 then PInf else NInf
  end.

Definition fsqrt (x : float) : float :=
  match x with
  | NaN | NInf => NaN
  | Fin r => if Rltb r 0 then NaN else Fin (sqrt r)
  | PInf => PInf
  end.

(** [np.log]. *)
Definition flog (x : float) : float :=
  match x with
  | NaN | NInf => NaN
  | Fin r => if Rltb r 0 then NaN else if Reqb r 0 then NInf else Fin (ln r)
  | PInf => PInf
  end.

Definition of_Z (z : Z) : float := Fin (IZR z).

(** The largest finite double, [(2 - 2^-52) * 2^1023]. *)
Definition float_max : R := (2 - / 2 ^ 52) * 2 ^ 1023.

(** [np.nan_to_num]: NaN becomes 0, an infinity the finite double of
    largest magnitude and the same sign. *)
Definition nan_to_num (x : float) : float :=
  match x with
  | NaN => Fin 0
  | NInf => Fin (- float_max)
  | Fin r => Fin r
  | PInf => Fin float_max
  end.

(** [np.maximum] and [np.minimum]: NaN if either side is NaN. *)
Definition fmaximum (x y : float) : float :=
  if isnan x then NaN else if isnan y then NaN
  else if fltb x y then y else x.

Definition fminimum (x y : float) : float :=
  if isnan x then NaN else if isnan y then NaN
  else if fltb y x then y else x.

(** [np.clip(x, lo, None)]. *)
Definition clip_below (lo x : float) : float := fmaximum x lo.

(** ** Arrays *)

Definition vector := list float.
Definition matrix := list (list float).

Definition nrows {A} (m : list (list A)) : nat := length m.
Definition ncols {A} (m : list (list A)) : nat :=
  match m with
  | [] => 0%nat
  | r :: _ => length r
  end.

(** Every row of [m] has [c] entries. *)
Definition rect {A} (c : nat) (m : list (list A)) : Prop :=
  Forall (fun r => length r = c) m.

Definition column {A} (d : A) (i : nat) (m : list (list A)) : list A :=
  map (fun r => nth i r d) m.

(** [a[i]] for a Python integer [i]: negative indices count from the end,
    an index out of range raises [IndexError]. *)
Definition py_index {A} (a : list A) (i : Z) : result A :=
  let n := Z.of_nat (length a) in
  let j := if (i <? 0)%Z then (i + n)%Z else i in
  if ((j <? 0) || (n <=? j))%Z
  then Raise (E_numpy IndexError "index out of bounds")
  else match nth_error a (Z.to_nat j) with
       | Some x => Ok x
       | None => Raise (E_numpy IndexError "index out of bounds")
       end.

(** [a[:n]]: a negative [n] counts from the end, the bound is clamped. *)
Definition py_slice_to {A} (n : Z) (a : list A) : list A :=
  if (n <? 0)%Z
  then firstn (Z.to_nat (Z.of_nat (length a) + n)) a
  else firstn (Z.to_nat n) a.

(** [m[:, :n]]. *)
Definition slice_cols_to {A} (n : Z) (m : list (list A)) : list (list A) :=
  map (py_slice_to n) m.

(** [np.arange(n)] for an integer [n]: empty when [n <= 0]. *)
Definition arange (n : Z) : list Z :=
  map Z.of_nat (seq 0 (Z.to_nat n)).

(** Reductions. *)
Definition np_sum (v : vector) : float := fold_left fadd v (Fin 0).

Definition np_min (v : vector) : result float :=
  match v with
  | [] => Raise (E_numpy ValueError "zero-size array to reduction operation minimum")
  | x :: v' => Ok (fold_left fminimum v' x)
  end.

(** [np.nanmin] and [np.nanmax] skip NaN entries; they return NaN when all
    entries are NaN and raise on an empty array. *)
Definition not_nan (x : float) : bool := negb (isnan x).

Definition np_nanmin (v : vector) : result float :=
  match v with
  | [] => Raise (E_numpy ValueError "zero-size array to reduction operation fmin")
  | _ => match filter not_nan v with
         | [] => Ok NaN
         | x :: v' => Ok (fold_left fminimum v' x)
         end
  end.

Definition np_nanmax (v : vector) : result float :=
  match v with
  | [] => Raise (E_numpy ValueError "zero-size array to reduction operation fmax")
  | _ => match filter not_nan v with
         | [] => Ok NaN
         | x :: v' => Ok (fold_left fmaximum v' x)
         end
  end.

(** [np.argmax]: the first NaN if there is one, else the first occurrence
    of the maximum; raises on an empty array.  [argmax_from best bi i v]
    scans [v], whose first entry has index [i], with the best entry so
    far [best] at index [bi]. *)
Fixpoint argmax_from (best : float) (bi i : nat) (v : vector) : nat :=
  match v with
  | [] => bi
  | x :: v' =>
      if isnan best then bi
      else if isnan x || fltb best x then argmax_from x i (S i) v'
      else argmax_from best bi (S i) v'
  end.

Definition np_argmax (v : vector) : result nat :=
  match v with
  | [] => Raise (E_numpy ValueError "attempt to get argmax of an empty sequence")
  | x :: v' => Ok (argmax_from x 0 1 v')
  end.

(** Element-wise binary operation of two one-dimensional arrays under
    numpy broadcasting: equal lengths, or one side of length 1. *)
Definition broadcast2 (f : float -> float -> float) (a b : vector)
  : result vector :=
  if (length a =? length b)%nat then Ok (map (fun p => f (fst p) (snd p)) (combine a b))
  else match a, b with
       | [x], _ => Ok (map (f x) b)
       | _, [y] => Ok (map (fun x => f x y) a)
       | _, _ => Raise (E_numpy ValueError "operands could not be broadcast together")
       end.

(** In-place [m op= v] where the one-dimensional [v] is broadcast along
    the rows of [m]: [v] has one entry per column of [m], or one entry.
    The result keeps the shape of [m]. *)
Definition inplace_rowwise (f : float -> float -> float) (m : matrix)
  (v : vector) : result matrix :=
  match v with
  | [y] => Ok (map (map (fun x => f x y)) m)
  | _ => if forallb (fun r => (length r =? length v)%nat) m
         then Ok (map (fun r => map (fun p => f (fst p) (snd p)) (combine r v)) m)
         else Raise (E_numpy ValueError "operands could not be broadcast together")
  end.

(** In-place [m op= c] where [c] is a column ([shape (n, 1)]): one entry
    per row of [m], or one entry. *)
Definition inplace_colwise (f : float -> float -> float) (m : matrix)
  (c : vector) : result matrix :=
  match c with
  | [y] => Ok (map (map (fun x => f x y)) m)
  | _ => if (length m =? length c)%nat
         then Ok (map (fun p => map (fun x => f x (snd p)) (fst p)) (combine m c))
         else Raise (E_numpy ValueError "operands could not be broadcast together")
  end.

Definition dot (a b : vector) : float :=
  np_sum (map (fun p => fmul (fst p) (snd p)) (combine a b)).

Fixpoint transpose_n (c : nat) (m : matrix) : matrix :=
  match c with
  | O => []
  | S c' => transpose_n c' m ++ [column NaN c' m]
  end.

(** [m.T] *)
Definition transpose (m : matrix) : matrix := transpose_n (ncols m) m.

(** [a @ b] *)
Definition matmul (a b : matrix) : result matrix :=
  if (nrows a =? 0)%nat then Ok []
  else if (ncols a =? nrows b)%nat then
    Ok (map (fun ra => map (fun cb => dot ra cb) (transpose b)) a)
  else Raise (E_numpy ValueError "matmul: mismatch in core dimension").

(** ** Elbow estimation *)

(** [MVA.estimate_elbow_position] on an explicit curve (lines 1641-1664).
    [x1], [x2], [xs] are integers; [y1], [y2], [ys] are floats. *)
Definition elbow_of_curve (curve_values : vector) (max_points : Z)
  : result nat :=
  let max_points := Z.min max_points (Z.of_nat (length curve_values) - 1) in
  let curve_values_adj := map (clip_below (Fin 1e-30)) curve_values in
  let x1 := 0%Z in
  let x2 := max_points in
  (c1 <- py_index curve_values_adj 0 ;;
   let y1 := flog c1 in
   c2 <- py_index curve_values_adj max_points ;;
   let y2 := flog c2 in
   let xs := arange max_points in
   let ys := map flog (py_slice_to max_points curve_values_adj) in
   d <- broadcast2 fsub
          (map (fun y => fmul (of_Z (x2 - x1)) (fsub y1 y)) ys)
          (map (fun x => fmul (of_Z (x1 - x)) (fsub y2 y1)) xs) ;;
   let numer := map fabs d in
   let denom :=
     fsqrt (fadd (of_Z ((x2 - x1) ^ 2)) (fmul (fsub y2 y1) (fsub y2 y1))) in
   let distance := map (fun n => nan_to_num (fdiv n denom)) numer in
   np_argmax distance)%py.

(** The method: the curve is the argument, or the stored
    [explained_variance_ratio] when the argument is [None]. *)
Definition estimate_elbow_position (stored : option vector)
  (explained_variance_ratio : option vector) (max_points : Z) : result nat :=
  match explained_variance_ratio with
  | Some c => elbow_of_curve c max_points
  | None =>
      match stored with
      | None => Raise E_no_decomposition
      | Some c => elbow_of_curve c max_points
      end
  end.

Definition curve_example : vector :=
  [Fin 1; Fin 0.5; Fin 0.1; Fin 0.09; Fin 0.08; Fin 0.07].

(** ** Boolean masks and index selectors *)

(** A boolean ndarray: its shape and its entries in C order. *)
Record bool_array := { bshape : list nat; bflat : list bool }.

Definition ravel (m : bool_array) : bool_array :=
  {| bshape := [length (bflat m)]; bflat := bflat m |}.

(** [~m] *)
Definition invert (m : bool_array) : bool_array :=
  {| bshape := bshape m; bflat := map negb (bflat m) |}.

Definition size_of (shape : list nat) : nat := fold_right Nat.mul 1%nat shape.

Definition reshape (shape : list nat) (m : bool_array) : result bool_array :=
  if (size_of shape =? length (bflat m))%nat
  then Ok {| bshape := shape; bflat := bflat m |}
  else Raise (E_numpy ValueError "cannot reshape array").

(** What stands in an index position: [slice(None)] or a boolean array. *)
Inductive selector :=
| SliceAll
| Sel (keep : bool_array).

(** "Transform the None masks in slices": an exclusion mask becomes the
    inclusion selector [~mask]. *)
Definition include_selector (mask : option bool_array) : selector :=
  match mask with
  | None => SliceAll
  | Some m => Sel (invert m)
  end.

Definition one_dim (k : bool_array) : bool :=
  match bshape k with [_] => true | _ => false end.

Fixpoint select {A} (keep : list bool) (a : list A) : list A :=
  match keep, a with
  | k :: keep', x :: a' => if k then x :: select keep' a' else select keep' a'
  | _, _ => []
  end.

(** [dc[:, s]] and [m[s, :]]: a boolean index must be one-dimensional and
    as long as the axis it indexes. *)
Definition getitem_cols (dc : matrix) (s : selector) : result matrix :=
  match s with
  | SliceAll => Ok dc
  | Sel k =>
      if one_dim k && forallb (fun r => (length r =? length (bflat k))%nat) dc
      then Ok (map (select (bflat k)) dc)
      else Raise (E_numpy IndexError "boolean index did not match indexed array")
  end.

Definition getitem_rows (m : matrix) (s : selector) : result matrix :=
  match s with
  | SliceAll => Ok m
  | Sel k =>
      if one_dim k && (length m =? length (bflat k))%nat
      then Ok (select (bflat k) m)
      else Raise (E_numpy IndexError "boolean index did not match indexed array")
  end.

(** [dc[:, signal_mask][navigation_mask, :]] *)
Definition included_block (dc : matrix) (signal_mask navigation_mask : selector)
  : result matrix :=
  (t <- getitem_cols dc signal_mask ;; getitem_rows t navigation_mask)%py.

(** [t[keep, :] = block]: the selected rows of [t] are replaced, in order,
    by the rows of [block]. *)
Fixpoint put_rows {A} (keep : list bool) (t block : list A) : list A :=
  match keep, t with
  | k :: keep', x :: t' =>
      if k then
        match block with
        | b :: block' => b :: put_rows keep' t' block'
        | [] => x :: put_rows keep' t' []
        end
      else x :: put_rows keep' t' block
  | _, _ => t
  end.

Definition setitem_rows (t : matrix) (s : selector) (block : matrix) : matrix :=
  match s with
  | SliceAll => block
  | Sel k => put_rows (bflat k) t block
  end.

(** The statement [dc[:, signal_mask][navigation_mask, :] = block] (and
    the write-back of the augmented assignment [... /= ...]).  Python
    evaluates [t = dc[:, signal_mask]] and then [t[navigation_mask, :] =
    block].  With [slice(None)] numpy's basic indexing makes [t] a view of
    [dc], so the assignment reaches [dc]; with a boolean array, advanced
    indexing makes [t] a fresh copy, the assignment changes that copy only
    and [dc] keeps its contents. *)
Definition setitem_chain (dc : matrix) (signal_mask navigation_mask : selector)
  (block : matrix) : result matrix :=
  (t <- getitem_cols dc signal_mask ;;
   _ <- getitem_rows t navigation_mask ;;
   let t' := setitem_rows t navigation_mask block in
   Ok (match signal_mask with
       | SliceAll => t'
       | Sel _ => dc
       end))%py.

(** ** Estimators and algorithm identifiers *)

(** The attributes of a fitted scikit-learn-like estimator that the
    program reads from its last step. *)
Record fitted := {
  components_ : matrix;
  explained_variance_ : option vector;
  mean_ : option vector
}.

(** An estimator object: which methods it has, and what they do.  [fit]
    and [fit_transform] return the fitted attributes next to their result;
    [transform] reads them. *)
Record estimator := {
  has_fit_transform : bool;
  has_fit : bool;
  has_transform : bool;
  fit_transform : matrix -> result (matrix * fitted);
  fit : matrix -> result fitted;
  transform : fitted -> matrix -> result matrix
}.

Inductive algorithm_id :=
| Name (s : string)
| Object (e : estimator).

Definition is_name (a : algorithm_id) (s : string) : bool :=
  match a with
  | Name s' => String.eqb s' s
  | Object _ => false
  end.

Definition name_in (a : algorithm_id) (l : list string) : bool :=
  existsb (is_name a) l.

(** ** LearningResults *)

(** The attributes set by [LearningResults.__init__], then the two that
    only [blind_source_separation] adds. *)
Record LearningResults := {
  factors : option matrix;
  loadings : option matrix;
  explained_variance : option vector;
  explained_variance_ratio : option vector;
  number_significant_components : option nat;
  decomposition_algorithm : option algorithm_id;
  poissonian_noise_normalized : option bool;
  output_dimension : option Z;
  mean : option vector;
  centre : option string;
  bss_algorithm : option string;
  unmixing_matrix : option matrix;
  bss_factors : option matrix;
  bss_loadings : option matrix;
  unfolded : option bool;
  original_shape : option (list nat);
  navigation_mask : option bool_array;
  signal_mask : option bool_array;
  on_loadings : option bool;
  bss_node : option string
}.

(** [LearningResults()] *)
Definition LearningResults_init : LearningResults :=
  {| factors := None; loadings := None; explained_variance := None;
     explained_variance_ratio := None; number_significant_components := None;
     decomposition_algorithm := None; poissonian_noise_normalized := None;
     output_dimension := None; mean := None; centre := None;
     bss_algorithm := None; unmixing_matrix := None; bss_factors := None;
     bss_loadings := None; unfolded := None; original_shape := None;
     navigation_mask := None; signal_mask := None;
     on_loadings := None; bss_node := None |}.

(** [lr.__dict__.update(target.__dict__)] for a [target] made by
    [LearningResults()] inside [decomposition]: every attribute that
    [__init__] sets is in [target.__dict__] and overwrites the stored one;
    attributes that [target] never got ([on_loadings], [bss_node]) stay. *)
Definition dict_update (lr target : LearningResults) : LearningResults :=
  {| factors := factors target;
     loadings := loadings target;
     explained_variance := explained_variance target;
     explained_variance_ratio := explained_variance_ratio target;
     number_significant_components := number_significant_components target;
     decomposition_algorithm := decomposition_algorithm target;
     poissonian_noise_normalized := poissonian_noise_normalized target;
     output_dimension := output_dimension target;
     mean := mean target;
     centre := centre target;
     bss_algorithm := bss_algorithm target;
     unmixing_matrix := unmixing_matrix target;
     bss_factors := bss_factors target;
     bss_loadings := bss_loadings target;
     unfolded := unfolded target;
     original_shape := original_shape target;
     navigation_mask := navigation_mask target;
     signal_mask := signal_mask target;
     on_loadings := on_loadings lr;
     bss_node := bss_node lr |}.

(** [LearningResults.crop_decomposition_dimension(n)] on eager arrays. *)
Definition crop_decomposition_dimension (lr : LearningResults) (n : Z)
  : result LearningResults :=
  match loadings lr, factors lr with
  | Some l, Some f =>
      Ok {| factors := Some (slice_cols_to n f);
            loadings := Some (slice_cols_to n l);
            explained_variance := option_map (py_slice_to n) (explained_variance lr);
            explained_variance_ratio := explained_variance_ratio lr;
            number_significant_components := number_significant_components lr;
            decomposition_algorithm := decomposition_algorithm lr;
            poissonian_noise_normalized := poissonian_noise_normalized lr;
            output_dimension := output_dimension lr;
            mean := mean lr;
            centre := centre lr;
            bss_algorithm := bss_algorithm lr;
            unmixing_matrix := unmixing_matrix lr;
            bss_factors := bss_factors lr;
            bss_loadings := bss_loadings lr;
            unfolded := unfolded lr;
            original_shape := original_shape lr;
            navigation_mask := navigation_mask lr;
            signal_mask := signal_mask lr;
            on_loadings := on_loadings lr;
            bss_node := bss_node lr |}
  | _, _ => Raise (E_numpy TypeError "'NoneType' object is not subscriptable")
  end.

(** Attribute assignments [lr.attr = v]. *)
Definition set_factors (v : option matrix) (lr : LearningResults) :=
  Build_LearningResults v (loadings lr) (explained_variance lr)
    (explained_variance_ratio lr) (number_significant_components lr)
    (decomposition_algorithm lr) (poissonian_noise_normalized lr)
    (output_dimension lr) (mean lr) (centre lr) (bss_algorithm lr)
    (unmixing_matrix lr) (bss_factors lr) (bss_loadings lr) (unfolded lr)
    (original_shape lr) (navigation_mask lr) (signal_mask lr)
    (on_loadings lr) (bss_node lr).

Definition set_loadings (v : option matrix) (lr : LearningResults) :=
  Build_LearningResults (factors lr) v (explained_variance lr)
    (explained_variance_ratio lr) (number_significant_components lr)
    (decomposition_algorithm lr) (poissonian_noise_normalized lr)
    (output_dimension lr) (mean lr) (centre lr) (bss_algorithm lr)
    (unmixing_matrix lr) (bss_factors lr) (bss_loadings lr) (unfolded lr)
    (original_shape lr) (navigation_mask lr) (signal_mask lr)
    (on_loadings lr) (bss_node lr).

Definition set_bss_algorithm (v : option string) (lr : LearningResults) :=
  Build_LearningResults (factors lr) (loadings lr) (explained_variance lr)
    (explained_variance_ratio lr) (number_significant_components lr)
    (decomposition_algorithm lr) (poissonian_noise_normalized lr)
    (output_dimension lr) (mean lr) (centre lr) v
    (unmixing_matrix lr) (bss_factors lr) (bss_loadings lr) (unfolded lr)
    (original_shape lr) (navigation_mask lr) (signal_mask lr)
    (on_loadings lr) (bss_node lr).

Definition set_unmixing_matrix (v : option matrix) (lr : LearningResults) :=
  Build_LearningResults (factors lr) (loadings lr) (explained_variance lr)
    (explained_variance_ratio lr) (number_significant_components lr)
    (decomposition_algorithm lr) (poissonian_noise_normalized lr)
    (output_dimension lr) (mean lr) (centre lr) (bss_algorithm lr)
    v (bss_factors lr) (bss_loadings lr) (unfolded lr)
    (original_shape lr) (navigation_mask lr) (signal_mask lr)
    (on_loadings lr) (bss_node lr).

Definition set_bss_factors (v : option matrix) (lr : LearningResults) :=
  Build_LearningResults (factors lr) (loadings lr) (explained_variance lr)
    (explained_variance_ratio lr) (number_significant_components lr)
    (decomposition_algorithm lr) (poissonian_noise_normalized lr)
    (output_dimension lr) (mean lr) (centre lr) (bss_algorithm lr)
    (unmixing_matrix lr) v (bss_loadings lr) (unfolded lr)
    (original_shape lr) (navigation_mask lr) (signal_mask lr)
    (on_loadings lr) (bss_node lr).

Definition set_bss_loadings (v : option matrix) (lr : LearningResults) :=
  Build_LearningResults (factors lr) (loadings lr) (explained_variance lr)
    (explained_variance_ratio lr) (number_significant_components lr)
    (decomposition_algorithm lr) (poissonian_noise_normalized lr)
    (output_dimension lr) (mean lr) (centre lr) (bss_algorithm lr)
    (unmixing_matrix lr) (bss_factors lr) v (unfolded lr)
    (original_shape lr) (navigation_mask lr) (signal_mask lr)
    (on_loadings lr) (bss_node lr).

Definition set_original_shape (v : option (list nat)) (lr : LearningResults) :=
  Build_LearningResults (factors lr) (loadings lr) (explained_variance lr)
    (explained_variance_ratio lr) (number_significant_components lr)
    (decomposition_algorithm lr) (poissonian_noise_normalized lr)
    (output_dimension lr) (mean lr) (centre lr) (bss_algorithm lr)
    (unmixing_matrix lr) (bss_factors lr) (bss_loadings lr) (unfolded lr)
    v (navigation_mask lr) (signal_mask lr)
    (on_loadings lr) (bss_node lr).

Definition set_navigation_mask (v : option bool_array) (lr : LearningResults) :=
  Build_LearningResults (factors lr) (loadings lr) (explained_variance lr)
    (explained_variance_ratio lr) (number_significant_components lr)
    (decomposition_algorithm lr) (poissonian_noise_normalized lr)
    (output_dimension lr) (mean lr) (centre lr) (bss_algorithm lr)
    (unmixing_matrix lr) (bss_factors lr) (bss_loadings lr) (unfolded lr)
    (original_shape lr) v (signal_mask lr)
    (on_loadings lr) (bss_node lr).

Definition set_signal_mask (v : option bool_array) (lr : LearningResults) :=
  Build_LearningResults (factors lr) (loadings lr) (explained_variance lr)
    (explained_variance_ratio lr) (number_significant_components lr)
    (decomposition_algorithm lr) (poissonian_noise_normalized lr)
    (output_dimension lr) (mean lr) (centre lr) (bss_algorithm lr)
    (unmixing_matrix lr) (bss_factors lr) (bss_loadings lr) (unfolded lr)
    (original_shape lr) (navigation_mask lr) v
    (on_loadings lr) (bss_node lr).

(** ** The signal *)

(** The part of a signal that [MVA] touches.  [data] is the flattened
    navigation x signal view [dc] of the array ([dc] is [self.data] or
    its transposed view; both write through to the array).  [unfold()]
    and [fold()] belong to the dataset collaborator: [unfoldable] is what
    [unfold()] returns. *)
Record Signal := {
  data : matrix;
  dtype_is_float : bool;
  navigation_size : nat;
  _navigation_shape_in_array : list nat;
  _signal_shape_in_array : list nat;
  unfoldable : bool;
  folding_original_shape : list nat;
  _data_before_treatments : option matrix;
  _unfolded4decomposition : bool;
  _root_aG : option vector;
  _root_bH : option vector;
  learning_results : LearningResults
}.

Definition set_data (v : matrix) (s : Signal) :=
  Build_Signal v (dtype_is_float s) (navigation_size s)
    (_navigation_shape_in_array s) (_signal_shape_in_array s) (unfoldable s)
    (folding_original_shape s) (_data_before_treatments s)
    (_unfolded4decomposition s) (_root_aG s) (_root_bH s) (learning_results s).

Definition set_data_before_treatments (v : option matrix) (s : Signal) :=
  Build_Signal (data s) (dtype_is_float s) (navigation_size s)
    (_navigation_shape_in_array s) (_signal_shape_in_array s) (unfoldable s)
    (folding_original_shape s) v
    (_unfolded4decomposition s) (_root_aG s) (_root_bH s) (learning_results s).

Definition set_unfolded4decomposition (v : bool) (s : Signal) :=
  Build_Signal (data s) (dtype_is_float s) (navigation_size s)
    (_navigation_shape_in_array s) (_signal_shape_in_array s) (unfoldable s)
    (folding_original_shape s) (_data_before_treatments s)
    v (_root_aG s) (_root_bH s) (learning_results s).

Definition set_root_aG (v : option vector) (s : Signal) :=
  Build_Signal (data s) (dtype_is_float s) (navigation_size s)
    (_navigation_shape_in_array s) (_signal_shape_in_array s) (unfoldable s)
    (folding_original_shape s) (_data_before_treatments s)
    (_unfolded4decomposition s) v (_root_bH s) (learning_results s).

Definition set_root_bH (v : option vector) (s : Signal) :=
  Build_Signal (data s) (dtype_is_float s) (navigation_size s)
    (_navigation_shape_in_array s) (_signal_shape_in_array s) (unfoldable s)
    (folding_original_shape s) (_data_before_treatments s)
    (_unfolded4decomposition s) (_root_aG s) v (learning_results s).

Definition set_learning_results (v : LearningResults) (s : Signal) :=
  Build_Signal (data s) (dtype_is_float s) (navigation_size s)
    (_navigation_shape_in_array s) (_signal_shape_in_array s) (unfoldable s)
    (folding_original_shape s) (_data_before_treatments s)
    (_unfolded4decomposition s) (_root_aG s) (_root_bH s) v.

(** ** Noise normalization and its undo *)

(** Sums along axis 1 and along axis 0 of a block. *)
Definition sum_axis1 (b : matrix) : vector := map np_sum b.

Definition sum_axis0 (b : matrix) : vector :=
  map (fun j => np_sum (column NaN j b)) (seq 0 (ncols b)).

(** [np.sqrt(v.squeeze())[:, np.newaxis]] (and [[np.newaxis, :]]): a sum
    vector of length 1 is squeezed to a scalar, which cannot be indexed. *)
Definition sqrt_squeezed (v : vector) : result vector :=
  match v with
  | [_] => Raise (E_numpy IndexError "invalid index to scalar variable")
  | _ => Ok (map fsqrt v)
  end.

(** [root_aG * root_bH] for a column [root_aG] and a row [root_bH]. *)
Definition outer (a b : vector) : matrix :=
  map (fun x => map (fun y => fmul x y) b) a.

(** Element-wise operation of two blocks of the same shape. *)
Definition map2 (f : float -> float -> float) (a b : matrix) : matrix :=
  map (fun p => map (fun q => f (fst q) (snd q)) (combine (fst p) (snd p)))
      (combine a b).

(** [MVA.normalize_poissonian_noise] (lines 1518-1571).  The signal after
    the call comes first, then [Ok tt] or the exception raised. *)
Definition normalize_poissonian_noise (self : Signal)
  (navigation_mask signal_mask : option bool_array) : Signal * result unit :=
  let dc := data self in
  let navigation_mask := include_selector (option_map ravel navigation_mask) in
  let signal_mask := include_selector signal_mask in
  match included_block dc signal_mask navigation_mask with
  | Raise e => (self, Raise e)
  | Ok block =>
  match np_min (concat block) with
  | Raise e => (self, Raise e)
  | Ok minimum =>
  if fleb minimum (Fin 0) then (self, Raise E_negative_values) else
  let aG := sum_axis1 block in
  let bH := sum_axis0 block in
  match sqrt_squeezed aG with
  | Raise e => (self, Raise e)
  | Ok root_aG =>
  let self := set_root_aG (Some root_aG) self in
  match sqrt_squeezed bH with
  | Raise e => (self, Raise e)
  | Ok root_bH =>
  let self := set_root_bH (Some root_bH) self in
  (* dc[:, signal_mask][navigation_mask, :] /= self._root_aG * self._root_bH *)
  match setitem_chain dc signal_mask navigation_mask
          (map2 fdiv block (outer root_aG root_bH)) with
  | Raise e => (self, Raise e)
  | Ok dc1 =>
  let self := set_data dc1 self in
  (* dc[:, signal_mask][navigation_mask, :] = np.nan_to_num(dc[...][...]) *)
  match included_block dc1 signal_mask navigation_mask with
  | Raise e => (self, Raise e)
  | Ok block1 =>
  match setitem_chain dc1 signal_mask navigation_mask
          (map (map nan_to_num) block1) with
  | Raise e => (self, Raise e)
  | Ok dc2 => (set_data dc2 self, Ok tt)
  end end end end end end end.

(** [MVA.undo_treatments] (lines 1573-1586). *)
Definition undo_treatments (self : Signal) : Signal * result unit :=
  match _data_before_treatments self with
  | Some snapshot =>
      (set_data_before_treatments None (set_data snapshot self), Ok tt)
  | None => (self, Raise E_undo_unavailable)
  end.

(** ** A state monad with exceptions

    [M S A]: a computation on a state [S] that returns an [A] or raises;
    the state reached is kept in both cases, as Python keeps the
    assignments made before a [raise]. *)

Definition M (S A : Type) : Type := S -> S * result A.

Definition ret {S A} (a : A) : M S A := fun s => (s, Ok a).
Definition raise {S A} (e : exn) : M S A := fun s => (s, Raise e).
Definition lift {S A} (r : result A) : M S A := fun s => (s, r).
Definition get {S} : M S S := fun s => (s, Ok s).
Definition modify {S} (f : S -> S) : M S unit := fun s => (f s, Ok tt).

Definition bindM {S A B} (m : M S A) (k : A -> M S B) : M S B :=
  fun s =>
    match m s with
    | (s', Ok a) => k a s'
    | (s', Raise e) => (s', Raise e)
    end.

Declare Scope M_scope.
Delimit Scope M_scope with M.
Notation "x <- m ;; k" := (bindM m (fun x => k))
  (at level 61, m at next level, right associativity) : M_scope.
Notation "m ;;; k" := (bindM m (fun _ => k))
  (at level 61, right associativity) : M_scope.

Definition when {S} (b : bool) (m : M S unit) : M S unit :=
  if b then m else ret tt.

Fixpoint mapM {A B} (f : A -> result B) (l : list A) : result (list B) :=
  match l with
  | [] => Ok []
  | x :: l' => (y <- f x ;; ys <- mapM f l' ;; Ok (y :: ys))%py
  end.

(** [m op v] (not in place) with the one-dimensional [v] broadcast along
    the rows of [m]. *)
Definition rowwise (f : float -> float -> float) (m : matrix) (v : vector)
  : result matrix :=
  mapM (fun r => broadcast2 f r v) m.

(** ** decomposition *)

(** What [var_func] can be: a function, an array or list of polynomial
    coefficients, or anything else. *)
Inductive var_func_t :=
| VarCallable (f : matrix -> result matrix)
| VarPoly (coefficients : vector)
| VarOther.

(** Extra information returned under [return_info=True]. *)
Inductive info :=
| Info_XE (X E : matrix)
| Info_estimator (e : estimator).

(** The external collaborators of [decomposition]: the factorization
    functions imported at the top of the module, scikit-learn's estimator
    classes ([decomposition_algorithms], given [n_components]) and
    [np.linalg.pinv].  Each returns its Python result or raises.  Keyword
    arguments forwarded through [**kwargs] are part of the functions. *)
Record Backends := {
  sklearn_installed : bool;
  decomposition_algorithms : string -> option Z -> estimator;
  svd_pca : matrix -> string -> option Z -> option string -> bool ->
            result (matrix * matrix * option vector * option vector);
  mlpca : matrix -> matrix -> option Z -> string ->
          result (matrix * vector * matrix);
  rpca_godec : matrix -> option Z ->
               result (matrix * matrix * matrix * vector * matrix);
  orpca : matrix -> option Z -> result (matrix * matrix);
  orpca_store_error : matrix -> option Z ->
                      result (matrix * matrix * matrix * vector * matrix);
  ornmf : matrix -> option Z -> result (matrix * matrix);
  ornmf_store_error : matrix -> option Z ->
                      result (matrix * matrix * matrix * matrix);
  pinv : matrix -> result matrix
}.

(** The parameters of [decomposition], under their names.  [polyfit] is
    [kwargs.get("polyfit")]; [print_info] only prints and is left out. *)
Module Args.
Record t := {
  normalize_poissonian_noise : bool;
  algorithm : algorithm_id;
  output_dimension : option Z;
  centre : option string;
  auto_transpose : bool;
  navigation_mask : option bool_array;
  signal_mask : option bool_array;
  var_array : option matrix;
  var_func : option var_func_t;
  reproject : option string;
  return_info : bool;
  svd_solver : string;
  copy : bool;
  polyfit : option var_func_t
}.
End Args.

Definition algorithms_deprecated (a : algorithm_id) : option string :=
  if is_name a "fast_svd" then Some "svd"%string
  else if is_name a "fast_mlpca" then Some "mlpca"%string
  else if is_name a "RPCA_GoDec" then Some "rpca"%string
  else if is_name a "ORPCA" then Some "orpca"%string
  else if is_name a "ORNMF" then Some "ornmf"%string
  else None.

Definition algorithms_require_dimension : list string :=
  ["mlpca"; "rpca"; "orpca"; "ornmf"]%string.

Definition algorithms_sklearn : list string :=
  ["sklearn_pca"; "nmf"; "sparse_pca"; "mini_batch_sparse_pca"]%string.

(** [hasattr(algorithm, "fit_transform") or (hasattr(algorithm, "fit")
    and hasattr(algorithm, "transform"))]: a string has none of them. *)
Definition has_estimator_methods (a : algorithm_id) : bool :=
  match a with
  | Name _ => false
  | Object e => has_fit_transform e || (has_fit e && has_transform e)
  end.

Definition has_fit_and_transform (a : algorithm_id) : bool :=
  match a with
  | Name _ => false
  | Object e => has_fit e && has_transform e
  end.

Definition shape_eqb (a b : matrix) : bool :=
  (nrows a =? nrows b)%nat && (ncols a =? ncols b)%nat.

(** [np.polyval(p, x)], element-wise on [x]. *)
Definition polyval (p : vector) (x : matrix) : matrix :=
  map (map (fun v => fold_left (fun y pv => fadd (fmul y v) pv) p (Fin 0))) x.

(** [S ** 2 / len(factors)] *)
Definition variance_of_singular_values (S : vector) (factors : matrix)
  : vector :=
  map (fun s => fdiv (fmul s s) (Fin (INR (length factors)))) S.

(** The local variables that the fit leaves behind. *)
Record fit_out := {
  fo_factors : matrix;
  fo_loadings : matrix;
  fo_explained_variance : option vector;
  fo_mean : option vector;
  fo_centre : option string;
  fo_to_return : option info;
  fo_fitted : option fitted
}.

Definition contains (sub s : string) : bool :=
  match String.index 0 sub s with Some _ => true | None => false end.

Definition in_list (x : option string) (l : list string) : bool :=
  match x with
  | None => false
  | Some s => existsb (String.eqb s) l
  end.

(** [x - mean] where [mean] is an array, or [0] when it was [None]. *)
Definition sub_mean (x : matrix) (mean : option vector) : result matrix :=
  match mean with
  | None => Ok x
  | Some v => rowwise fsub x v
  end.

(** [z[keep, :] = block; z[~keep, :] = np.nan] on [z = np.zeros((n, k))]:
    rows of [block] at the kept positions, NaN rows elsewhere. *)
Fixpoint expand_rows (keep : list bool) (block : matrix) (k : nat) : matrix :=
  match keep with
  | [] => []
  | true :: keep' =>
      match block with
      | b :: block' => b :: expand_rows keep' block' k
      | [] => repeat (Fin 0) k :: expand_rows keep' [] k
      end
  | false :: keep' => repeat NaN k :: expand_rows keep' block k
  end.

Definition fill_excluded (n : nat) (s : selector) (block : matrix)
  : result matrix :=
  match s with
  | SliceAll => Ok block
  | Sel keep =>
      let cnt := length (filter (fun b => b) (bflat keep)) in
      if negb (one_dim keep && (n =? length (bflat keep))%nat)
      then Raise (E_numpy IndexError "boolean index did not match indexed array")
      else if (cnt =? nrows block)%nat
      then Ok (expand_rows (bflat keep) block (ncols block))
      else match block with
           | [b] => Ok (expand_rows (bflat keep) (repeat b cnt) (ncols block))
           | _ => Raise (E_numpy ValueError "shape mismatch in assignment")
           end
  end.

Section Decomposition.

Variable B : Backends.

(** The dispatch of lines 409-522 on the masked data [data_]. *)
Definition fit_dispatch (algorithm : algorithm_id) (is_sklearn_like : bool)
  (estim : option estimator) (output_dimension : option Z)
  (centre : option string) (auto_transpose : bool)
  (var_array : option matrix) (var_func : option var_func_t)
  (return_info : bool) (svd_solver : string) (data_ : matrix)
  : result fit_out :=
  (if is_name algorithm "svd" then
     '(factors, loadings, explained_variance, mean) <-
        svd_pca B data_ svd_solver output_dimension centre auto_transpose ;;
     Ok {| fo_factors := factors; fo_loadings := loadings;
           fo_explained_variance := explained_variance; fo_mean := mean;
           fo_centre := centre; fo_to_return := None; fo_fitted := None |}
   else if is_name algorithm "mlpca" then
     var_array <-
       match var_array, var_func with
       | Some _, Some _ => Raise E_var_func_and_var_array
       | None, None => Ok data_
       | Some va, None =>
           if shape_eqb va data_ then Ok va else Raise E_var_array_shape
       | None, Some (VarCallable f) => f data_
       | None, Some (VarPoly p) => Ok (polyval p data_)
       | None, Some VarOther => Raise E_var_func_type
       end ;;
     '(U, S', V) <- mlpca B data_ var_array output_dimension svd_solver ;;
     loadings <- rowwise fmul U S' ;;
     Ok {| fo_factors := V; fo_loadings := loadings;
           fo_explained_variance := Some (variance_of_singular_values S' V);
           fo_mean := None; fo_centre := centre; fo_to_return := None;
           fo_fitted := None |}
   else if is_name algorithm "rpca" then
     '(X, E, U, S', V) <- rpca_godec B data_ output_dimension ;;
     loadings <- rowwise fmul U S' ;;
     Ok {| fo_factors := V; fo_loadings := loadings;
           fo_explained_variance := Some (variance_of_singular_values S' V);
           fo_mean := None; fo_centre := centre;
           fo_to_return := if return_info then Some (Info_XE X E) else None;
           fo_fitted := None |}
   else if is_name algorithm "orpca" then
     if return_info then
       '(X, E, U, S', V) <- orpca_store_error B data_ output_dimension ;;
       loadings <- rowwise fmul U S' ;;
       Ok {| fo_factors := V; fo_loadings := loadings;
             fo_explained_variance := Some (variance_of_singular_values S' V);
             fo_mean := None; fo_centre := centre;
             fo_to_return := Some (Info_XE X E); fo_fitted := None |}
     else
       '(L, R') <- orpca B data_ output_dimension ;;
       Ok {| fo_factors := transpose R'; fo_loadings := L;
             fo_explained_variance := None; fo_mean := None;
             fo_centre := centre; fo_to_return := None; fo_fitted := None |}
   else if is_name algorithm "ornmf" then
     if return_info then
       '(X, E, W, H) <- ornmf_store_error B data_ output_dimension ;;
       Ok {| fo_factors := transpose H; fo_loadings := W;
             fo_explained_variance := None; fo_mean := None;
             fo_centre := centre; fo_to_return := Some (Info_XE X E);
             fo_fitted := None |}
     else
       '(W, H) <- ornmf B data_ output_dimension ;;
       Ok {| fo_factors := transpose H; fo_loadings := W;
             fo_explained_variance := None; fo_mean := None;
             fo_centre := centre; fo_to_return := None; fo_fitted := None |}
   else if is_sklearn_like then
     match estim with
     | None => Raise (E_numpy AttributeError "estim")
     | Some estim =>
         '(loadings, last_step) <-
            (if has_fit_transform estim then fit_transform estim data_
             else if has_fit_and_transform algorithm then
               ft <- fit estim data_ ;;
               l <- transform estim ft data_ ;;
               Ok (l, ft)
             else Raise (E_numpy AttributeError "components_")) ;;
         Ok {| fo_factors := transpose (components_ last_step);
               fo_loadings := loadings;
               fo_explained_variance := explained_variance_ last_step;
               fo_mean := mean_ last_step;
               fo_centre := match mean_ last_step with
                            | Some _ => Some "samples"%string
                            | None => centre
                            end;
               fo_to_return :=
                 if return_info then Some (Info_estimator estim) else None;
               fo_fitted := Some last_step |}
     end
   else Raise E_algorithm_not_recognised)%py.

(** Lines 524-531: the ratio and the number of significant components. *)
Definition variance_ratio (explained_variance : option vector)
  : result (option vector * option nat) :=
  match explained_variance with
  | None => Ok (None, None)
  | Some ev =>
      let ratio := map (fun x => fdiv x (np_sum ev)) ev in
      (k <- estimate_elbow_position None (Some ratio) 20 ;;
       Ok (Some ratio, Some (k + 1)%nat))%py
  end.

(** A step that replaces the target by a computed one, or raises and
    leaves it. *)
Definition update (f : LearningResults -> result LearningResults)
  : M LearningResults unit :=
  fun t => match f t with
           | Ok t' => (t', Ok tt)
           | Raise e => (t, Raise e)
           end.

Definition truthy (n : option Z) : bool :=
  match n with
  | None => false
  | Some z => negb (z =? 0)%Z
  end.

(** Lines 533-556: store the fit in the target, crop it, delete the
    unmixing information, record the original shape. *)
Definition store_fit (self : Signal) (algorithm : algorithm_id)
  (normalize_poissonian_noise : bool) (output_dimension : option Z)
  (fo : fit_out) (explained_variance_ratio : option vector)
  (number_significant_components : option nat) : M LearningResults unit :=
  (modify (fun target =>
     {| factors := Some (fo_factors fo);
        loadings := Some (fo_loadings fo);
        explained_variance := fo_explained_variance fo;
        explained_variance_ratio := explained_variance_ratio;
        number_significant_components := number_significant_components;
        decomposition_algorithm := Some algorithm;
        poissonian_noise_normalized := Some normalize_poissonian_noise;
        output_dimension := output_dimension;
        mean := fo_mean fo;
        centre := fo_centre fo;
        bss_algorithm := bss_algorithm target;
        unmixing_matrix := unmixing_matrix target;
        bss_factors := bss_factors target;
        bss_loadings := bss_loadings target;
        unfolded := Some (_unfolded4decomposition self);
        original_shape := original_shape target;
        navigation_mask := navigation_mask target;
        signal_mask := signal_mask target;
        on_loadings := on_loadings target;
        bss_node := bss_node target |}) ;;;
   match output_dimension with
   | Some n =>
       when (truthy output_dimension
             && negb (Z.of_nat (ncols (fo_factors fo)) =? n)%Z)
            (update (fun target => crop_decomposition_dimension target n))
   | None => ret tt
   end ;;;
   modify (set_unmixing_matrix None) ;;;
   modify (set_bss_algorithm None) ;;;
   when (_unfolded4decomposition self)
        (modify (set_original_shape (Some (folding_original_shape self)))))%M.

(** Lines 558-584: reprojection.  Returns the local [reproject], which
    the branch for estimators changes. *)
Definition reproject_results (dc : matrix) (is_sklearn_like : bool)
  (estim : option estimator) (reproject : option string)
  (signal_mask' navigation_mask' : selector) (fo : fit_out)
  : M LearningResults (option string) :=
  (when (in_list reproject ["navigation"; "both"]%string)
        (loadings_ <- lift
           (x <- getitem_cols dc signal_mask' ;;
            if negb is_sklearn_like then
              y <- sub_mean x (fo_mean fo) ;; matmul y (fo_factors fo)
            else
              match estim, fo_fitted fo with
              | Some e, Some ft => transform e ft x
              | _, _ => Raise (E_numpy AttributeError "transform")
              end)%py ;;
         modify (set_loadings (Some loadings_))) ;;;
   if in_list reproject ["signal"; "both"]%string then
     if negb is_sklearn_like then
       factors' <- lift
         (p <- pinv B (fo_loadings fo) ;;
          x <- getitem_rows dc navigation_mask' ;;
          y <- sub_mean x (fo_mean fo) ;;
          z <- matmul p y ;;
          Ok (transpose z))%py ;;
       modify (set_factors (Some factors')) ;;;
       ret reproject
     else
       ret (if in_list reproject ["both"]%string
            then Some "signal"%string else None)
   else ret reproject)%M.

(** Lines 586-589: [target.factors[:] *= self._root_bH.T] and
    [target.loadings[:] *= self._root_aG]. *)
Definition rescale_results (self : Signal) : M LearningResults unit :=
  (update (fun target =>
     match factors target, _root_bH self with
     | Some f, Some root_bH =>
         (f' <- inplace_colwise fmul f root_bH ;;
          Ok (set_factors (Some f') target))%py
     | _, _ => Raise (E_numpy AttributeError "_root_bH")
     end) ;;;
   update (fun target =>
     match loadings target, _root_aG self with
     | Some l, Some root_aG =>
         (l' <- inplace_colwise fmul l root_aG ;;
          Ok (set_loadings (Some l') target))%py
     | _, _ => Raise (E_numpy AttributeError "_root_aG")
     end))%M.

(** Lines 592-601. *)
Definition store_signal_mask (self : Signal) (dc : matrix)
  (reproject : option string) (signal_mask' : selector)
  : M LearningResults unit :=
  match signal_mask' with
  | SliceAll => ret tt
  | Sel keep =>
      (update (fun target =>
         (m <- reshape (_signal_shape_in_array self) keep ;;
          Ok (set_signal_mask (Some (invert m)) target))%py) ;;;
       when (negb (in_list reproject ["both"; "signal"]%string))
            (update (fun target =>
               match factors target with
               | Some f =>
                   (f' <- fill_excluded (ncols dc) signal_mask' f ;;
                    Ok (set_factors (Some f') target))%py
               | None => Raise (E_numpy AttributeError "factors")
               end)))%M
  end.

(** Lines 603-612. *)
Definition store_navigation_mask (self : Signal) (dc : matrix)
  (reproject : option string) (navigation_mask' : selector)
  : M LearningResults unit :=
  match navigation_mask' with
  | SliceAll => ret tt
  | Sel keep =>
      (update (fun target =>
         (m <- reshape (_navigation_shape_in_array self) keep ;;
          Ok (set_navigation_mask (Some (invert m)) target))%py) ;;;
       when (negb (in_list reproject ["both"; "navigation"]%string))
            (update (fun target =>
               match loadings target with
               | Some l =>
                   (l' <- fill_excluded (nrows dc) navigation_mask' l ;;
                    Ok (set_loadings (Some l') target))%py
               | None => Raise (E_numpy AttributeError "loadings")
               end)))%M
  end.

(** What the checks before the [try] leave behind (lines 220-311): the
    algorithm after the renaming of deprecated names, the solver, and the
    estimator if the algorithm is scikit-learn-like. *)
Record prelude := {
  algorithm' : algorithm_id;
  svd_solver' : string;
  is_sklearn_like : bool;
  estim : option estimator
}.

(** Lines 246-268: a deprecated algorithm name is replaced by its new
    name. *)
Definition renamed (algorithm : algorithm_id) : algorithm_id :=
  match algorithms_deprecated algorithm with
  | Some new_algo => Name new_algo
  | None => algorithm
  end.

Definition validate (a : Args.t) (self : Signal) : result prelude :=
  if negb (dtype_is_float self) then Raise E_dtype_not_float
  else if (navigation_size self <? 2)%nat then Raise E_navigation_size
  else
    let new_algo := algorithms_deprecated (Args.algorithm a) in
    let svd_solver :=
      match new_algo, Args.algorithm a with
      | Some _, Name old =>
          if contains "fast" old then "randomized"%string
          else Args.svd_solver a
      | _, _ => Args.svd_solver a
      end in
    let algorithm := renamed (Args.algorithm a) in
    match algorithm with
    | Name n =>
        if name_in algorithm algorithms_require_dimension
           && match Args.output_dimension a with None => true | _ => false end
        then Raise (E_output_dimension_required n)
        else if name_in algorithm algorithms_sklearn then
          if sklearn_installed B
          then Ok {| algorithm' := algorithm; svd_solver' := svd_solver;
                     is_sklearn_like := true;
                     estim := Some (decomposition_algorithms B n
                                      (Args.output_dimension a)) |}
          else Raise (E_requires_sklearn n)
        else Ok {| algorithm' := algorithm; svd_solver' := svd_solver;
                   is_sklearn_like := false; estim := None |}
    | Object e =>
        if has_estimator_methods algorithm
        then Ok {| algorithm' := algorithm; svd_solver' := svd_solver;
                   is_sklearn_like := true; estim := Some e |}
        else Ok {| algorithm' := algorithm; svd_solver' := svd_solver;
                   is_sklearn_like := false; estim := None |}
    end.

(** Lines 313-331: the locals [normalize_poissonian_noise] and [var_func]
    after the MLPCA and [polyfit] adjustments. *)
Definition effective_normalize (p : prelude) (a : Args.t) : bool :=
  if is_name (algorithm' p) "mlpca" && Args.normalize_poissonian_noise a
  then false else Args.normalize_poissonian_noise a.

Definition effective_var_func (a : Args.t) : option var_func_t :=
  match Args.polyfit a with
  | Some p => Some p
  | None => Args.var_func a
  end.

(** Lines 357-400: ravel the masks, normalize the noise if asked, take
    the view [dc], turn the masks into selectors, select [data_].
    Returns [(dc, signal_mask, navigation_mask, data_)], the masks being
    the inclusion selectors. *)
Definition prepare (p : prelude) (a : Args.t) (self : Signal)
  : Signal * result (matrix * selector * selector * matrix) :=
  let navigation_mask := option_map ravel (Args.navigation_mask a) in
  let signal_mask := option_map ravel (Args.signal_mask a) in
  let '(self, normalized) :=
    if effective_normalize p a then
      match Args.centre a with
      | Some _ => (self, Raise E_centre_incompatible)
      | None => normalize_poissonian_noise self navigation_mask signal_mask
      end
    else (self, Ok tt) in
  match normalized with
  | Raise e => (self, Raise e)
  | Ok _ =>
      let dc := data self in
      let navigation_mask' := include_selector navigation_mask in
      let signal_mask' := include_selector signal_mask in
      (self,
       (data_ <- included_block dc signal_mask' navigation_mask' ;;
        Ok (dc, signal_mask', navigation_mask', data_))%py)
  end.

(** Lines 402-531: the fit on [data_] and the variance ratio. *)
Definition fit_stage (p : prelude) (a : Args.t) (data_ : matrix)
  : result (fit_out * option vector * option nat) :=
  (fo <- fit_dispatch (algorithm' p) (is_sklearn_like p) (estim p)
           (Args.output_dimension a) (Args.centre a) (Args.auto_transpose a)
           (Args.var_array a) (effective_var_func a) (Args.return_info a)
           (svd_solver' p) data_ ;;
   ' (ratio, significant) <- variance_ratio (fo_explained_variance fo) ;;
   Ok (fo, ratio, significant))%py.

(** Lines 533-612 on the target. *)
Definition store_results (p : prelude) (a : Args.t) (self : Signal)
  (dc : matrix) (signal_mask' navigation_mask' : selector) (fo : fit_out)
  (ratio : option vector) (significant : option nat)
  : M LearningResults unit :=
  (store_fit self (algorithm' p) (effective_normalize p a)
     (Args.output_dimension a) fo ratio significant ;;;
   reproject <- reproject_results dc (is_sklearn_like p) (estim p)
                  (Args.reproject a) signal_mask' navigation_mask' fo ;;
   when (effective_normalize p a) (rescale_results self) ;;;
   store_signal_mask self dc reproject signal_mask' ;;;
   store_navigation_mask self dc reproject navigation_mask')%M.

(** The body of the [try] (lines 355-612).  It works on the signal and on
    the local [target]; both are returned as the body leaves them, with
    the value of [to_return] or the exception raised. *)
Definition try_body (p : prelude) (a : Args.t) (self : Signal)
  (target : LearningResults)
  : Signal * LearningResults * result (option info) :=
  match prepare p a self with
  | (self, Raise e) => (self, target, Raise e)
  | (self, Ok (dc, signal_mask', navigation_mask', data_)) =>
      match fit_stage p a data_ with
      | Raise e => (self, target, Raise e)
      | Ok (fo, ratio, significant) =>
          match store_results p a self dc signal_mask' navigation_mask'
                  fo ratio significant target
          with
          | (target, Ok _) => (self, target, Ok (fo_to_return fo))
          | (target, Raise e) => (self, target, Raise e)
          end
      end
  end.

(** The [finally] clause (lines 614-622). *)
Definition finally_clause (copy : bool) (target : LearningResults)
  (self : Signal) : Signal * result unit :=
  let self :=
    if _unfolded4decomposition self
    then set_unfolded4decomposition false self
    else self in
  let self :=
    set_learning_results (dict_update (learning_results self) target) self in
  if copy then undo_treatments self else (self, Ok tt).

(** Lines 343-353: the snapshot [_data_before_treatments] under
    [copy=True], and [self._unfolded4decomposition = self.unfold()]. *)
Definition enter (a : Args.t) (self : Signal) : Signal :=
  let self :=
    if Args.copy a
    then set_data_before_treatments (Some (data self)) self
    else self in
  set_unfolded4decomposition (unfoldable self) self.

(** [MVA.decomposition] (lines 97-628): the signal after the call, and
    the returned value or the exception that leaves the call. *)
Definition decomposition (a : Args.t) (self : Signal)
  : Signal * result (option info) :=
  match validate a self with
  | Raise e => (self, Raise e)
  | Ok p =>
      let self := enter a self in
      let target := LearningResults_init in
      let '(self, target, outcome) := try_body p a self target in
      match finally_clause (Args.copy a) target self with
      | (self, Raise e) => (self, Raise e)
      | (self, Ok _) => (self, outcome)
      end
  end.

End Decomposition.

(** ** Sign reversal of the BSS components

    The arrays of the results are numpy arrays here; the branches for
    deferred (dask) arrays, [hasattr(x, "compute")], belong to the lazy
    dataset collaborator and are not modelled. *)

(** [x *= -1] on one entry. *)
Definition times_minus_one (x : float) : float := fmul x (Fin (-1)).

Fixpoint map_at {A} (f : A -> A) (i : nat) (l : list A) {struct l} : list A :=
  match l, i with
  | [], _ => []
  | x :: l', O => f x :: l'
  | x :: l', S i' => x :: map_at f i' l'
  end.

(** [m[:, i] *= -1] *)
Definition negate_column (i : nat) (m : matrix) : result matrix :=
  if forallb (fun r => (i <? length r)%nat) m
  then Ok (map (map_at times_minus_one i) m)
  else Raise (E_numpy IndexError "index is out of bounds for axis 1").

(** [m[i, :] *= -1] *)
Definition negate_row (i : nat) (m : matrix) : result matrix :=
  if (i <? length m)%nat
  then Ok (map_at (map times_minus_one) i m)
  else Raise (E_numpy IndexError "index is out of bounds for axis 0").

(** [m[:, i]] *)
Definition get_column (i : nat) (m : matrix) : result vector :=
  if forallb (fun r => (i <? length r)%nat) m
  then Ok (column NaN i m)
  else Raise (E_numpy IndexError "index is out of bounds for axis 1").

Definition not_none {A} (x : option A) : result A :=
  match x with
  | Some a => Ok a
  | None => Raise (E_numpy TypeError "'NoneType' object is not subscriptable")
  end.

(** [MVA.reverse_bss_component] (lines 1058-1065) for one component. *)
Definition reverse_bss_component (component_number : nat)
  : M LearningResults unit :=
  (update (fun target =>
     (f <- not_none (bss_factors target) ;;
      f' <- negate_column component_number f ;;
      Ok (set_bss_factors (Some f') target))%py) ;;;
   update (fun target =>
     (l <- not_none (bss_loadings target) ;;
      l' <- negate_column component_number l ;;
      Ok (set_bss_loadings (Some l') target))%py) ;;;
   update (fun target =>
     (w <- not_none (unmixing_matrix target) ;;
      w' <- negate_row component_number w ;;
      Ok (set_unmixing_matrix (Some w') target))%py))%M.

(** One turn of the loop of [_auto_reverse_bss_component] (lines
    1084-1096). *)
Definition auto_reverse_step (reverse_component_criterion : string)
  (i : nat) : M LearningResults unit :=
  (lr <- get ;;
   values <- lift
     (if String.eqb reverse_component_criterion "factors"
      then not_none (bss_factors lr)
      else if String.eqb reverse_component_criterion "loadings"
      then not_none (bss_loadings lr)
      else Raise E_reverse_criterion) ;;
   col <- lift (get_column i values) ;;
   minimum <- lift (np_nanmin col) ;;
   maximum <- lift (np_nanmax col) ;;
   when (fltb minimum (Fin 0) && fgtb (fneg minimum) maximum)
        (reverse_bss_component i))%M.

Fixpoint for_each {S} (body : nat -> M S unit) (l : list nat) : M S unit :=
  match l with
  | [] => ret tt
  | i :: l' => (body i ;;; for_each body l')%M
  end.

(** [MVA._auto_reverse_bss_component] (lines 1081-1100). *)
Definition _auto_reverse_bss_component (reverse_component_criterion : string)
  : M LearningResults unit :=
  (lr <- get ;;
   f <- lift (not_none (bss_factors lr)) ;;
   let n_components := ncols f in
   for_each (auto_reverse_step reverse_component_criterion)
            (seq 0 n_components))%M.

(** ** Normalization of the components *)

(** [_normalize_components] (lines 83-87): [target /= coeff] and
    [other *= coeff], in place, with [coeff = function(target, axis=0)].
    The arrays after the call come first. *)
Definition _normalize_components (target : matrix) (other : option matrix)
  (function : matrix -> vector)
  : matrix * option matrix * result unit :=
  let coeff := function target in
  match inplace_rowwise fdiv target coeff with
  | Raise e => (target, other, Raise e)
  | Ok target' =>
      match other with
      | None =>
          (target', other,
           Raise (E_numpy TypeError "unsupported operand type(s) for *=: 'NoneType'"))
      | Some o =>
          match inplace_rowwise fmul o coeff with
          | Raise e => (target', other, Raise e)
          | Ok o' => (target', Some o', Ok tt)
          end
      end
  end.

(** [MVA.normalize_decomposition_components] (lines 951-976). *)
Definition normalize_decomposition_components (target : string)
  (function : matrix -> vector) : M LearningResults unit :=
  fun lr =>
    if String.eqb target "factors" then
      match factors lr with
      | None => (lr, Raise E_no_decomposition)
      | Some t =>
          let '(t', o', r) := _normalize_components t (loadings lr) function in
          (set_loadings o' (set_factors (Some t') lr), r)
      end
    else if String.eqb target "loadings" then
      match loadings lr with
      | None => (lr, Raise E_no_decomposition)
      | Some t =>
          let '(t', o', r) := _normalize_components t (factors lr) function in
          (set_factors o' (set_loadings (Some t') lr), r)
      end
    else (lr, Raise E_target_name).

(** [MVA.normalize_bss_components] (lines 978-1005). *)
Definition normalize_bss_components (target : string)
  (function : matrix -> vector) : M LearningResults unit :=
  fun lr =>
    if String.eqb target "factors" then
      match bss_factors lr with
      | None => (lr, Raise E_no_decomposition)
      | Some t =>
          let '(t', o', r) :=
            _normalize_components t (bss_loadings lr) function in
          (set_bss_loadings o' (set_bss_factors (Some t') lr), r)
      end
    else if String.eqb target "loadings" then
      match bss_loadings lr with
      | None => (lr, Raise E_no_decomposition)
      | Some t =>
          let '(t', o', r) :=
            _normalize_components t (bss_factors lr) function in
          (set_bss_factors o' (set_bss_loadings (Some t') lr), r)
      end
    else (lr, Raise E_target_name).

(** [np.sum(m, axis=0)], the default [function]. *)
Definition np_sum_axis0 (m : matrix) : vector := sum_axis0 m.

(** The reconstruction [factors @ loadings.T] (the product that
    [_calculate_recmatrix] forms): entry [(a, b)] is the dot product of
    row [a] of [factors] and row [b] of [loadings]. *)
Definition reconstruction (factors loadings : matrix) : matrix :=
  map (fun f => map (fun l => dot f l) loadings) factors.

(** ** Notions of the specification *)

(** Modelled from the spec: the error taxonomy of its section 7, which the
    source does not have (it raises [ValueError], [TypeError],
    [AttributeError], [ImportError]).  Invalid, missing or conflicting
    options and unknown algorithm identifiers are configuration errors;
    data that breaks a mathematical precondition (non-positive values,
    wrong dtype) are domain errors; shape mismatches are dimension errors;
    an unavailable optional backend is a dependency error. *)
Inductive error_kind :=
| ConfigurationError
| DomainError
| DimensionError
| DependencyError
| OtherError.

Definition taxonomy (e : exn) : error_kind :=
  match e with
  | E_output_dimension_required _ => ConfigurationError
  | E_centre_incompatible => ConfigurationError
  | E_var_func_and_var_array => ConfigurationError
  | E_var_func_type => ConfigurationError
  | E_algorithm_not_recognised => ConfigurationError
  | E_target_name => ConfigurationError
  | E_reverse_criterion => ConfigurationError
  | E_dtype_not_float => DomainError
  | E_negative_values => DomainError
  | E_var_array_shape => DimensionError
  | E_navigation_size => DimensionError
  | E_numpy IndexError _ => DimensionError
  | E_requires_sklearn _ => DependencyError
  | _ => OtherError
  end.

Definition no_nan (v : vector) : Prop := Forall (fun x => isnan x = false) v.

(** [0 < x] *)
Definition strictly_positive (x : float) : Prop := fltb (Fin 0) x = true.

(** The BSS block of the results is null. *)
Definition bss_block_null (lr : LearningResults) : Prop :=
  unmixing_matrix lr = None /\ bss_factors lr = None /\
  bss_loadings lr = None /\ bss_algorithm lr = None.

(** The built-in algorithm names and the names of the scikit-learn
    estimators that [decomposition] knows. *)
Definition recognised (algorithm : algorithm_id) : bool :=
  name_in algorithm ["svd"; "mlpca"; "rpca"; "orpca"; "ornmf"]%string
  || name_in algorithm algorithms_sklearn.

(** The error of a call is raised no later than the fit: in the
    pre-treatments, in the masking, in the backend, or in the variance
    ratio, before any result is stored in the target. *)
Definition fails_before_store (B : Backends) (p : prelude) (a : Args.t)
  (s : Signal) : bool :=
  match prepare p a (enter a s) with
  | (_, Raise _) => true
  | (_, Ok (_, _, _, data_)) => negb (is_ok (fit_stage B p a data_))
  end.

(** The quantities of the elbow estimate as the specification words them:
    [elbow_y c i] is the log of the clipped [i]-th sample and
    [elbow_distance c mp i] the distance of the [i]-th log-point to the
    line through the first and the [mp]-th log-points, NaN mapped to 0 and
    infinities to the largest finite doubles. *)
Definition elbow_y (curve : vector) (i : nat) : float :=
  flog (clip_below (Fin 1e-30) (nth i curve NaN)).

Definition elbow_distance (curve : vector) (mp i : nat) : float :=
  let y1 := elbow_y curve 0 in
  let y2 := elbow_y curve mp in
  let dx := (Z.of_nat mp - 0)%Z in
  nan_to_num
    (fdiv (fabs (fsub (fmul (of_Z dx) (fsub y1 (elbow_y curve i)))
                      (fmul (of_Z (0 - Z.of_nat i)) (fsub y2 y1))))
          (fsqrt (fadd (of_Z (dx ^ 2)) (fmul (fsub y2 y1) (fsub y2 y1))))).

(** The sign-reversal criterion of the specification on one column:
    [min < 0] and [|min| > max], both ignoring NaN. *)
Definition reversal_criterion (col : vector) : result bool :=
  (m <- np_nanmin col ;;
   M <- np_nanmax col ;;
   Ok (fltb m (Fin 0) && fgtb (fabs m) M))%py.

(** ** Sample inputs

    Stand-ins for the external backends, and small signals, on which the
    properties are exercised. *)

Definition backend_failure : exn := E_backend ValueError "failure during the fit".

(** An object without estimator methods. *)
Definition no_estimator : estimator :=
  {| has_fit_transform := false; has_fit := false; has_transform := false;
     fit_transform := fun _ => Raise backend_failure;
     fit := fun _ => Raise backend_failure;
     transform := fun _ _ => Raise backend_failure |}.

(** Backends that all fail. *)
Definition failing_backends : Backends :=
  {| sklearn_installed := false;
     decomposition_algorithms := fun _ _ => no_estimator;
     svd_pca := fun _ _ _ _ _ => Raise backend_failure;
     mlpca := fun _ _ _ _ => Raise backend_failure;
     rpca_godec := fun _ _ => Raise backend_failure;
     orpca := fun _ _ => Raise backend_failure;
     orpca_store_error := fun _ _ => Raise backend_failure;
     ornmf := fun _ _ => Raise backend_failure;
     ornmf_store_error := fun _ _ => Raise backend_failure;
     pinv := fun _ => Raise backend_failure |}.

(** Backends whose SVD returns one component for a 2 x 2 matrix, without
    explained variance, and whose MLPCA returns two components for a
    2 x 3 matrix, with singular values 6 and 3. *)
Definition sample_backends : Backends :=
  {| sklearn_installed := false;
     decomposition_algorithms := fun _ _ => no_estimator;
     svd_pca := fun _ _ _ _ _ =>
       Ok ([[Fin 1]; [Fin 2]], [[Fin 3]; [Fin 4]], None, None);
     mlpca := fun _ _ _ _ =>
       Ok ([[Fin 1; Fin 0]; [Fin 0; Fin 1]],
           [Fin 6; Fin 3],
           [[Fin 1; Fin 0]; [Fin 0; Fin 1]; [Fin 0; Fin 0]]);
     rpca_godec := fun _ _ => Raise backend_failure;
     orpca := fun _ _ => Raise backend_failure;
     orpca_store_error := fun _ _ => Raise backend_failure;
     ornmf := fun _ _ => Raise backend_failure;
     ornmf_store_error := fun _ _ => Raise backend_failure;
     pinv := fun _ => Raise backend_failure |}.

(** Results as a decomposition followed by a blind source separation
    leaves them. *)
Definition earlier_results : LearningResults :=
  {| factors := Some [[Fin 1]; [Fin 2]];
     loadings := Some [[Fin 3]; [Fin 4]];
     explained_variance := None;
     explained_variance_ratio := None;
     number_significant_components := None;
     decomposition_algorithm := Some (Name "svd");
     poissonian_noise_normalized := Some false;
     output_dimension := None;
     mean := None;
     centre := None;
     bss_algorithm := Some "orthomax"%string;
     unmixing_matrix := Some [[Fin 1]];
     bss_factors := Some [[Fin 1]; [Fin 2]];
     bss_loadings := Some [[Fin 3]; [Fin 4]];
     unfolded := Some false;
     original_shape := None;
     navigation_mask := None;
     signal_mask := None;
     on_loadings := Some false;
     bss_node := Some "None"%string |}.

(** A signal of two spectra with two channels, or with three. *)
Definition sample_signal (d : matrix) (channels : nat) (lr : LearningResults)
  : Signal :=
  {| data := d;
     dtype_is_float := true;
     navigation_size := 2;
     _navigation_shape_in_array := [2%nat];
     _signal_shape_in_array := [channels];
     unfoldable := false;
     folding_original_shape := [];
     _data_before_treatments := None;
     _unfolded4decomposition := false;
     _root_aG := None;
     _root_bH := None;
     learning_results := lr |}.

Definition data_2x2 : matrix := [[Fin 1; Fin 2]; [Fin 3; Fin 4]].
Definition data_2x3 : matrix := [[Fin 1; Fin 2; Fin 3]; [Fin 4; Fin 5; Fin 6]].

(** [decomposition(algorithm=..., output_dimension=..., navigation_mask=...,
    signal_mask=...)], the other parameters at their defaults. *)
Definition call (algorithm : string) (output_dimension : option Z)
  (navigation_mask signal_mask : option bool_array) : Args.t :=
  {| Args.normalize_poissonian_noise := false;
     Args.algorithm := Name algorithm;
     Args.output_dimension := output_dimension;
     Args.centre := None;
     Args.auto_transpose := true;
     Args.navigation_mask := navigation_mask;
     Args.signal_mask := signal_mask;
     Args.var_array := None;
     Args.var_func := None;
     Args.reproject := None;
     Args.return_info := false;
     Args.svd_solver := "auto";
     Args.copy := true;
     Args.polyfit := None |}.

(** [decomposition(algorithm="mlpca", output_dimension=2, var_array=...,
    var_func=...)] with both variance arguments. *)
Definition call_mlpca_both : Args.t :=
  {| Args.normalize_poissonian_noise := false;
     Args.algorithm := Name "mlpca";
     Args.output_dimension := Some 2%Z;
     Args.centre := None;
     Args.auto_transpose := true;
     Args.navigation_mask := None;
     Args.signal_mask := None;
     Args.var_array := Some data_2x3;
     Args.var_func := Some (VarPoly [Fin 1; Fin 0]);
     Args.reproject := None;
     Args.return_info := false;
     Args.svd_solver := "auto";
     Args.copy := true;
     Args.polyfit := None |}.

(** A mask in another shape, its entries in the same (C) order. *)
Definition reshaped (shape : list nat) (m : bool_array) : bool_array :=
  {| bshape := shape; bflat := bflat m |}.

(** A signal of three positions with three channels, the signal space
    being an image of 1 x 3 pixels. *)
Definition data_3x3 : matrix :=
  [[Fin 1; Fin 2; Fin 3]; [Fin 4; Fin 5; Fin 6]; [Fin 7; Fin 8; Fin 9]].

Definition signal_3x3 : Signal :=
  {| data := data_3x3;
     dtype_is_float := true;
     navigation_size := 3;
     _navigation_shape_in_array := [3%nat];
     _signal_shape_in_array := [1%nat; 3%nat];
     unfoldable := true;
     folding_original_shape := [3%nat; 1%nat; 3%nat];
     _data_before_treatments := None;
     _unfolded4decomposition := false;
     _root_aG := None;
     _root_bH := None;
     learning_results := earlier_results |}.

Definition mask_last : bool_array :=
  {| bshape := [3%nat]; bflat := [false; false; true] |}.

Definition mask_first : bool_array :=
  {| bshape := [3%nat]; bflat := [true; false; false] |}.

(** The explained variance that stays in the results: cropped to
    [output_dimension] entries when the backend returned factors with
    another number of columns (lines 546-547). *)
Definition stored_variance (output_dimension : option Z) (factors : matrix)
  (explained_variance : option vector) : option vector :=
  match output_dimension with
  | Some n =>
      if truthy output_dimension && negb (Z.of_nat (ncols factors) =? n)%Z
      then option_map (py_slice_to n) explained_variance
      else explained_variance
  | None => explained_variance
  end.

(** A curve with an infinite sample. *)
Definition curve_with_inf : vector := [Fin 1; PInf; Fin 1].

(** The rescaled block of the specification (section 4.2): each entry
    divided by the product of the square roots of its row sum and of its
    column sum, a NaN quotient replaced by 0. *)
Definition normalized_block (block : matrix) : matrix :=
  let root_aG := map fsqrt (sum_axis1 block) in
  let root_bH := map fsqrt (sum_axis0 block) in
  map (map nan_to_num) (map2 fdiv block (outer root_aG root_bH)).

(** A signal mask over two channels that excludes none. *)
Definition mask_none2 : bool_array :=
  {| bshape := [2%nat]; bflat := [false; false] |}.

Definition data_with_negative : matrix := [[Fin 1; Fin (-2)]; [Fin 3; Fin 4]].


(** [mapi_from f n l] applies [f i] to the entry of index [i] of [l],
    the indices starting at [n]. *)
Fixpoint mapi_from {A} (f : nat -> A -> A) (n : nat) (l : list A) : list A :=
  match l with
  | [] => []
  | x :: l' => f n x :: mapi_from f (S n) l'
  end.

(** Whether the criterion asks to reverse component [i] of the reference
    array [values]. *)
Definition reversal_flag (values : matrix) (i : nat) : bool :=
  match reversal_criterion (column NaN i values) with
  | Ok b => b
  | Raise _ => false
  end.

(** The reference array that [reverse_component_criterion] selects. *)
Definition reference_array (reverse_component_criterion : string)
  (lr : LearningResults) : option matrix :=
  if String.eqb reverse_component_criterion "factors" then bss_factors lr
  else if String.eqb reverse_component_criterion "loadings" then bss_loadings lr
  else None.

(** Results of a blind source separation with two components: the first
    column of the factors is [-5, 1, 2], the second [-1, 5, 2]. *)
Definition bss_results : LearningResults :=
  set_unmixing_matrix (Some [[Fin 1; Fin 2]; [Fin 3; Fin 4]])
    (set_bss_loadings (Some [[Fin 1; Fin 1]; [Fin 2; Fin 2]])
       (set_bss_factors
          (Some [[Fin (-5); Fin (-1)]; [Fin 1; Fin 5]; [Fin 2; Fin 2]])
          earlier_results)).

(** Component [i] counts as reversed once the loop has passed it, if the
    criterion asked for it. *)
Definition reversed_upto (values : matrix) (j i : nat) : bool :=
  (i <? j)%nat && reversal_flag values i.

(** [m] with the columns (rows) that [flag] marks multiplied by -1. *)
Definition reverse_columns (flag : nat -> bool) (m : matrix) : matrix :=
  map (mapi_from (fun i x => if flag i then times_minus_one x else x) 0) m.

Definition reverse_rows (flag : nat -> bool) (w : matrix) : matrix :=
  mapi_from (fun i row => if flag i then map times_minus_one row else row) 0 w.

(** The BSS arrays of [lr] are [F], [L] and [W] with the components below
    [j] reversed where the criterion on [values] asked for it. *)
Definition reversed_state (values F L W : matrix) (j : nat)
  (lr : LearningResults) : Prop :=
  bss_factors lr = Some (reverse_columns (reversed_upto values j) F) /\
  bss_loadings lr = Some (reverse_columns (reversed_upto values j) L) /\
  unmixing_matrix lr = Some (reverse_rows (reversed_upto values j) W).

(** [m] with column [i] combined with the [i]-th coefficient by [f]. *)
Definition scale_columns (f : float -> float -> float) (coeff : vector)
  (m : matrix) : matrix :=
  map (fun r => map (fun p => f (fst p) (snd p)) (combine r coeff)) m.

(** Results with an infinite factor. *)
Definition results_with_inf : LearningResults :=
  set_loadings (Some [[Fin 2]])
    (set_factors (Some [[PInf]; [Fin 1]]) LearningResults_init).

(** Results of a decomposition with two components. *)
Definition fit_results : LearningResults :=
  set_loadings (Some [[Fin 1; Fin 3]; [Fin 5; Fin 7]; [Fin 0; Fin 1]])
    (set_factors (Some [[Fin 1; Fin 2]; [Fin 3; Fin 6]]) LearningResults_init).

(** The array that [target] names, then the other one. *)
Definition target_and_other (target : string) (factors loadings : matrix)
  : matrix * matrix :=
  if String.eqb target "factors" then (factors, loadings)
  else (loadings, factors).

(** ** Predicates of the proofs *)

(** [preserves P m]: whatever [m] does, and whether it raises or not, it
    leads from a state in [P] to a state in [P]. *)
Definition preserves {S A} (P : S -> Prop) (m : M S A) : Prop :=
  forall s s' r, P s -> m s = (s', r) -> P s'.

(** What the noise normalization leaves alone. *)
Definition same_frame (s s' : Signal) : Prop :=
  learning_results s' = learning_results s /\
  _data_before_treatments s' = _data_before_treatments s /\
  _unfolded4decomposition s' = _unfolded4decomposition s /\
  _signal_shape_in_array s' = _signal_shape_in_array s /\
  _navigation_shape_in_array s' = _navigation_shape_in_array s.

Definition signal_mask_is (v : option bool_array) (t : LearningResults) : Prop :=
  signal_mask t = v.

Definition navigation_mask_is (v : option bool_array) (t : LearningResults)
  : Prop :=
  navigation_mask t = v.

(** The mask that [store_signal_mask] and [store_navigation_mask] put in
    the target for an inclusion selector: nothing for a slice, else the
    negated selector in the given shape. *)
Definition stored_mask (shape : list nat) (s : selector) : option bool_array :=
  match s with
  | SliceAll => None
  | Sel keep => Some (invert {| bshape := shape; bflat := bflat keep |})
  end.

Definition explained_variance_is (v : option vector) (t : LearningResults)
  : Prop :=
  explained_variance t = v.

(** ** More sample inputs and notions of the properties *)

(** The call [a] with another [algorithm] and [svd_solver]. *)
Definition with_algorithm (algorithm : algorithm_id) (svd_solver : string)
  (a : Args.t) : Args.t :=
  {| Args.normalize_poissonian_noise := Args.normalize_poissonian_noise a;
     Args.algorithm := algorithm;
     Args.output_dimension := Args.output_dimension a;
     Args.centre := Args.centre a;
     Args.auto_transpose := Args.auto_transpose a;
     Args.navigation_mask := Args.navigation_mask a;
     Args.signal_mask := Args.signal_mask a;
     Args.var_array := Args.var_array a;
     Args.var_func := Args.var_func a;
     Args.reproject := Args.reproject a;
     Args.return_info := Args.return_info a;
     Args.svd_solver := svd_solver;
     Args.copy := Args.copy a;
     Args.polyfit := Args.polyfit a |}.

(** The call [a] with another [normalize_poissonian_noise]. *)
Definition with_normalize (normalize : bool) (a : Args.t) : Args.t :=
  {| Args.normalize_poissonian_noise := normalize;
     Args.algorithm := Args.algorithm a;
     Args.output_dimension := Args.output_dimension a;
     Args.centre := Args.centre a;
     Args.auto_transpose := Args.auto_transpose a;
     Args.navigation_mask := Args.navigation_mask a;
     Args.signal_mask := Args.signal_mask a;
     Args.var_array := Args.var_array a;
     Args.var_func := Args.var_func a;
     Args.reproject := Args.reproject a;
     Args.return_info := Args.return_info a;
     Args.svd_solver := Args.svd_solver a;
     Args.copy := Args.copy a;
     Args.polyfit := Args.polyfit a |}.

(** The deprecated algorithm names with the name and the solver that
    [decomposition] puts in their place (lines 239-268). *)
Definition deprecated_call (old : string) (a : Args.t) : Args.t :=
  match algorithms_deprecated (Name old) with
  | Some new_algo =>
      with_algorithm (Name new_algo)
        (if contains "fast" old then "randomized"%string else Args.svd_solver a)
        a
  | None => a
  end.

(** The fit of a call on the data [data_] that the masks select. *)
Definition fit_of (B : Backends) (p : prelude) (a : Args.t) (data_ : matrix)
  : result fit_out :=
  fit_dispatch B (algorithm' p) (is_sklearn_like p) (estim p)
    (Args.output_dimension a) (Args.centre a) (Args.auto_transpose a)
    (Args.var_array a) (effective_var_func a) (Args.return_info a)
    (svd_solver' p) data_.

(** Backends whose MLPCA returns one component, with singular value 6. *)
Definition one_component_backends : Backends :=
  {| sklearn_installed := false;
     decomposition_algorithms := fun _ _ => no_estimator;
     svd_pca := fun _ _ _ _ _ => Raise backend_failure;
     mlpca := fun _ _ _ _ =>
       Ok ([[Fin 1]; [Fin 0]], [Fin 6], [[Fin 1]; [Fin 0]; [Fin 0]]);
     rpca_godec := fun _ _ => Raise backend_failure;
     orpca := fun _ _ => Raise backend_failure;
     orpca_store_error := fun _ _ => Raise backend_failure;
     ornmf := fun _ _ => Raise backend_failure;
     ornmf_store_error := fun _ _ => Raise backend_failure;
     pinv := fun _ => Raise backend_failure |}.

Definition argmax_of_nothing : exn :=
  E_numpy ValueError "attempt to get argmax of an empty sequence".

(** A signal of three spectra with two channels that holds the results
    of a decomposition with two components. *)
Definition fitted_signal : Signal :=
  {| data := [[Fin 1; Fin 2]; [Fin 3; Fin 4]; [Fin 5; Fin 6]];
     dtype_is_float := true;
     navigation_size := 3;
     _navigation_shape_in_array := [3%nat];
     _signal_shape_in_array := [2%nat];
     unfoldable := false;
     folding_original_shape := [];
     _data_before_treatments := None;
     _unfolded4decomposition := false;
     _root_aG := None;
     _root_bH := None;
     learning_results := fit_results |}.

(** A finite number. *)
Definition finite (x : float) : Prop := exists r, x = Fin r.

(** The factors, the loadings, the variance ratio and the number of
    significant components of the results are given ones. *)
Definition factors_is (v : option matrix) (t : LearningResults) : Prop :=
  factors t = v.

Definition ratio_is (v : option vector) (k : option nat) (t : LearningResults)
  : Prop :=
  explained_variance_ratio t = v /\ number_significant_components t = k.

(** A row of NaN. *)
Definition nan_row (r : vector) : Prop := Forall (fun x => x = NaN) r.

(** The exception of [x[:, np.newaxis]] on a zero-dimensional [x]. *)
Definition index_to_scalar : exn :=
  E_numpy IndexError "invalid index to scalar variable".

(** ** Sign reversal of the decomposition components *)

(** The position that the Python integer [i] names on an axis of [n]
    entries: negative integers count from the end. *)
Definition axis_index (n : nat) (i : Z) : result nat :=
  let j := if (i <? 0)%Z then (i + Z.of_nat n)%Z else i in
  if ((j <? 0) || (Z.of_nat n <=? j))%Z
  then Raise (E_numpy IndexError "index is out of bounds for axis 1")
  else Ok (Z.to_nat j).

(** [m[:, i] *= -1] for a Python integer [i]. *)
Definition negate_column_at (i : Z) (m : matrix) : result matrix :=
  (j <- axis_index (ncols m) i ;; negate_column j m)%py.

(** [MVA.reverse_decomposition_component] (lines 1007-1034) for an
    integer [component_number], on numpy arrays. *)
Definition reverse_decomposition_component (component_number : Z)
  : M LearningResults unit :=
  (update (fun target =>
     (f <- not_none (factors target) ;;
      f' <- negate_column_at component_number f ;;
      Ok (set_factors (Some f') target))%py) ;;;
   update (fun target =>
     (l <- not_none (loadings target) ;;
      l' <- negate_column_at component_number l ;;
      Ok (set_loadings (Some l') target))%py))%M.

(** ** Rebuilding the data from components *)

(** The [components] argument of the model builders: [None], an integer,
    or a list of integers. *)
Inductive components_arg :=
| AllComponents
| UpTo (n : Z)
| Listed (l : list Z).

(** The value of [mva_type.lower()] for the two values that the callers
    of [_calculate_recmatrix] pass. *)
Inductive mva_kind :=
| Decomposition
| Bss.

(** [x.reshape((r, c))] for a two-dimensional [x], in C order. *)
Fixpoint chunks (r c : nat) (flat : vector) : matrix :=
  match r with
  | O => []
  | S r' => firstn c flat :: chunks r' c (skipn c flat)
  end.

Definition reshape_to (r c : nat) (x : matrix) : result matrix :=
  let flat := concat x in
  if (length flat =? r * c)%nat then Ok (chunks r c flat)
  else Raise (E_numpy ValueError "cannot reshape array").

(** Lines 1130-1149: the product [a] for the arrays [factors] and
    [loadings = target.loadings.T]. *)
Definition recmatrix_product (components : components_arg)
  (factors loadings : matrix) : result matrix :=
  match components with
  | AllComponents => matmul factors loadings
  | Listed l =>
      (tfactors <- mapM (fun r => mapM (py_index r) l) factors ;;
       tloadings <- mapM (py_index loadings) l ;;
       matmul tfactors tloadings)%py
  | UpTo n => matmul (slice_cols_to n factors) (py_slice_to n loadings)
  end.

Definition no_attribute (name : string) : exn :=
  E_numpy AttributeError ("'NoneType' object has no attribute " ++ name).

(** [MVA._calculate_recmatrix] (lines 1102-1164).  The signal after the
    call comes first, then the data of the returned signal [sc] in the
    unfolded shape, or the exception.  The data of the signal is in the
    unfolded shape too, its rows the navigation positions.  [deepcopy],
    [fold] and the title belong to the dataset collaborator. *)
Definition _calculate_recmatrix (components : components_arg)
  (mva_type : mva_kind) (self : Signal) : Signal * result matrix :=
  let target := learning_results self in
  let '(factors, loadings) :=
    match mva_type with
    | Decomposition => (factors target, loadings target)
    | Bss => (bss_factors target, bss_loadings target)
    end in
  match loadings with
  | None => (self, Raise (no_attribute "'T'"))
  | Some loadings =>
      let loadings := transpose loadings in
      let a :=
        match factors with
        | Some factors => recmatrix_product components factors loadings
        | None =>
            match components with
            | Listed _ => Raise (no_attribute "'shape'")
            | _ => Raise (E_numpy TypeError "unsupported operand type(s): 'NoneType'")
            end
        end in
      match a with
      | Raise e => (self, Raise e)
      | Ok a =>
          (set_unfolded4decomposition false self,
           (d <- reshape_to (nrows (data self)) (ncols (data self))
                   (transpose a) ;;
            match mean target with
            | None => Ok d
            | Some mean => inplace_rowwise fadd d mean
            end)%py)
      end
  end.

(** [MVA.get_decomposition_model] (lines 1166-1183) and
    [MVA.get_bss_model] (lines 1185-1208) of a signal that is not lazy. *)
Definition get_decomposition_model (components : components_arg)
  (self : Signal) : Signal * result matrix :=
  _calculate_recmatrix components Decomposition self.

Definition get_bss_model (components : components_arg) (self : Signal)
  : Signal * result matrix :=
  _calculate_recmatrix components Bss self.

(** ** The cumulative explained variance *)

Fixpoint cumsum_from (acc : float) (v : vector) : vector :=
  match v with
  | [] => []
  | x :: v' => fadd acc x :: cumsum_from (fadd acc x) v'
  end.

(** [np.cumsum] *)
Definition cumsum (v : vector) : vector :=
  match v with
  | [] => []
  | x :: v' => x :: cumsum_from x v'
  end.

(** [MVA.plot_cumulative_explained_variance_ratio] (lines 1487-1516): the
    points handed to [ax.scatter], which refuses abscissae and ordinates
    of different sizes. *)
Definition plot_cumulative_explained_variance_ratio (n : Z) (self : Signal)
  : result (list (Z * float)) :=
  let target := learning_results self in
  match explained_variance target with
  | None => Raise (no_attribute "'shape'")
  | Some ev =>
      let n := if (Z.of_nat (length ev) <? n)%Z
               then Z.of_nat (length ev) else n in
      let cumu := map (fun x => fdiv x (np_sum ev)) (cumsum ev) in
      let x := arange n in
      let y := py_slice_to n cumu in
      if (length x =? length y)%nat
      then Ok (combine x y)
      else Raise (E_numpy ValueError "x and y must be the same size")
  end.

(** Results that hold an explained variance only. *)
Definition scree_results : LearningResults :=
  {| factors := None; loadings := None;
     explained_variance := Some [Fin 3; Fin 1];
     explained_variance_ratio := None; number_significant_components := None;
     decomposition_algorithm := None; poissonian_noise_normalized := None;
     output_dimension := None; mean := None; centre := None;
     bss_algorithm := None; unmixing_matrix := None; bss_factors := None;
     bss_loadings := None; unfolded := None; original_shape := None;
     navigation_mask := None; signal_mask := None;
     on_loadings := None; bss_node := None |}.

(** ** Saved results *)

(** The values that an archive of results holds: Python scalars and
    arrays with at least one axis. *)
Inductive scalar :=
| SBool (b : bool) | SInt (z : Z) | SFloat (x : float) | SStr (s : string).

Record ndarray := {
  first_axis : nat;
  other_axes : list nat;
  items : list scalar
}.

Inductive pyvalue :=
| PyNone
| PyScalar (x : scalar)
| PyArray (a : ndarray).

(** An entry of the archive that [np.load] opens: an array of dtype
    object, an array without axes of another dtype, or an array with
    axes of another dtype. *)
Inductive npz_value :=
| NpObject
| NpZeroDim (x : scalar)
| NpArray (a : ndarray).

(** The attributes of a [LearningResults] object, by name. *)
Definition attrs := list (string * pyvalue).

Fixpoint getattr (k : string) (d : attrs) : option pyvalue :=
  match d with
  | [] => None
  | (k', v) :: d' => if String.eqb k k' then Some v else getattr k d'
  end.

Definition hasattr (k : string) (d : attrs) : bool :=
  match getattr k d with Some _ => true | None => false end.

Definition delattr (k : string) (d : attrs) : attrs :=
  filter (fun kv => negb (String.eqb k (fst kv))) d.

Definition setattr (k : string) (v : pyvalue) (d : attrs) : attrs :=
  (k, v) :: delattr k d.

(** [self.<name>] *)
Definition attribute (k : string) (d : attrs) : result pyvalue :=
  match getattr k d with
  | Some v => Ok v
  | None =>
      Raise (E_numpy AttributeError
               ("'LearningResults' object has no attribute " ++ k))
  end.

Definition len (v : pyvalue) : result nat :=
  match v with
  | PyArray a => Ok (first_axis a)
  | PyScalar (SStr s) => Ok (String.length s)
  | _ => Raise (E_numpy TypeError "object has no len()")
  end.

Definition nl : string := String (Ascii.ascii_of_nat 10) EmptyString.

Section Summary.

(** Python's [str]. *)
Variable str : pyvalue -> string.

(** [LearningResults.summary] (lines 1786-1820). *)
Definition summary (self : attrs) : result string :=
  (p <- attribute "poissonian_noise_normalized" self ;;
   a <- attribute "decomposition_algorithm" self ;;
   o <- attribute "output_dimension" self ;;
   c <- attribute "centre" self ;;
   let summary_str :=
     ("Decomposition parameters" ++ nl ++
      "------------------------" ++ nl ++
      "normalize_poissonian_noise=" ++ str p ++ nl ++
      "algorithm=" ++ str a ++ nl ++
      "output_dimension=" ++ str o ++ nl ++
      "centre=" ++ str c)%string in
   b <- attribute "bss_algorithm" self ;;
   match b with
   | PyNone => Ok summary_str
   | _ =>
       w <- attribute "unmixing_matrix" self ;;
       n <- len w ;;
       Ok (summary_str ++ nl ++ nl ++
           "Demixing parameters" ++ nl ++
           "-------------------" ++ nl ++
           "algorithm=" ++ str b ++ nl ++
           "n_components=" ++ str (PyScalar (SInt (Z.of_nat n))))%string
   end)%py.

(** The loop of [load] over the entries of the archive (lines
    1733-1739). *)
Definition load_entry (self : attrs) (entry : string * npz_value) : attrs :=
  let value :=
    match snd entry with
    | NpObject => PyNone
    | NpZeroDim x => PyScalar x
    | NpArray a => PyArray a
    end in
  setattr (fst entry) value self.

(** The names of older versions (lines 1743-1777): most are moved to
    their present name, two are dropped. *)
Inductive compat_step :=
| Rename (old new : string)
| Drop (old : string).

Definition compat_steps : list compat_step :=
  [Rename "algorithm" "decomposition_algorithm";
   Rename "V" "explained_variance";
   Rename "w" "unmixing_matrix";
   Drop "variance2one";
   Drop "centered";
   Rename "pca_algorithm" "decomposition_algorithm";
   Rename "ica_algorithm" "bss_algorithm";
   Rename "v" "loadings";
   Rename "scores" "loadings";
   Rename "pc" "loadings";
   Rename "ica_scores" "bss_loadings";
   Rename "ica_factors" "bss_factors"].

Definition compat (self : attrs) (step : compat_step) : attrs :=
  match step with
  | Rename old new =>
      match getattr old self with
      | Some v => delattr old (setattr new v self)
      | None => self
      end
  | Drop old => if hasattr old self then delattr old self else self
  end.

(** [LearningResults.load] (lines 1722-1780) on the archive that
    [np.load] has opened.  An entry called [summary] hides the method. *)
Definition load (archive : list (string * npz_value)) (self : attrs)
  : attrs * result unit :=
  let self := fold_left load_entry archive self in
  let self := fold_left compat compat_steps self in
  (self,
   match getattr "summary" self with
   | Some _ => Raise (E_numpy TypeError "object is not callable")
   | None => (_ <- summary self ;; Ok tt)%py
   end).

End Summary.

(** What the loop over the archive leaves under a name: the last entry
    of that name, or else the attribute of before. *)
Definition stored (k : string) (archive : list (string * npz_value))
  (self : attrs) : option pyvalue :=
  match find (fun entry => String.eqb k (fst entry)) (rev archive) with
  | Some (_, NpObject) => Some PyNone
  | Some (_, NpZeroDim x) => Some (PyScalar x)
  | Some (_, NpArray a) => Some (PyArray a)
  | None => getattr k self
  end.

Definition first_of (l : list (option pyvalue)) : option pyvalue :=
  fold_right (fun x rest => match x with Some v => Some v | None => rest end)
             None l.

Definition legacy_names : list string :=
  ["algorithm"; "V"; "w"; "variance2one"; "centered"; "pca_algorithm";
   "ica_algorithm"; "v"; "scores"; "pc"; "ica_scores"; "ica_factors"]%string.

Definition renamed_to : list string :=
  ["decomposition_algorithm"; "explained_variance"; "unmixing_matrix";
   "bss_algorithm"; "loadings"; "bss_loadings"; "bss_factors"]%string.

(** An archive of an older version, and the attributes of a new object. *)
Definition new_results : attrs :=
  map (fun k => (k, PyNone))
    ["factors"; "loadings"; "explained_variance"; "explained_variance_ratio";
     "number_significant_components"; "decomposition_algorithm";
     "poissonian_noise_normalized"; "output_dimension"; "mean"; "centre";
     "bss_algorithm"; "unmixing_matrix"; "bss_factors"; "bss_loadings";
     "unfolded"; "original_shape"; "navigation_mask"; "signal_mask"]%string.

Definition old_archive : list (string * npz_value) :=
  [("pc", NpArray {| first_axis := 2%nat; other_axes := [1%nat];
                     items := [SFloat (Fin 1); SFloat (Fin 2)] |});
   ("v", NpArray {| first_axis := 1%nat; other_axes := [1%nat];
                    items := [SFloat (Fin 3)] |});
   ("pca_algorithm", NpZeroDim (SStr "svd"));
   ("output_dimension", NpObject)]%string.

(** ** Facts about the numeric layer *)

Lemma Rltb_true (x y : R) : x < y -> Rltb x y = true.
Proof. intros H; unfold Rltb; destruct (Rlt_dec x y); [reflexivity | contradiction]. Qed.

Lemma Rltb_false (x y : R) : ~ x < y -> Rltb x y = false.
Proof. intros H; unfold Rltb; destruct (Rlt_dec x y); [contradiction | reflexivity]. Qed.

Lemma Rleb_true (x y : R) : x <= y -> Rleb x y = true.
Proof. intros H; unfold Rleb; destruct (Rle_dec x y); [reflexivity | contradiction]. Qed.

Lemma Rleb_false (x y : R) : ~ x <= y -> Rleb x y = false.
Proof. intros H; unfold Rleb; destruct (Rle_dec x y); [contradiction | reflexivity]. Qed.

Lemma Reqb_true (x y : R) : x = y -> Reqb x y = true.
Proof. intros H; unfold Reqb; destruct (Req_dec_T x y); [reflexivity | contradiction]. Qed.

Lemma Reqb_false (x y : R) : x <> y -> Reqb x y = false.
Proof. intros H; unfold Reqb; destruct (Req_dec_T x y); [contradiction | reflexivity]. Qed.

(** Decides the comparisons of real constants left in the goal. *)
Ltac decide_reals :=
  repeat match goal with
    | |- context [Rltb ?a ?b] =>
        first [ rewrite (@Rltb_true a b) by lra
              | rewrite (@Rltb_false a b) by lra ]
    | |- context [Rleb ?a ?b] =>
        first [ rewrite (@Rleb_true a b) by lra
              | rewrite (@Rleb_false a b) by lra ]
    | |- context [Reqb ?a ?b] =>
        first [ rewrite (@Reqb_true a b) by lra
              | rewrite (@Reqb_false a b) by lra ]
    end.

Lemma Rltb_spec (x y : R) : Rltb x y = true <-> x < y.
Proof. unfold Rltb; destruct (Rlt_dec x y); split; congruence || auto. Qed.

Lemma Rleb_spec (x y : R) : Rleb x y = true <-> x <= y.
Proof. unfold Rleb; destruct (Rle_dec x y); split; congruence || auto. Qed.

Lemma Reqb_spec (x y : R) : Reqb x y = true <-> x = y.
Proof. unfold Reqb; destruct (Req_dec_T x y); split; congruence || auto. Qed.

Lemma nan_to_num_not_nan (x : float) : isnan (nan_to_num x) = false.
Proof. destruct x; reflexivity. Qed.

Lemma fadd_Fin (a b : R) : fadd (Fin a) (Fin b) = Fin (a + b).
Proof. reflexivity. Qed.

Lemma fsub_Fin (a b : R) : fsub (Fin a) (Fin b) = Fin (a - b).
Proof. reflexivity. Qed.

Lemma fmul_Fin (a b : R) : fmul (Fin a) (Fin b) = Fin (a * b).
Proof. reflexivity. Qed.

Lemma fabs_Fin (a : R) : fabs (Fin a) = Fin (Rabs a).
Proof. reflexivity. Qed.

Lemma fsqrt_Fin (a : R) : 0 <= a -> fsqrt (Fin a) = Fin (sqrt a).
Proof. intros H. simpl. rewrite Rltb_false by lra. reflexivity. Qed.

Lemma fdiv_Fin (a b : R) : b <> 0 -> fdiv (Fin a) (Fin b) = Fin (a / b).
Proof.
  intros H. simpl. destruct (Reqb b 0) eqn:E; [apply Reqb_spec in E; contradiction|].
  reflexivity.
Qed.

(** A total preorder on floats without NaN. *)
Lemma fltb_fleb_total (x y : float) :
  isnan x = false -> isnan y = false -> fltb x y = false -> fleb y x = true.
Proof.
  destruct x, y; simpl; try congruence; intros _ _.
  unfold Rltb, Rleb. destruct (Rlt_dec r r0); [congruence|].
  intros _. destruct (Rle_dec r0 r); [reflexivity | lra].
Qed.

Lemma fltb_fleb (x y : float) : fltb x y = true -> fleb x y = true.
Proof.
  destruct x, y; simpl; try congruence.
  rewrite Rltb_spec, Rleb_spec; lra.
Qed.

Lemma fleb_refl (x : float) : isnan x = false -> fleb x x = true.
Proof. destruct x; simpl; try congruence. intros _; apply Rleb_spec; lra. Qed.

Lemma fleb_trans (x y z : float) :
  fleb x y = true -> fleb y z = true -> fleb x z = true.
Proof.
  destruct x, y, z; simpl; try congruence.
  rewrite !Rleb_spec; lra.
Qed.

Lemma fltb_fleb_trans (x y z : float) :
  fltb x y = true -> fleb y z = true -> fltb x z = true.
Proof.
  destruct x, y, z; simpl; try congruence.
  rewrite !Rltb_spec, Rleb_spec; lra.
Qed.

Lemma fleb_fltb_trans (x y z : float) :
  fleb x y = true -> fltb y z = true -> fltb x z = true.
Proof.
  destruct x, y, z; simpl; try congruence.
  rewrite !Rltb_spec, Rleb_spec; lra.
Qed.

(** [np.argmax] on an array without NaN returns the first index of a
    maximal entry. *)
Lemma argmax_from_first (v p : vector) (best : float) (bi : nat) :
  no_nan (p ++ v) ->
  (bi < length p)%nat ->
  nth bi p NaN = best ->
  (forall j, (j < length p)%nat -> fleb (nth j p NaN) best = true) ->
  (forall j, (j < bi)%nat -> fltb (nth j p NaN) best = true) ->
  let k := argmax_from best bi (length p) v in
  (k < length (p ++ v))%nat /\
  (forall j, (j < length (p ++ v))%nat ->
             fleb (nth j (p ++ v) NaN) (nth k (p ++ v) NaN) = true) /\
  (forall j, (j < k)%nat ->
             fltb (nth j (p ++ v) NaN) (nth k (p ++ v) NaN) = true).
Proof.
  revert p best bi. induction v as [|x v IH]; intros p best bi Hnn Hbi Hb Hle Hlt.
  - simpl. rewrite app_nil_r. subst best. auto.
  - assert (Hbest : isnan best = false).
    { subst best. unfold no_nan in Hnn. rewrite Forall_forall in Hnn.
      apply Hnn. apply in_or_app. left. apply nth_In. exact Hbi. }
    assert (Hx : isnan x = false).
    { unfold no_nan in Hnn. rewrite Forall_forall in Hnn.
      apply Hnn. apply in_or_app. right. left. reflexivity. }
    simpl. rewrite Hbest, Hx. simpl.
    assert (Hpx : p ++ x :: v = (p ++ [x]) ++ v) by (rewrite <- app_assoc; reflexivity).
    assert (Hlen : S (length p) = length (p ++ [x])) by (rewrite length_app; simpl; lia).
    destruct (fltb best x) eqn:Hcmp.
    + rewrite Hpx, Hlen. apply IH.
      * rewrite <- Hpx. exact Hnn.
      * rewrite length_app; simpl; lia.
      * rewrite app_nth2, Nat.sub_diag by lia. reflexivity.
      * intros j Hj. rewrite length_app in Hj; simpl in Hj.
        destruct (Nat.eq_dec j (length p)) as [->|Hne].
        -- rewrite app_nth2, Nat.sub_diag by lia. simpl. apply fleb_refl, Hx.
        -- rewrite app_nth1 by lia. apply fleb_trans with best; [apply Hle; lia|].
           apply fltb_fleb, Hcmp.
      * intros j Hj. rewrite app_nth1 by lia.
        apply fleb_fltb_trans with best; [apply Hle; lia | exact Hcmp].
    + rewrite Hpx, Hlen. apply IH.
      * rewrite <- Hpx. exact Hnn.
      * rewrite length_app; simpl; lia.
      * rewrite app_nth1 by lia. exact Hb.
      * intros j Hj. rewrite length_app in Hj; simpl in Hj.
        destruct (Nat.eq_dec j (length p)) as [->|Hne].
        -- rewrite app_nth2, Nat.sub_diag by lia. simpl.
           apply fltb_fleb_total; assumption.
        -- rewrite app_nth1 by lia. apply Hle; lia.
      * intros j Hj. rewrite app_nth1 by lia. apply Hlt, Hj.
Qed.

(** ** Facts about arrays *)

Lemma py_index_nth {A} (a : list A) (i : Z) (d : A) :
  (0 <= i < Z.of_nat (length a))%Z ->
  py_index a i = Ok (nth (Z.to_nat i) a d).
Proof.
  intros H. unfold py_index.
  destruct (i <? 0)%Z eqn:Hneg; [apply Z.ltb_lt in Hneg; lia|].
  destruct (i <? 0)%Z eqn:H0; [discriminate|].
  destruct (Z.of_nat (length a) <=? i)%Z eqn:H1; [apply Z.leb_le in H1; lia|].
  simpl.
  destruct (nth_error a (Z.to_nat i)) eqn:Hn.
  - f_equal. symmetry. apply nth_error_nth. exact Hn.
  - apply nth_error_None in Hn. lia.
Qed.

Lemma firstn_seq_nth {A} (d : A) (l : list A) (n : nat) :
  (n <= length l)%nat ->
  firstn n l = map (fun i => nth i l d) (seq 0 n).
Proof.
  revert n. induction l as [|x l IH]; intros n Hn.
  - simpl in Hn. assert (n = 0%nat) by lia. subst. reflexivity.
  - destruct n as [|n]; [reflexivity|].
    simpl. f_equal. rewrite <- seq_shift, map_map. apply IH. simpl in Hn. lia.
Qed.

Lemma combine_map_seq {A B} (f : nat -> A) (g : nat -> B) (l : list nat) :
  combine (map f l) (map g l) = map (fun i => (f i, g i)) l.
Proof. induction l; simpl; congruence. Qed.

(** ** The elbow estimate *)

Lemma elbow_distance_list (curve : vector) (max_points : Z) :
  (2 <= length curve)%nat ->
  (1 <= max_points)%Z ->
  let mp := Z.to_nat (Z.min max_points (Z.of_nat (length curve) - 1)) in
  elbow_of_curve curve max_points
  = np_argmax (map (elbow_distance curve mp) (seq 0 mp)).
Proof.
  intros Hlen Hmp mp. unfold elbow_of_curve.
  set (m := Z.min max_points (Z.of_nat (length curve) - 1)) in *.
  assert (Hm : (1 <= m <= Z.of_nat (length curve) - 1)%Z) by (subst m; lia).
  set (adj := map (clip_below (Fin 1e-30)) curve).
  assert (Hadj : length adj = length curve) by (subst adj; apply length_map).
  rewrite (py_index_nth adj (i := 0) NaN) by lia.
  rewrite (py_index_nth adj (i := m) NaN) by lia.
  cbn [bind]. fold mp.
  assert (Hnth : forall i, (i < length curve)%nat ->
                           flog (nth i adj NaN) = elbow_y curve i).
  { intros i Hi. unfold elbow_y, adj.
    rewrite (nth_indep _ NaN (clip_below (Fin 1e-30) NaN))
      by (rewrite length_map; exact Hi).
    rewrite map_nth. reflexivity. }
  change (Z.to_nat 0) with 0%nat.
  rewrite !Hnth by lia.
  unfold py_slice_to, arange.
  destruct (m <? 0)%Z eqn:Hneg; [apply Z.ltb_lt in Hneg; lia|].
  fold mp.
  rewrite (firstn_seq_nth NaN) by lia.
  rewrite !map_map. unfold broadcast2. rewrite !length_map, Nat.eqb_refl.
  cbn [bind]. f_equal.
  rewrite (combine_map_seq
             (fun i => fmul (of_Z (m - 0)) (fsub (elbow_y curve 0) (flog (nth i adj NaN))))
             (fun i => fmul (of_Z (0 - Z.of_nat i)) (fsub (elbow_y curve mp) (elbow_y curve 0)))).
  rewrite !map_map.
  apply map_ext_in. intros i Hi. apply in_seq in Hi.
  cbn [fst snd]. unfold elbow_distance.
  rewrite Hnth by lia.
  replace (Z.of_nat mp) with m by (subst mp; lia).
  reflexivity.
Qed.

Lemma np_argmax_first (v : vector) :
  no_nan v -> v <> [] ->
  exists k, np_argmax v = Ok k /\ (k < length v)%nat /\
    (forall j, (j < length v)%nat -> fleb (nth j v NaN) (nth k v NaN) = true) /\
    (forall j, (j < k)%nat -> fltb (nth j v NaN) (nth k v NaN) = true).
Proof.
  intros Hnn Hne. destruct v as [|x v]; [congruence|].
  exists (argmax_from x 0 1 v). split; [reflexivity|].
  apply (argmax_from_first v [x] (best := x) (bi := 0)).
  - exact Hnn.
  - simpl; lia.
  - reflexivity.
  - intros j Hj. simpl in Hj. assert (j = 0%nat) by lia. subst j. simpl.
    apply fleb_refl. inversion Hnn; assumption.
  - intros j Hj. lia.
Qed.

Lemma elbow_of_curve_first_max (curve : vector) (max_points : Z) :
  (2 <= length curve)%nat ->
  (1 <= max_points)%Z ->
  let mp := Z.to_nat (Z.min max_points (Z.of_nat (length curve) - 1)) in
  exists k, elbow_of_curve curve max_points = Ok k /\ (k < mp)%nat /\
    (forall j, (j < mp)%nat ->
       fleb (elbow_distance curve mp j) (elbow_distance curve mp k) = true) /\
    (forall j, (j < k)%nat ->
       fltb (elbow_distance curve mp j) (elbow_distance curve mp k) = true).
Proof.
  intros Hlen Hmp mp.
  pose proof (elbow_distance_list curve Hlen Hmp) as Heq. cbv zeta in Heq. fold mp in Heq.
  assert (Hpos : (1 <= mp)%nat) by (subst mp; lia).
  destruct (np_argmax_first (v := map (elbow_distance curve mp) (seq 0 mp)))
    as (k & Hk & Hlt & Hmax & Hfirst).
  - apply Forall_forall. intros x Hx. apply in_map_iff in Hx.
    destruct Hx as (i & <- & _). apply nan_to_num_not_nan.
  - destruct mp; [lia|]. simpl. discriminate.
  - rewrite length_map, length_seq in *.
    assert (Hget : forall j, (j < mp)%nat ->
              nth j (map (elbow_distance curve mp) (seq 0 mp)) NaN
              = elbow_distance curve mp j).
    { intros j Hj.
      rewrite (nth_indep _ NaN (elbow_distance curve mp 0))
        by (rewrite length_map, length_seq; exact Hj).
      rewrite map_nth, seq_nth by exact Hj. reflexivity. }
    exists k. rewrite Heq. split; [exact Hk|]. split; [exact Hlt|]. split.
    + intros j Hj. rewrite <- (Hget j Hj), <- (Hget k Hlt). apply Hmax, Hj.
    + intros j Hj. rewrite <- (Hget j), <- (Hget k Hlt) by lia. apply Hfirst, Hj.
Qed.

Lemma ln_div (a b : R) : 0 < a -> 0 < b -> ln (a / b) = ln a - ln b.
Proof.
  intros Ha Hb. unfold Rdiv.
  rewrite ln_mult by (auto using Rinv_0_lt_compat).
  rewrite ln_Rinv by assumption. lra.
Qed.

Lemma elbow_y_fin (curve : vector) (i : nat) (r : R) :
  nth i curve NaN = Fin r -> 1e-30 < r -> elbow_y curve i = Fin (ln r).
Proof.
  intros Hn Hr. unfold elbow_y, clip_below, fmaximum. rewrite Hn. simpl.
  rewrite Rltb_false by lra. simpl.
  rewrite Rltb_false by lra.
  destruct (Reqb r 0) eqn:E; [apply Reqb_spec in E; lra | reflexivity].
Qed.

(** The distances on the sample curve of the specification, with
    [max_points = 5]: each is [|ln q| / d] for a rational [q]. *)
Lemma example_distance (i : nat) (r : R) :
  nth i curve_example NaN = Fin r -> 1e-30 < r ->
  elbow_distance curve_example 5 i
  = Fin (Rabs (ln (0.07 ^ i / r ^ 5)) / sqrt (25 + ln 0.07 * ln 0.07)).
Proof.
  intros Hn Hr. unfold elbow_distance.
  rewrite (elbow_y_fin curve_example i Hn Hr).
  rewrite (elbow_y_fin curve_example 0 (r := 1)) by (reflexivity || lra).
  rewrite (elbow_y_fin curve_example 5 (r := 0.07)) by (reflexivity || lra).
  rewrite ln_1. unfold of_Z. cbv zeta.
  rewrite !fsub_Fin, !fmul_Fin, fsub_Fin, fadd_Fin, fabs_Fin.
  assert (Hs : 0 < 25 + ln 0.07 * ln 0.07) by nra.
  replace (IZR (Z.of_nat 5 - 0) * (0 - ln r) - IZR (0 - Z.of_nat i) * (ln 0.07 - 0))
    with (ln (0.07 ^ i / r ^ 5)).
  2:{ rewrite ln_div by (apply pow_lt; lra).
      rewrite !ln_pow by lra. rewrite (minus_IZR 0), <- INR_IZR_INZ.
      change (IZR (Z.of_nat 5 - 0)) with 5. change (INR 5) with (1 + 1 + 1 + 1 + 1).
      lra. }
  replace (IZR ((Z.of_nat 5 - 0) ^ 2) + (ln 0.07 - 0) * (ln 0.07 - 0))
    with (25 + ln 0.07 * ln 0.07)
    by (change (IZR ((Z.of_nat 5 - 0) ^ 2)) with 25; lra).
  rewrite fsqrt_Fin by lra.
  rewrite fdiv_Fin by (pose proof (sqrt_lt_R0 _ Hs); lra).
  reflexivity.
Qed.

Lemma elbow_example : elbow_of_curve curve_example 5 = Ok 2%nat.
Proof.
  destruct (elbow_of_curve_first_max curve_example (max_points := 5))
    as (k & Hk & Hlt & Hmax & _).
  - simpl; lia.
  - lia.
  - rewrite Hk. f_equal.
    change (Z.to_nat (Z.min 5 (Z.of_nat (length curve_example) - 1))) with 5%nat in *.
    specialize (Hmax 2%nat ltac:(lia)).
    assert (Hd : 0 < sqrt (25 + ln 0.07 * ln 0.07)) by (apply sqrt_lt_R0; nra).
    assert (H2 : elbow_distance curve_example 5 2
                 = Fin (ln 490 / sqrt (25 + ln 0.07 * ln 0.07))).
    { rewrite (example_distance 2 (r := 0.1)) by (reflexivity || lra).
      replace (0.07 ^ 2 / 0.1 ^ 5) with 490 by lra.
      rewrite Rabs_pos_eq; [reflexivity|].
      rewrite <- ln_1. left. apply ln_increasing; lra. }
    assert (Hsmall : forall (i : nat) (r q : R),
               nth i curve_example NaN = Fin r -> 1e-30 < r ->
               0.07 ^ i / r ^ 5 = q -> 1 <= q < 490 ->
               fleb (elbow_distance curve_example 5 2)
                    (elbow_distance curve_example 5 i) = false).
    { intros i r q Hn Hr Hq Hq1. rewrite H2, (example_distance i Hn Hr), Hq.
      simpl. unfold Rleb.
      destruct (Rle_dec _ _) as [Hle|]; [|reflexivity]. exfalso.
      assert (Hq0 : 0 <= ln q).
      { rewrite <- ln_1. destruct (Req_dec q 1) as [->|]; [lra|].
        left. apply ln_increasing; lra. }
      rewrite Rabs_pos_eq in Hle by exact Hq0.
      assert (ln q < ln 490) by (apply ln_increasing; lra).
      apply Rmult_le_compat_r with (r := sqrt (25 + ln 0.07 * ln 0.07)) in Hle; [|lra].
      unfold Rdiv in Hle. rewrite !Rmult_assoc, Rinv_l in Hle by lra. lra. }
    destruct k as [|[|[|[|[|k]]]]]; try lia; try reflexivity; exfalso.
    + rewrite (Hsmall 0%nat 1 1) in Hmax by (reflexivity || lra). discriminate.
    + rewrite (Hsmall 1%nat 0.5 (56 / 25)) in Hmax by (reflexivity || lra). discriminate.
    + rewrite (Hsmall 3%nat 0.09 (0.07 ^ 3 / 0.09 ^ 5)) in Hmax by (reflexivity || lra).
      discriminate.
    + rewrite (Hsmall 4%nat 0.08 (0.07 ^ 4 / 0.08 ^ 5)) in Hmax by (reflexivity || lra).
      discriminate.
Qed.

Lemma float_max_pos : 0 < float_max.
Proof.
  unfold float_max. apply Rmult_lt_0_compat.
  - assert (H : / 2 ^ 52 <= 1).
    { rewrite <- Rinv_1. apply Rinv_le_contravar; [lra|].
      apply pow_R1_Rle. lra. }
    lra.
  - apply pow_lt. lra.
Qed.

(** On [curve_with_inf] with [max_points = 2] the second distance is
    infinite; [np.nan_to_num] makes it the largest double, and the
    maximum is there. *)
Lemma distances_with_inf :
  elbow_distance curve_with_inf 2 0 = Fin 0 /\
  elbow_distance curve_with_inf 2 1 = Fin float_max.
Proof.
  assert (Hy0 : elbow_y curve_with_inf 0 = Fin (ln 1))
    by (apply elbow_y_fin; [reflexivity | lra]).
  assert (Hy2 : elbow_y curve_with_inf 2 = Fin (ln 1))
    by (apply elbow_y_fin; [reflexivity | lra]).
  assert (Hy1 : elbow_y curve_with_inf 1 = PInf) by reflexivity.
  assert (Hden : fsqrt (fadd (of_Z ((Z.of_nat 2 - 0) ^ 2))
                          (fmul (fsub (Fin (ln 1)) (Fin (ln 1)))
                                (fsub (Fin (ln 1)) (Fin (ln 1)))))
                 = Fin (sqrt 4)).
  { unfold of_Z. rewrite fsub_Fin, fmul_Fin, fadd_Fin.
    change (IZR ((Z.of_nat 2 - 0) ^ 2)) with 4.
    rewrite fsqrt_Fin by nra. f_equal. f_equal. lra. }
  assert (Hs : 0 < sqrt 4) by (apply sqrt_lt_R0; lra).
  split.
  - unfold elbow_distance. cbv zeta. rewrite Hy0, Hy2, Hden.
    unfold of_Z. rewrite !fsub_Fin, !fmul_Fin, fsub_Fin, fabs_Fin.
    rewrite fdiv_Fin by lra. simpl. f_equal.
    replace (2 * (ln 1 - ln 1) - 0 * (ln 1 - ln 1)) with 0 by lra.
    rewrite Rabs_R0. lra.
  - unfold elbow_distance. cbv zeta. rewrite Hy0, Hy2, Hy1, Hden.
    unfold of_Z. change (IZR (Z.of_nat 2 - 0)) with 2.
    cbn [fsub fneg fadd fmul]. unfold inf_of_sign.
    rewrite (@Rltb_false 0 (Ropp 2)) by lra.
    rewrite (@Rltb_true (Ropp 2) 0) by lra.
    cbn [fsub fneg fadd fabs fdiv].
    rewrite (@Rltb_false (sqrt 4) 0) by lra. reflexivity.
Qed.

Lemma elbow_with_inf : elbow_of_curve curve_with_inf 2 = Ok 1%nat.
Proof.
  rewrite elbow_distance_list by (simpl; lia).
  change (Z.to_nat (Z.min 2 (Z.of_nat (length curve_with_inf) - 1))) with 2%nat.
  cbn [seq map]. destruct distances_with_inf as [-> ->].
  unfold np_argmax. cbn [argmax_from isnan orb].
  unfold fltb. rewrite Rltb_true by apply float_max_pos. reflexivity.
Qed.


(** ** The state monad *)

Lemma bindM_ok {S A C} (m : M S A) (k : A -> M S C) (s s' : S) (c : C) :
  bindM m k s = (s', Ok c) ->
  exists s1 a, m s = (s1, Ok a) /\ k a s1 = (s', Ok c).
Proof.
  unfold bindM. destruct (m s) as [s1 [a|e]]; intros H.
  - exists s1, a. auto.
  - discriminate.
Qed.

Lemma preserves_ret {S A} (P : S -> Prop) (a : A) : preserves P (ret a).
Proof. intros s s' r HP H. inversion H; subst; exact HP. Qed.

Lemma preserves_lift {S A} (P : S -> Prop) (x : result A) :
  preserves P (lift x).
Proof. intros s s' r HP H. inversion H; subst; exact HP. Qed.

Lemma preserves_get {S} (P : S -> Prop) : preserves P get.
Proof. intros s s' r HP H. inversion H; subst; exact HP. Qed.

Lemma preserves_modify {S} (P : S -> Prop) (f : S -> S) :
  (forall s, P s -> P (f s)) -> preserves P (modify f).
Proof. intros Hf s s' r HP H. inversion H; subst; auto. Qed.

Lemma preserves_update (P : LearningResults -> Prop)
  (f : LearningResults -> result LearningResults) :
  (forall t t', P t -> f t = Ok t' -> P t') -> preserves P (update f).
Proof.
  intros Hf s s' r HP H. unfold update in H.
  destruct (f s) eqn:E; inversion H; subst; eauto.
Qed.

Lemma preserves_bind {S A C} (P : S -> Prop) (m : M S A) (k : A -> M S C) :
  preserves P m -> (forall a, preserves P (k a)) -> preserves P (bindM m k).
Proof.
  intros Hm Hk s s' r HP H. unfold bindM in H.
  destruct (m s) as [s1 [a|e]] eqn:E.
  - eapply Hk; [eapply Hm; eauto | exact H].
  - inversion H; subst. eapply Hm; eauto.
Qed.

Lemma preserves_when {S} (P : S -> Prop) (b : bool) (m : M S unit) :
  preserves P m -> preserves P (when b m).
Proof. intros Hm. destruct b; [exact Hm | apply preserves_ret]. Qed.

(** Breaks a chain of steps into its steps. *)
Ltac preserves_steps :=
  repeat first
    [ apply preserves_ret | apply preserves_lift | apply preserves_get
    | apply preserves_when
    | apply preserves_bind; [| intros ?]
    | match goal with
      | |- preserves _ (match ?x with _ => _ end) => destruct x
      | |- preserves _ (if ?x then _ else _) => destruct x
      end ].

(** A step of the shape [x <- r ;; Ok (set ... target)] keeps whatever
    the setter keeps. *)
Lemma bind_ok {A C} (m : result A) (k : A -> result C) (c : C) :
  bind m k = Ok c -> exists a, m = Ok a /\ k a = Ok c.
Proof. destruct m; simpl; intros H; [eauto | discriminate]. Qed.

(** ** The stages of decomposition *)

(** Takes apart a hypothesis that a computation in the error monad
    returned normally. *)
Ltac invert_ok :=
  repeat match goal with
    | H : Ok _ = Ok _ |- _ => inversion H; subst; clear H
    | H : Raise _ = Ok _ |- _ => discriminate H
    | H : bind _ _ = Ok _ |- _ =>
        let a := fresh "a" in
        let Ha := fresh "Ha" in
        apply bind_ok in H; destruct H as (a & Ha & H)
    | H : (match ?x with _ => _ end) = Ok _ |- _ =>
        let E := fresh "E" in destruct x eqn:E
    end.

(** Proves [preserves P m] for a chain [m] of the steps of
    [store_results], when [P] only reads attributes that the steps copy. *)
Ltac preserves_fields P :=
  preserves_steps;
  first
    [ apply preserves_modify;
      let t := fresh "t" in
      let Ht := fresh "Ht" in
      intros t Ht; unfold P in *; simpl; exact Ht
    | apply preserves_update;
      let t := fresh "t" in
      let t' := fresh "t'" in
      let Ht := fresh "Ht" in
      let Hf := fresh "Hf" in
      intros t t' Ht Hf;
      unfold crop_decomposition_dimension in *;
      invert_ok; unfold P in *; simpl; exact Ht ].

Section DecompositionFacts.

Variable B : Backends.

Lemma store_fit_bss_null self algorithm npn od fo ratio significant :
  preserves bss_block_null (store_fit self algorithm npn od fo ratio significant).
Proof.
  unfold store_fit. preserves_steps.
  - apply preserves_modify. intros t Ht. exact Ht.
  - apply preserves_update. intros t t' Ht Hf.
    unfold crop_decomposition_dimension in Hf. invert_ok. exact Ht.
  - apply preserves_modify. intros t (H1 & H2 & H3 & H4).
    unfold bss_block_null; simpl; auto.
  - apply preserves_modify. intros t (H1 & H2 & H3 & H4).
    unfold bss_block_null; simpl; auto.
  - apply preserves_modify. intros t Ht. exact Ht.
Qed.

Lemma reproject_results_bss_null dc sk estim reproject sm nm fo :
  preserves bss_block_null (reproject_results B dc sk estim reproject sm nm fo).
Proof. unfold reproject_results. preserves_fields bss_block_null. Qed.

Lemma rescale_results_bss_null self :
  preserves bss_block_null (rescale_results self).
Proof. unfold rescale_results. preserves_fields bss_block_null. Qed.

Lemma store_signal_mask_bss_null self dc reproject sm :
  preserves bss_block_null (store_signal_mask self dc reproject sm).
Proof. unfold store_signal_mask. preserves_fields bss_block_null. Qed.

Lemma store_navigation_mask_bss_null self dc reproject nm :
  preserves bss_block_null (store_navigation_mask self dc reproject nm).
Proof. unfold store_navigation_mask. preserves_fields bss_block_null. Qed.

Lemma store_results_bss_null p a self dc sm nm fo ratio significant :
  preserves bss_block_null
    (store_results B p a self dc sm nm fo ratio significant).
Proof.
  unfold store_results.
  apply preserves_bind; [apply store_fit_bss_null | intros _].
  apply preserves_bind; [apply reproject_results_bss_null | intros r].
  apply preserves_bind;
    [apply preserves_when, rescale_results_bss_null | intros _].
  apply preserves_bind; [apply store_signal_mask_bss_null | intros _].
  apply store_navigation_mask_bss_null.
Qed.

Lemma same_frame_refl (s : Signal) : same_frame s s.
Proof. unfold same_frame; auto. Qed.

Lemma normalize_poissonian_noise_frame (s s' : Signal) nm sm r :
  normalize_poissonian_noise s nm sm = (s', r) -> same_frame s s'.
Proof.
  unfold normalize_poissonian_noise. intros H.
  repeat match type of H with
    | (match ?x with _ => _ end) = _ => destruct x
    | (if ?x then _ else _) = _ => destruct x
    end;
    inversion H; subst; unfold same_frame; simpl; auto.
Qed.

Lemma prepare_frame p a (s s' : Signal) r :
  prepare p a s = (s', r) -> same_frame s s'.
Proof.
  unfold prepare. intros H.
  destruct (effective_normalize p a).
  - destruct (Args.centre a).
    + inversion H; subst. apply same_frame_refl.
    + destruct (normalize_poissonian_noise s _ _) as [s1 [u|e]] eqn:E;
        inversion H; subst; eapply normalize_poissonian_noise_frame; eauto.
  - inversion H; subst. apply same_frame_refl.
Qed.

Lemma try_body_frame p a (s s' : Signal) target target' out :
  try_body B p a s target = (s', target', out) -> same_frame s s'.
Proof.
  unfold try_body. intros H.
  destruct (prepare p a s) as [s1 [[[[dc sm] nm] data_]|e]] eqn:E.
  - apply prepare_frame in E.
    destruct (fit_stage B p a data_) as [[[fo ratio] sig]|e].
    + destruct (store_results _ _ _ _ _ _ _ _ _ _ _) as [t [u|e]];
        inversion H; subst; exact E.
    + inversion H; subst; exact E.
  - apply prepare_frame in E. inversion H; subst; exact E.
Qed.

(** The shape of every call that gets past the checks: the [try] body
    runs on the signal that [enter] leaves and on a fresh target, and the
    [finally] clause merges the target into the stored results and, under
    [copy=True], puts the data back. *)
Lemma decomposition_after_validation a (s s' : Signal) p r :
  validate B a s = Ok p ->
  decomposition B a s = (s', r) ->
  exists s1 target out,
    try_body B p a (enter a s) LearningResults_init = (s1, target, out) /\
    learning_results s' = dict_update (learning_results s) target /\
    (Args.copy a = true -> data s' = data s /\ r = out) /\
    (Args.copy a = false -> data s' = data s1 /\ r = out) /\
    _signal_shape_in_array s1 = _signal_shape_in_array s /\
    _navigation_shape_in_array s1 = _navigation_shape_in_array s.
Proof.
  intros Hv H. unfold decomposition in H. rewrite Hv in H.
  destruct (try_body B p a (enter a s) LearningResults_init)
    as [[s1 target] out] eqn:Etry.
  pose proof (try_body_frame _ _ _ _ Etry) as (Hlr & Hsnap & _ & Hss & Hns).
  exists s1, target, out. split; [reflexivity|].
  unfold finally_clause in H.
  assert (Henter_lr : learning_results (enter a s) = learning_results s)
    by (unfold enter; destruct (Args.copy a); reflexivity).
  assert (Henter_ss : _signal_shape_in_array (enter a s) = _signal_shape_in_array s)
    by (unfold enter; destruct (Args.copy a); reflexivity).
  assert (Henter_ns : _navigation_shape_in_array (enter a s)
                      = _navigation_shape_in_array s)
    by (unfold enter; destruct (Args.copy a); reflexivity).
  rewrite Henter_lr in Hlr. rewrite Henter_ss in Hss. rewrite Henter_ns in Hns.
  destruct (Args.copy a) eqn:Ecopy.
  - assert (Hs : _data_before_treatments s1 = Some (data s)).
    { rewrite Hsnap. unfold enter. rewrite Ecopy. reflexivity. }
    unfold undo_treatments in H.
    destruct (_unfolded4decomposition s1); simpl in H; rewrite Hs in H;
      inversion H; subst; simpl; rewrite Hlr;
      repeat split; auto; discriminate.
  - destruct (_unfolded4decomposition s1); simpl in H;
      inversion H; subst; simpl; rewrite Hlr;
      repeat split; auto; discriminate.
Qed.

(** A call that returns normally went through every stage. *)
Lemma decomposition_ok_stages a (s s' : Signal) v :
  decomposition B a s = (s', Ok v) ->
  exists p s1 dc sm nm data_ fo ratio significant target,
    validate B a s = Ok p /\
    prepare p a (enter a s) = (s1, Ok (dc, sm, nm, data_)) /\
    fit_stage B p a data_ = Ok (fo, ratio, significant) /\
    store_results B p a s1 dc sm nm fo ratio significant LearningResults_init
      = (target, Ok tt) /\
    learning_results s' = dict_update (learning_results s) target /\
    v = fo_to_return fo /\
    _signal_shape_in_array s1 = _signal_shape_in_array s /\
    _navigation_shape_in_array s1 = _navigation_shape_in_array s.
Proof.
  intros H.
  destruct (validate B a s) as [p|e] eqn:Hv.
  2:{ unfold decomposition in H. rewrite Hv in H. discriminate. }
  destruct (decomposition_after_validation _ _ Hv H)
    as (s1 & target & out & Htry & Hlr & Hc1 & Hc2 & Hss & Hns).
  assert (Hout : out = Ok v).
  { destruct (Args.copy a); [destruct Hc1 | destruct Hc2]; congruence. }
  subst out. unfold try_body in Htry.
  destruct (prepare p a (enter a s)) as [s2 [[[[dc sm] nm] data_]|e]] eqn:Eprep;
    [|discriminate].
  destruct (fit_stage B p a data_) as [[[fo ratio] sig]|e] eqn:Efit;
    [|discriminate].
  destruct (store_results _ _ _ _ _ _ _ _ _ _ _) as [t [[]|e]] eqn:Estore;
    [|discriminate].
  inversion Htry; subst.
  exists p, s1, dc, sm, nm, data_, fo, ratio, sig, target.
  repeat split; auto.
Qed.

End DecompositionFacts.

(** ** The checks before the fit *)

Lemma validate_ok (B : Backends) (a : Args.t) (s : Signal) (p : prelude) :
  validate B a s = Ok p ->
  dtype_is_float s = true /\ (2 <= navigation_size s)%nat /\
  algorithm' p = renamed (Args.algorithm a) /\
  is_sklearn_like p
  = (name_in (algorithm' p) algorithms_sklearn
     || has_estimator_methods (algorithm' p)).
Proof.
  unfold validate. intros H.
  destruct (dtype_is_float s); [|discriminate].
  destruct (navigation_size s <? 2)%nat eqn:En; [discriminate|].
  apply Nat.ltb_ge in En. cbn [negb] in H. cbv zeta in H.
  split; [reflexivity|]. split; [exact En|].
  destruct (renamed (Args.algorithm a)) as [n|e] eqn:Er.
  - destruct (_ && _); [discriminate|].
    destruct (name_in (Name n) algorithms_sklearn) eqn:Esk.
    + destruct (sklearn_installed B); [|discriminate].
      inversion H; subst. cbn [algorithm' is_sklearn_like].
      rewrite Esk. auto.
    + inversion H; subst. cbn [algorithm' is_sklearn_like].
      rewrite Esk. auto.
  - destruct (has_estimator_methods (Object e)) eqn:Eh;
      inversion H; subst; cbn [algorithm' is_sklearn_like];
      rewrite Eh; auto.
Qed.

Lemma prepare_ok p a (s s1 : Signal) dc sm nm data_ :
  prepare p a s = (s1, Ok (dc, sm, nm, data_)) ->
  dc = data s1 /\
  sm = include_selector (option_map ravel (Args.signal_mask a)) /\
  nm = include_selector (option_map ravel (Args.navigation_mask a)) /\
  included_block dc sm nm = Ok data_.
Proof.
  unfold prepare. intros H.
  destruct (if effective_normalize p a then _ else _) as [s2 [u|e]];
    [|discriminate].
  destruct (included_block _ _ _) eqn:E; simpl in H; [|discriminate].
  inversion H; subst. auto.
Qed.

(** How a call ends when the fit raises. *)
Lemma decomposition_fit_raises (B : Backends) a (s s1 : Signal) p x e :
  validate B a s = Ok p ->
  prepare p a (enter a s) = (s1, Ok x) ->
  fit_stage B p a (snd x) = Raise e ->
  exists s', decomposition B a s = (s', Raise e).
Proof.
  intros Hv Hp Hf. unfold decomposition. rewrite Hv.
  unfold try_body. rewrite Hp. destruct x as [[[dc sm] nm] data_].
  simpl in Hf. rewrite Hf.
  pose proof (prepare_frame _ _ _ Hp) as (_ & Hsnap & _).
  unfold finally_clause, undo_treatments.
  destruct (Args.copy a) eqn:Ec.
  - assert (Hs : _data_before_treatments s1 = Some (data s))
      by (rewrite Hsnap; unfold enter; rewrite Ec; reflexivity).
    destruct (_unfolded4decomposition s1); simpl; rewrite Hs; eauto.
  - destruct (_unfolded4decomposition s1); simpl; eauto.
Qed.

(** ** The masks stored by decomposition *)

Section MaskFacts.

Variable B : Backends.

Lemma store_fit_masks self algorithm npn od fo ratio significant v :
  preserves (signal_mask_is v)
    (store_fit self algorithm npn od fo ratio significant) /\
  preserves (navigation_mask_is v)
    (store_fit self algorithm npn od fo ratio significant).
Proof.
  unfold store_fit. split.
  - preserves_fields signal_mask_is.
  - preserves_fields navigation_mask_is.
Qed.

Lemma reproject_results_masks dc sk estim reproject sm nm fo v :
  preserves (signal_mask_is v)
    (reproject_results B dc sk estim reproject sm nm fo) /\
  preserves (navigation_mask_is v)
    (reproject_results B dc sk estim reproject sm nm fo).
Proof.
  unfold reproject_results. split.
  - preserves_fields signal_mask_is.
  - preserves_fields navigation_mask_is.
Qed.

Lemma rescale_results_masks self v :
  preserves (signal_mask_is v) (rescale_results self) /\
  preserves (navigation_mask_is v) (rescale_results self).
Proof.
  unfold rescale_results. split.
  - preserves_fields signal_mask_is.
  - preserves_fields navigation_mask_is.
Qed.

Lemma rescale_or_not self (b : bool) v :
  preserves (signal_mask_is v) (when b (rescale_results self)) /\
  preserves (navigation_mask_is v) (when b (rescale_results self)).
Proof.
  split; apply preserves_when; apply rescale_results_masks.
Qed.

Lemma store_signal_mask_keeps_navigation self dc reproject sm v :
  preserves (navigation_mask_is v) (store_signal_mask self dc reproject sm).
Proof. unfold store_signal_mask. preserves_fields navigation_mask_is. Qed.

Lemma store_navigation_mask_keeps_signal self dc reproject nm v :
  preserves (signal_mask_is v) (store_navigation_mask self dc reproject nm).
Proof. unfold store_navigation_mask. preserves_fields signal_mask_is. Qed.

Lemma reshape_ok shape keep m :
  reshape shape keep = Ok m -> m = {| bshape := shape; bflat := bflat keep |}.
Proof.
  unfold reshape. destruct (_ =? _)%nat; intros H; inversion H; reflexivity.
Qed.

Lemma store_signal_mask_sets self dc reproject sm t t' u :
  signal_mask t = None ->
  store_signal_mask self dc reproject sm t = (t', Ok u) ->
  signal_mask t' = stored_mask (_signal_shape_in_array self) sm.
Proof.
  intros Hnone H. unfold store_signal_mask in H. destruct sm as [|keep].
  - inversion H; subst. exact Hnone.
  - apply bindM_ok in H. destruct H as (t1 & [] & H1 & H2).
    unfold update in H1.
    destruct (bind _ _) as [t1'|e] eqn:E; [|discriminate].
    inversion H1; subst. invert_ok. apply reshape_ok in Ha. subst.
    assert (Hp : preserves
                   (signal_mask_is (stored_mask (_signal_shape_in_array self) (Sel keep)))
                   (when (negb (in_list reproject ["both"; "signal"]%string))
                      (update (fun target =>
                         match factors target with
                         | Some f =>
                             (f' <- fill_excluded (ncols dc) (Sel keep) f ;;
                              Ok (set_factors (Some f') target))%py
                         | None => Raise (E_numpy AttributeError "factors")
                         end)))).
    { preserves_fields signal_mask_is. }
    eapply Hp; [|exact H2]. reflexivity.
Qed.

Lemma store_navigation_mask_sets self dc reproject nm t t' u :
  navigation_mask t = None ->
  store_navigation_mask self dc reproject nm t = (t', Ok u) ->
  navigation_mask t' = stored_mask (_navigation_shape_in_array self) nm.
Proof.
  intros Hnone H. unfold store_navigation_mask in H. destruct nm as [|keep].
  - inversion H; subst. exact Hnone.
  - apply bindM_ok in H. destruct H as (t1 & [] & H1 & H2).
    unfold update in H1.
    destruct (bind _ _) as [t1'|e] eqn:E; [|discriminate].
    inversion H1; subst. invert_ok. apply reshape_ok in Ha. subst.
    assert (Hp : preserves
                   (navigation_mask_is
                      (stored_mask (_navigation_shape_in_array self) (Sel keep)))
                   (when (negb (in_list reproject ["both"; "navigation"]%string))
                      (update (fun target =>
                         match loadings target with
                         | Some l =>
                             (l' <- fill_excluded (nrows dc) (Sel keep) l ;;
                              Ok (set_loadings (Some l') target))%py
                         | None => Raise (E_numpy AttributeError "loadings")
                         end)))).
    { preserves_fields navigation_mask_is. }
    eapply Hp; [|exact H2]. reflexivity.
Qed.

Lemma store_results_masks p a self dc sm nm fo ratio significant t' u :
  store_results B p a self dc sm nm fo ratio significant LearningResults_init
  = (t', Ok u) ->
  signal_mask t' = stored_mask (_signal_shape_in_array self) sm /\
  navigation_mask t' = stored_mask (_navigation_shape_in_array self) nm.
Proof.
  intros H. unfold store_results in H.
  apply bindM_ok in H. destruct H as (t1 & [] & H1 & H).
  apply bindM_ok in H. destruct H as (t2 & r & H2 & H).
  apply bindM_ok in H. destruct H as (t3 & [] & H3 & H).
  apply bindM_ok in H. destruct H as (t4 & [] & H4 & H5).
  assert (Hs3 : signal_mask t3 = None /\ navigation_mask t3 = None).
  { split.
    - eapply (proj1 (rescale_or_not _ _ _)); [|exact H3].
      eapply (proj1 (reproject_results_masks _ _ _ _ _ _ _ _)); [|exact H2].
      eapply (proj1 (store_fit_masks _ _ _ _ _ _ _ _)); [|exact H1].
      reflexivity.
    - eapply (proj2 (rescale_or_not _ _ _)); [|exact H3].
      eapply (proj2 (reproject_results_masks _ _ _ _ _ _ _ _)); [|exact H2].
      eapply (proj2 (store_fit_masks _ _ _ _ _ _ _ _)); [|exact H1].
      reflexivity. }
  destruct Hs3 as [Hs3 Hn3]. split.
  - eapply store_navigation_mask_keeps_signal; [|exact H5].
    eapply store_signal_mask_sets; eauto.
  - eapply store_navigation_mask_sets; [|exact H5].
    eapply store_signal_mask_keeps_navigation; [|exact H4]. exact Hn3.
Qed.

End MaskFacts.

(** ** The explained variance stored for singular values *)

Section VarianceFacts.

Variable B : Backends.

Lemma store_fit_variance self algorithm npn od fo ratio significant t t' u :
  store_fit self algorithm npn od fo ratio significant t = (t', Ok u) ->
  explained_variance t'
  = stored_variance od (fo_factors fo) (fo_explained_variance fo).
Proof.
  intros H. unfold store_fit in H.
  apply bindM_ok in H. destruct H as (t1 & [] & H1 & H).
  apply bindM_ok in H. destruct H as (t2 & [] & H2 & H).
  inversion H1; subst; clear H1.
  assert (Hrest : preserves (explained_variance_is (explained_variance t2))
            (modify (set_unmixing_matrix None) ;;;
             modify (set_bss_algorithm None) ;;;
             when (_unfolded4decomposition self)
               (modify (set_original_shape
                          (Some (folding_original_shape self)))))%M).
  { preserves_fields explained_variance_is. }
  rewrite (Hrest _ _ _ eq_refl H). clear Hrest H.
  unfold stored_variance. destruct od as [n|].
  - destruct (truthy (Some n) && _) eqn:Ec; simpl in H2.
    + unfold update, crop_decomposition_dimension in H2. simpl in H2.
      inversion H2; subst. reflexivity.
    + inversion H2; subst. reflexivity.
  - inversion H2; subst. reflexivity.
Qed.

Lemma store_results_variance p a self dc sm nm fo ratio significant t t' u :
  store_results B p a self dc sm nm fo ratio significant t = (t', Ok u) ->
  explained_variance t'
  = stored_variance (Args.output_dimension a) (fo_factors fo)
      (fo_explained_variance fo).
Proof.
  intros H. unfold store_results in H.
  apply bindM_ok in H. destruct H as (t1 & [] & H1 & H).
  apply store_fit_variance in H1. rewrite <- H1.
  assert (Hrest : preserves (explained_variance_is (explained_variance t1))
            (reproject <- reproject_results B dc (is_sklearn_like p) (estim p)
                            (Args.reproject a) sm nm fo ;;
             when (effective_normalize p a) (rescale_results self) ;;;
             store_signal_mask self dc reproject sm ;;;
             store_navigation_mask self dc reproject nm)%M).
  { unfold reproject_results, rescale_results, store_signal_mask,
      store_navigation_mask.
    preserves_fields explained_variance_is. }
  eapply Hrest; [reflexivity | exact H].
Qed.

(** What the fit returns for MLPCA and for robust PCA: the factors [V]
    and the variance of the singular values [S] of the backend. *)
Lemma fit_stage_singular_values p a data_ fo ratio significant :
  fit_stage B p a data_ = Ok (fo, ratio, significant) ->
  algorithm' p = Name "mlpca" \/ algorithm' p = Name "rpca" ->
  exists (U : matrix) (S' : vector) (V : matrix),
    ((exists var_array,
         mlpca B data_ var_array (Args.output_dimension a) (svd_solver' p)
         = Ok (U, S', V))
     \/ (exists X E,
            rpca_godec B data_ (Args.output_dimension a) = Ok (X, E, U, S', V)))
    /\ fo_factors fo = V
    /\ rowwise fmul U S' = Ok (fo_loadings fo)
    /\ fo_explained_variance fo = Some (variance_of_singular_values S' V).
Proof.
  unfold fit_stage. intros H Halg.
  apply bind_ok in H. destruct H as (fo' & Hfit & H).
  apply bind_ok in H. destruct H as ([r' s'] & _ & H).
  inversion H; subst fo' r' s'; clear H.
  unfold fit_dispatch in Hfit. destruct Halg as [Halg|Halg]; rewrite Halg in Hfit.
  - change (is_name (Name "mlpca") "svd") with false in Hfit.
    change (is_name (Name "mlpca") "mlpca") with true in Hfit.
    cbv iota in Hfit.
    apply bind_ok in Hfit. destruct Hfit as (va & _ & Hfit).
    apply bind_ok in Hfit. destruct Hfit as ([[U S'] V] & Hb & Hfit).
    apply bind_ok in Hfit. destruct Hfit as (l & Hl & Hfit).
    inversion Hfit; subst fo; clear Hfit.
    exists U, S', V. simpl. repeat split; eauto.
  - change (is_name (Name "rpca") "svd") with false in Hfit.
    change (is_name (Name "rpca") "mlpca") with false in Hfit.
    change (is_name (Name "rpca") "rpca") with true in Hfit.
    cbv iota in Hfit.
    apply bind_ok in Hfit. destruct Hfit as ([[[[X E] U] S'] V] & Hb & Hfit).
    apply bind_ok in Hfit. destruct Hfit as (l & Hl & Hfit).
    inversion Hfit; subst fo; clear Hfit.
    exists U, S', V. simpl. repeat split; eauto.
Qed.

End VarianceFacts.

Lemma variance_ratio_ok (ev : vector) :
  (2 <= length ev)%nat ->
  exists ratio k, variance_ratio (Some ev) = Ok (Some ratio, Some k).
Proof.
  intros Hlen. unfold variance_ratio, estimate_elbow_position.
  set (ratio := map (fun x => fdiv x (np_sum ev)) ev).
  destruct (elbow_of_curve_first_max ratio (max_points := 20))
    as (k & Hk & _).
  - unfold ratio. rewrite length_map. exact Hlen.
  - lia.
  - exists ratio, (k + 1)%nat. rewrite Hk. reflexivity.
Qed.

(** The sample MLPCA call returns normally; its stored variance and
    loadings. *)
Lemma sample_mlpca_call :
  exists s',
    decomposition sample_backends (call "mlpca" (Some 2%Z) None None)
      (sample_signal data_2x3 3 LearningResults_init)
    = (s', Ok None) /\
    explained_variance (learning_results s')
    = Some (variance_of_singular_values [Fin 6; Fin 3]
              [[Fin 1; Fin 0]; [Fin 0; Fin 1]; [Fin 0; Fin 0]]) /\
    loadings (learning_results s')
    = Some [[Fin (1 * 6); Fin (0 * 3)]; [Fin (0 * 6); Fin (1 * 3)]].
Proof.
  destruct (variance_ratio_ok
              (variance_of_singular_values [Fin 6; Fin 3]
                 [[Fin 1; Fin 0]; [Fin 0; Fin 1]; [Fin 0; Fin 0]]))
    as (ratio & k & Hr); [simpl; lia|].
  set (p0 := {| algorithm' := Name "mlpca"; svd_solver' := "auto";
                is_sklearn_like := false; estim := None |}).
  set (a := call "mlpca" (Some 2%Z) None None).
  set (s := sample_signal data_2x3 3 LearningResults_init).
  assert (Hv : validate sample_backends a s = Ok p0) by (vm_compute; reflexivity).
  assert (Hp : prepare p0 a (enter a s)
               = (enter a s, Ok (data_2x3, SliceAll, SliceAll, data_2x3)))
    by (vm_compute; reflexivity).
  assert (Hf : fit_stage sample_backends p0 a data_2x3
               = Ok ({| fo_factors := [[Fin 1; Fin 0]; [Fin 0; Fin 1]; [Fin 0; Fin 0]];
                        fo_loadings := [[Fin (1 * 6); Fin (0 * 3)];
                                        [Fin (0 * 6); Fin (1 * 3)]];
                        fo_explained_variance :=
                          Some (variance_of_singular_values [Fin 6; Fin 3]
                                  [[Fin 1; Fin 0]; [Fin 0; Fin 1]; [Fin 0; Fin 0]]);
                        fo_mean := None; fo_centre := None;
                        fo_to_return := None; fo_fitted := None |},
                     Some ratio, Some k)).
  { unfold fit_stage, fit_dispatch, p0, a, call. cbn -[variance_of_singular_values variance_ratio].
    rewrite Hr. reflexivity. }
  eexists. split; [|split].
  - unfold decomposition. rewrite Hv. cbv zeta. unfold try_body.
    rewrite Hp, Hf. vm_compute. reflexivity.
  - reflexivity.
  - reflexivity.
Qed.

(** ** Properties of decomposition *)

(** C4.  After every call of [decomposition] that returns normally,
    whichever the algorithm and whatever blind source separation was
    stored before, [unmixing_matrix], [bss_factors], [bss_loadings] and
    [bss_algorithm] of the stored results are null. *)
Theorem decomposition_clears_bss_block (B : Backends) (a : Args.t)
  (s s' : Signal) (v : option info) :
  decomposition B a s = (s', Ok v) ->
  bss_block_null (learning_results s').
Proof.
  intros H.
  destruct (decomposition_ok_stages _ _ _ H)
    as (p & s1 & dc & sm & nm & data_ & fo & ratio & sig & target
        & _ & _ & _ & Hstore & Hlr & _).
  assert (Ht : bss_block_null target).
  { eapply store_results_bss_null; [|exact Hstore].
    unfold bss_block_null; simpl; auto. }
  rewrite Hlr. destruct Ht as (H1 & H2 & H3 & H4).
  unfold bss_block_null; simpl; auto.
Qed.

Lemma decomposition_clears_bss_block_witness :
  let s := sample_signal data_2x2 2 earlier_results in
  let out := decomposition sample_backends (call "svd" None None None) s in
  snd out = Ok None /\
  bss_factors (learning_results s) = Some [[Fin 1]; [Fin 2]] /\
  bss_block_null (learning_results (fst out)).
Proof.
  split; [vm_compute; reflexivity|]. split; [reflexivity|].
  eapply decomposition_clears_bss_block
    with (B := sample_backends) (a := call "svd" None None None)
         (s := sample_signal data_2x2 2 earlier_results) (v := None).
  vm_compute. reflexivity.
Defined.

(** C1, as far as the code goes.  For every call with [copy=True] that
    gets past the checks and then raises, the data of the signal is
    afterwards what it was before the call.  The stored results are not
    kept: the [finally] clause overwrites every attribute that
    [LearningResults.__init__] sets with that of the fresh target of the
    call, so after an error raised no later than the fit (pre-treatment,
    masking, backend failure) [factors], [loadings], [unmixing_matrix],
    [bss_factors], [bss_loadings] and the others are all null. *)
Theorem decomposition_failure_restores_data (B : Backends) (a : Args.t)
  (s s' : Signal) (p : prelude) (e : exn) :
  validate B a s = Ok p ->
  Args.copy a = true ->
  decomposition B a s = (s', Raise e) ->
  data s' = data s /\
  (fails_before_store B p a s = true ->
   learning_results s'
   = dict_update (learning_results s) LearningResults_init /\
   factors (learning_results s') = None /\
   loadings (learning_results s') = None /\
   unmixing_matrix (learning_results s') = None /\
   bss_factors (learning_results s') = None /\
   bss_loadings (learning_results s') = None).
Proof.
  intros Hv Hcopy H.
  destruct (decomposition_after_validation _ _ _ Hv H)
    as (s1 & target & out & Htry & Hlr & Hc & _).
  destruct (Hc Hcopy) as [Hdata Hout]. split; [exact Hdata|].
  intros Hfail. unfold fails_before_store in Hfail.
  assert (Ht : target = LearningResults_init).
  { unfold try_body in Htry.
    destruct (prepare p a (enter a s)) as [s2 [[[[dc sm] nm] data_]|e2]].
    - destruct (fit_stage B p a data_) as [[[fo ratio] sig]|e3].
      + discriminate.
      + inversion Htry; reflexivity.
    - inversion Htry; reflexivity. }
  subst target. rewrite Hlr. repeat split.
Qed.

Lemma decomposition_failure_restores_data_witness :
  let s := sample_signal data_2x2 2 earlier_results in
  let a := call "svd" None None None in
  let out := decomposition failing_backends a s in
  snd out = Raise backend_failure /\
  data (fst out) = data s /\
  learning_results (fst out)
  = dict_update (learning_results s) LearningResults_init.
Proof.
  split; [vm_compute; reflexivity|].
  assert (Hv : validate failing_backends (call "svd" None None None)
                 (sample_signal data_2x2 2 earlier_results)
               = Ok {| algorithm' := Name "svd"; svd_solver' := "auto";
                       is_sklearn_like := false; estim := None |})
    by (vm_compute; reflexivity).
  pose proof (decomposition_failure_restores_data
                failing_backends (call "svd" None None None)
                (sample_signal data_2x2 2 earlier_results)
                (s' := fst (decomposition failing_backends
                              (call "svd" None None None)
                              (sample_signal data_2x2 2 earlier_results)))
                (e := backend_failure)
                Hv eq_refl ltac:(vm_compute; reflexivity)) as [Hd Hl].
  split; [exact Hd|]. apply Hl. vm_compute. reflexivity.
Defined.

(** C1 as the specification states it fails: the stored results of an
    earlier decomposition and blind source separation do not survive a
    call whose backend fails; they are null afterwards. *)
Lemma decomposition_failure_loses_results :
  let s := sample_signal data_2x2 2 earlier_results in
  let a := call "svd" None None None in
  let out := decomposition failing_backends a s in
  is_ok (validate failing_backends a s) = true /\
  snd out = Raise backend_failure /\
  factors (learning_results s) = Some [[Fin 1]; [Fin 2]] /\
  factors (learning_results (fst out)) = None /\
  bss_factors (learning_results s) = Some [[Fin 1]; [Fin 2]] /\
  bss_factors (learning_results (fst out)) = None /\
  learning_results (fst out) <> learning_results s.
Proof.
  repeat split; try (vm_compute; reflexivity).
  intros Heq. apply (f_equal factors) in Heq. vm_compute in Heq. discriminate.
Qed.

(** C5.  [decomposition] fails with a configuration error, and calls no
    factorization,
    - when the algorithm (after the renaming of deprecated names) is one
      of mlpca, rpca, orpca, ornmf and [output_dimension] is [None]: the
      signal is left as it was;
    - when the algorithm is mlpca and both [var_array] and [var_func] are
      given;
    - when the algorithm is neither a recognised name nor an object with
      the estimator methods.
    The first check follows those on the data (float dtype, at least two
    navigation positions); the other two are reached when the earlier
    checks and the pre-treatments of the call have passed.  That no
    factorization runs shows in the outcome being that of the call with
    backends that all fail. *)
Theorem decomposition_configuration_errors :
  (forall (B : Backends) (a : Args.t) (s : Signal) (n : string),
      dtype_is_float s = true ->
      (2 <= navigation_size s)%nat ->
      renamed (Args.algorithm a) = Name n ->
      In n algorithms_require_dimension ->
      Args.output_dimension a = None ->
      decomposition B a s = (s, Raise (E_output_dimension_required n)) /\
      taxonomy (E_output_dimension_required n) = ConfigurationError) /\
  (forall (B : Backends) (a : Args.t) (s s1 : Signal) (p : prelude)
          (va : matrix) (vf : var_func_t) x,
      validate B a s = Ok p ->
      prepare p a (enter a s) = (s1, Ok x) ->
      renamed (Args.algorithm a) = Name "mlpca" ->
      Args.var_array a = Some va ->
      Args.var_func a = Some vf ->
      (exists s', decomposition B a s = (s', Raise E_var_func_and_var_array)) /\
      decomposition B a s = decomposition failing_backends a s /\
      taxonomy E_var_func_and_var_array = ConfigurationError) /\
  (forall (B : Backends) (a : Args.t) (s s1 : Signal) (p : prelude) x,
      validate B a s = Ok p ->
      prepare p a (enter a s) = (s1, Ok x) ->
      recognised (renamed (Args.algorithm a)) = false ->
      has_estimator_methods (renamed (Args.algorithm a)) = false ->
      (exists s', decomposition B a s = (s', Raise E_algorithm_not_recognised)) /\
      taxonomy E_algorithm_not_recognised = ConfigurationError).
Proof.
  split; [|split].
  - intros B a s n Hd Hn Hr Hin Hod. split; [|reflexivity].
    assert (Hreq : name_in (Name n) algorithms_require_dimension = true).
    { unfold name_in. apply existsb_exists. exists n. split; [exact Hin|].
      simpl. apply String.eqb_refl. }
    unfold decomposition, validate. rewrite Hd. cbn [negb].
    destruct (navigation_size s <? 2)%nat eqn:En;
      [apply Nat.ltb_lt in En; lia|].
    cbv zeta. rewrite Hr, Hod, Hreq. reflexivity.
  - intros B a s s1 p va vf x Hv Hp Hr Hva Hvf.
    destruct (validate_ok _ _ _ Hv) as (_ & _ & Halg & _).
    assert (Hfit : forall B', fit_stage B' p a (snd x) = Raise E_var_func_and_var_array).
    { intros B'. unfold fit_stage, fit_dispatch. rewrite Halg, Hr, Hva.
      simpl. unfold effective_var_func. rewrite Hvf.
      destruct (Args.polyfit a); reflexivity. }
    split; [eapply decomposition_fit_raises; eauto|].
    split; [|reflexivity].
    assert (Hv' : validate failing_backends a s = Ok p).
    { revert Hv. unfold validate. rewrite Hr.
      destruct (negb (dtype_is_float s)); [auto|].
      destruct (navigation_size s <? 2)%nat; [auto|].
      cbv zeta. destruct (_ && _); [auto|].
      change (name_in (Name "mlpca") algorithms_sklearn) with false.
      auto. }
    unfold decomposition. rewrite Hv, Hv'. unfold try_body. rewrite Hp.
    destruct x as [[[dc sm] nm] data_]. simpl in Hfit. rewrite !Hfit.
    reflexivity.
  - intros B a s s1 p x Hv Hp Hrec Hest. split; [|reflexivity].
    destruct (validate_ok _ _ _ Hv) as (_ & _ & Halg & Hsk).
    eapply decomposition_fit_raises; eauto.
    unfold fit_stage, fit_dispatch. rewrite Hsk, Halg, Hest.
    unfold recognised in Hrec. apply orb_false_iff in Hrec.
    destruct Hrec as [Hb Hs]. rewrite Hs.
    unfold name_in in Hb. simpl in Hb.
    repeat (apply orb_false_iff in Hb; destruct Hb as [? Hb]).
    repeat match goal with H : is_name _ _ = false |- _ => rewrite H; clear H end.
    reflexivity.
Qed.

Lemma decomposition_configuration_errors_witness :
  (let s := sample_signal data_2x2 2 earlier_results in
   decomposition sample_backends (call "rpca" None None None) s
   = (s, Raise (E_output_dimension_required "rpca"))) /\
  (exists s',
      decomposition sample_backends call_mlpca_both
        (sample_signal data_2x3 3 LearningResults_init)
      = (s', Raise E_var_func_and_var_array)) /\
  (exists s',
      decomposition sample_backends (call "kmeans" (Some 2%Z) None None)
        (sample_signal data_2x2 2 LearningResults_init)
      = (s', Raise E_algorithm_not_recognised)).
Proof.
  destruct decomposition_configuration_errors as (H1 & H2 & H3).
  split; [|split].
  - apply (H1 sample_backends (call "rpca" None None None)
              (sample_signal data_2x2 2 earlier_results) "rpca"%string).
    + reflexivity.
    + simpl; lia.
    + reflexivity.
    + simpl; auto.
    + reflexivity.
  - eapply (H2 sample_backends call_mlpca_both
              (sample_signal data_2x3 3 LearningResults_init)).
    + vm_compute; reflexivity.
    + vm_compute; reflexivity.
    + reflexivity.
    + reflexivity.
    + reflexivity.
  - eapply (H3 sample_backends (call "kmeans" (Some 2%Z) None None)
              (sample_signal data_2x2 2 LearningResults_init)).
    + vm_compute; reflexivity.
    + vm_compute; reflexivity.
    + reflexivity.
    + reflexivity.
Defined.

(** C9.  After every call of [decomposition] that returns normally, the
    stored [navigation_mask] (and [signal_mask]) is the caller's
    exclusion mask, entry for entry, in the navigation (signal) shape of
    the dataset, and it is the negation of the inclusion selector that
    the call used; when the argument is [None] nothing is stored for
    that axis. *)
Theorem decomposition_stores_original_masks (B : Backends) (a : Args.t)
  (s s' : Signal) (v : option info) :
  decomposition B a s = (s', Ok v) ->
  navigation_mask (learning_results s')
  = option_map (reshaped (_navigation_shape_in_array s)) (Args.navigation_mask a)
  /\
  signal_mask (learning_results s')
  = option_map (reshaped (_signal_shape_in_array s)) (Args.signal_mask a)
  /\
  navigation_mask (learning_results s')
  = stored_mask (_navigation_shape_in_array s)
      (include_selector (option_map ravel (Args.navigation_mask a)))
  /\
  signal_mask (learning_results s')
  = stored_mask (_signal_shape_in_array s)
      (include_selector (option_map ravel (Args.signal_mask a))).
Proof.
  intros H.
  destruct (decomposition_ok_stages _ _ _ H)
    as (p & s1 & dc & sm & nm & data_ & fo & ratio & sig & target
        & _ & Hprep & _ & Hstore & Hlr & _ & Hss & Hns).
  destruct (prepare_ok _ _ _ Hprep) as (_ & Hsm & Hnm & _).
  destruct (store_results_masks _ _ _ _ _ _ _ _ _ _ Hstore) as [Hs Hn].
  rewrite Hss in Hs. rewrite Hns in Hn. subst sm nm.
  assert (Hlrs : signal_mask (learning_results s') = signal_mask target)
    by (rewrite Hlr; reflexivity).
  assert (Hlrn : navigation_mask (learning_results s') = navigation_mask target)
    by (rewrite Hlr; reflexivity).
  rewrite Hlrs, Hlrn, Hs, Hn.
  assert (Hback : forall shape (m : option bool_array),
             stored_mask shape (include_selector (option_map ravel m))
             = option_map (reshaped shape) m).
  { intros shape [m|]; [|reflexivity]. simpl. unfold invert, reshaped. simpl.
    f_equal. f_equal. rewrite map_map. rewrite <- (map_id (bflat m)) at 2.
    apply map_ext. intros b. apply negb_involutive. }
  rewrite !Hback. auto.
Qed.

Lemma decomposition_stores_original_masks_witness :
  let a := call "svd" None (Some mask_last) (Some mask_first) in
  let out := decomposition sample_backends a signal_3x3 in
  snd out = Ok None /\
  navigation_mask (learning_results (fst out))
  = Some {| bshape := [3%nat]; bflat := [false; false; true] |} /\
  signal_mask (learning_results (fst out))
  = Some {| bshape := [1%nat; 3%nat]; bflat := [true; false; false] |}.
Proof.
  split; [vm_compute; reflexivity|].
  pose proof (decomposition_stores_original_masks
                sample_backends
                (call "svd" None (Some mask_last) (Some mask_first))
                signal_3x3
                (s' := fst (decomposition sample_backends
                              (call "svd" None (Some mask_last) (Some mask_first))
                              signal_3x3))
                (v := None)
                ltac:(vm_compute; reflexivity))
    as (Hn & Hs & _).
  split; [exact Hn | exact Hs].
Defined.

(** C8, as far as the code goes.  For MLPCA and robust PCA the stored
    [explained_variance] is the element-wise square of the singular
    values [S] of the backend divided by [len(factors)], the number of
    rows of the factors matrix [V] (the channels in the fit), not by the
    number of rows of the loadings; it is cropped to [output_dimension]
    entries when [V] has another number of columns. *)
Theorem decomposition_variance_of_singular_values (B : Backends)
  (a : Args.t) (s s' : Signal) (v : option info) :
  decomposition B a s = (s', Ok v) ->
  renamed (Args.algorithm a) = Name "mlpca"
  \/ renamed (Args.algorithm a) = Name "rpca" ->
  exists (p : prelude) (data_ U : matrix) (S' : vector) (V : matrix),
    validate B a s = Ok p /\
    ((exists var_array,
         mlpca B data_ var_array (Args.output_dimension a) (svd_solver' p)
         = Ok (U, S', V))
     \/ (exists X E,
            rpca_godec B data_ (Args.output_dimension a) = Ok (X, E, U, S', V)))
    /\
    explained_variance (learning_results s')
    = stored_variance (Args.output_dimension a) V
        (Some (map (fun sv => fdiv (fmul sv sv) (Fin (INR (nrows V)))) S')).
Proof.
  intros H Halg.
  destruct (decomposition_ok_stages _ _ _ H)
    as (p & s1 & dc & sm & nm & data_ & fo & ratio & sig & target
        & Hv & _ & Hfit & Hstore & Hlr & _).
  destruct (validate_ok _ _ _ Hv) as (_ & _ & Hp & _).
  rewrite <- Hp in Halg.
  destruct (fit_stage_singular_values _ _ _ _ Hfit Halg)
    as (U & S' & V & Hback & HV & _ & Hev).
  exists p, data_, U, S', V. split; [exact Hv|]. split; [exact Hback|].
  apply store_results_variance in Hstore.
  rewrite Hlr. cbn [explained_variance dict_update].
  rewrite Hstore, HV, Hev. reflexivity.
Qed.

Lemma decomposition_variance_of_singular_values_witness :
  exists s' V,
    decomposition sample_backends (call "mlpca" (Some 2%Z) None None)
      (sample_signal data_2x3 3 LearningResults_init)
    = (s', Ok None) /\
    nrows V = 3%nat /\
    explained_variance (learning_results s')
    = stored_variance (Some 2%Z) V
        (Some (map (fun sv => fdiv (fmul sv sv) (Fin (INR (nrows V))))
                 [Fin 6; Fin 3])).
Proof.
  destruct sample_mlpca_call as (s' & Hcall & _).
  destruct (decomposition_variance_of_singular_values
              sample_backends (call "mlpca" (Some 2%Z) None None)
              (sample_signal data_2x3 3 LearningResults_init)
              Hcall (or_introl eq_refl))
    as (p & data_ & U & S' & V & _ & Hback & Hev).
  exists s', V.
  destruct Hback as [(va & Hb)|(X & E & Hb)]; [|discriminate Hb].
  simpl in Hb. inversion Hb; subst.
  split; [exact Hcall|]. split; [reflexivity|]. exact Hev.
Defined.

(** C8 as the specification states it fails: on two spectra with three
    channels the loadings have two rows, the factors three, and the
    stored variance of the singular values 6 and 3 is [6^2/3, 3^2/3], not
    [6^2/2, 3^2/2]. *)
Lemma variance_not_divided_by_rows_of_loadings :
  exists s' l,
    decomposition sample_backends (call "mlpca" (Some 2%Z) None None)
      (sample_signal data_2x3 3 LearningResults_init)
    = (s', Ok None) /\
    loadings (learning_results s') = Some l /\
    nrows l = 2%nat /\
    explained_variance (learning_results s')
    = Some [Fin (6 * 6 / 3); Fin (3 * 3 / 3)] /\
    explained_variance (learning_results s')
    <> Some (map (fun sv => fdiv (fmul sv sv) (Fin (INR (nrows l))))
               [Fin 6; Fin 3]).
Proof.
  destruct sample_mlpca_call as (s' & Hcall & Hev & Hl).
  assert (H3 : variance_of_singular_values [Fin 6; Fin 3]
                 [[Fin 1; Fin 0]; [Fin 0; Fin 1]; [Fin 0; Fin 0]]
               = [Fin (6 * 6 / 3); Fin (3 * 3 / 3)]).
  { unfold variance_of_singular_values. cbn [map length].
    change (INR 3) with (1 + 1 + 1).
    rewrite !fmul_Fin, !fdiv_Fin by lra.
    repeat f_equal; lra. }
  exists s', [[Fin (1 * 6); Fin (0 * 3)]; [Fin (0 * 6); Fin (1 * 3)]].
  split; [exact Hcall|]. split; [exact Hl|]. split; [reflexivity|].
  rewrite Hev, H3. split; [reflexivity|].
  cbn [map nrows length]. change (INR 2) with (1 + 1).
  rewrite !fmul_Fin, !fdiv_Fin by lra.
  intros Heq. inversion Heq. lra.
Qed.

(** ** The elbow estimate *)

(** C7, as far as the code goes.  For every curve of length at least 2
    and every [max_points >= 1], [estimate_elbow_position] clamps
    [max_points] to [len(curve) - 1], clips the curve from below at 1e-30
    before the natural log, takes for each index below the clamped
    [max_points] the distance of the log-point to the line through the
    first and the [max_points]-th log-points (a NaN distance counts as 0,
    an infinite one as the largest finite double), and returns the first
    index at which the distance is largest.  On the curve
    [1.0, 0.5, 0.1, 0.09, 0.08, 0.07] with [max_points = 5] it returns
    index 2. *)
Theorem estimate_elbow_position_first_maximum :
  (forall (stored : option vector) (curve : vector) (max_points : Z),
      (2 <= length curve)%nat ->
      (1 <= max_points)%Z ->
      let mp := Z.to_nat (Z.min max_points (Z.of_nat (length curve) - 1)) in
      exists k,
        estimate_elbow_position stored (Some curve) max_points = Ok k /\
        (k < mp)%nat /\
        (forall j, (j < mp)%nat ->
           fleb (elbow_distance curve mp j) (elbow_distance curve mp k) = true) /\
        (forall j, (j < k)%nat ->
           fltb (elbow_distance curve mp j) (elbow_distance curve mp k) = true)) /\
  estimate_elbow_position None (Some curve_example) 5 = Ok 2%nat.
Proof.
  split.
  - intros stored curve max_points Hlen Hmp. simpl.
    apply elbow_of_curve_first_max; assumption.
  - apply elbow_example.
Qed.

Lemma estimate_elbow_position_first_maximum_witness :
  exists k,
    estimate_elbow_position None (Some curve_example) 5 = Ok k /\
    (k < 5)%nat /\
    fleb (elbow_distance curve_example 5 2) (elbow_distance curve_example 5 k)
    = true.
Proof.
  destruct (proj1 estimate_elbow_position_first_maximum
              None curve_example 5%Z
              ltac:(simpl; lia) ltac:(lia))
    as (k & Hk & Hlt & Hmax & _).
  exists k. split; [exact Hk|]. split; [exact Hlt|].
  apply Hmax. simpl. lia.
Defined.

(** C7 as the specification states it fails in two places: with
    [max_points = 0] the call raises instead of returning an index, and
    an infinite distance is not mapped to 0 but to the largest finite
    double, which then is the maximum. *)
Lemma estimate_elbow_position_edge_cases :
  estimate_elbow_position None (Some [Fin 1; Fin 0.5]) 0
  = Raise (E_numpy ValueError "attempt to get argmax of an empty sequence")
  /\
  (estimate_elbow_position None (Some curve_with_inf) 2 = Ok 1%nat /\
   elbow_distance curve_with_inf 2 0 = Fin 0 /\
   elbow_distance curve_with_inf 2 1 = Fin float_max /\
   Fin float_max <> Fin 0).
Proof.
  split; [reflexivity|]. split; [apply elbow_with_inf|].
  destruct distances_with_inf as [H0 H1]. split; [exact H0|].
  split; [exact H1|]. intros H. inversion H.
  pose proof float_max_pos. lra.
Qed.

(** ** Noise normalization *)

Lemma setitem_chain_copy (dc : matrix) (keep : bool_array) (nav : selector)
  (block dc' : matrix) :
  setitem_chain dc (Sel keep) nav block = Ok dc' -> dc' = dc.
Proof.
  unfold setitem_chain. intros H.
  apply bind_ok in H. destruct H as (t & _ & H).
  apply bind_ok in H. destruct H as (t1 & _ & H).
  inversion H. reflexivity.
Qed.

(** With a signal mask, whatever it excludes, the call leaves the data as
    it was: the rescaled values go to a copy. *)
Lemma normalize_with_signal_mask_keeps_data (s s' : Signal)
  (nm : option bool_array) (m : bool_array) (r : result unit) :
  normalize_poissonian_noise s nm (Some m) = (s', r) -> data s' = data s.
Proof.
  unfold normalize_poissonian_noise. cbn [include_selector]. intros H.
  repeat match type of H with
    | (match ?x with _ => _ end) = _ =>
        let E := fresh "E" in destruct x eqn:E
    | (if ?x then _ else _) = _ => destruct x
    end;
    inversion H; subst; cbn [data set_data set_root_aG set_root_bH];
    try reflexivity.
  all: repeat match goal with
    | H : setitem_chain _ (Sel _) _ _ = Ok _ |- _ =>
        apply setitem_chain_copy in H
    end.
  all: congruence.
Qed.

(** *** The positivity check *)

Lemma strictly_positive_fin (x : float) :
  strictly_positive x -> x = PInf \/ exists r, x = Fin r /\ 0 < r.
Proof.
  unfold strictly_positive. destruct x; simpl; try discriminate; auto.
  intros H. apply Rltb_spec in H. right. eauto.
Qed.

Lemma strictly_positive_not_nan (x : float) :
  strictly_positive x -> isnan x = false.
Proof. intros H. destruct (strictly_positive_fin H) as [->|(r & -> & _)]; reflexivity. Qed.

Lemma fminimum_positive (x y : float) :
  strictly_positive x -> strictly_positive y ->
  strictly_positive (fminimum x y).
Proof.
  intros Hx Hy. unfold fminimum.
  rewrite (strictly_positive_not_nan Hx), (strictly_positive_not_nan Hy).
  destruct (fltb y x); assumption.
Qed.

Lemma fold_fminimum_positive (v : vector) (x : float) :
  strictly_positive x -> Forall strictly_positive v ->
  strictly_positive (fold_left fminimum v x).
Proof.
  revert x. induction v as [|y v IH]; intros x Hx Hv; simpl; [exact Hx|].
  inversion Hv; subst. apply IH; [apply fminimum_positive|]; assumption.
Qed.

Lemma strictly_positive_not_le (x : float) :
  strictly_positive x -> fleb x (Fin 0) = false.
Proof.
  intros H. destruct (strictly_positive_fin H) as [->|(r & -> & Hr)].
  - reflexivity.
  - simpl. apply Rleb_false. lra.
Qed.






Lemma np_min_positive (v : vector) (m : float) :
  Forall strictly_positive v -> np_min v = Ok m -> strictly_positive m.
Proof.
  intros Hv H. destruct v as [|x v]; [discriminate|].
  inversion H; subst. inversion Hv; subst.
  apply fold_fminimum_positive; assumption.
Qed.















Lemma normalized_block_2x2 : data_2x2 <> normalized_block data_2x2.
Proof.
  intros Heq. apply (f_equal (fun m => nth 0 (nth 0 m []) NaN)) in Heq.
  unfold normalized_block, data_2x2 in Heq.
  cbn [sum_axis0 sum_axis1 map map2 outer combine fst snd nth seq ncols
       length column np_sum fold_left fadd fmul] in Heq.
  rewrite !fsqrt_Fin in Heq by lra. rewrite fmul_Fin in Heq.
  assert (H3 : 1 < sqrt (0 + 1 + 2)).
  { rewrite <- sqrt_1 at 1. apply sqrt_lt_1_alt. lra. }
  assert (H4 : 1 < sqrt (0 + 1 + 3)).
  { rewrite <- sqrt_1 at 1. apply sqrt_lt_1_alt. lra. }
  assert (Hp : 1 < sqrt (0 + 1 + 2) * sqrt (0 + 1 + 3)) by nra.
  rewrite fdiv_Fin in Heq by lra. cbn [nan_to_num] in Heq.
  inversion Heq as [Hr].
  assert (Hinv : 1 / (sqrt (0 + 1 + 2) * sqrt (0 + 1 + 3)) < 1).
  { apply Rmult_lt_reg_r with (sqrt (0 + 1 + 2) * sqrt (0 + 1 + 3)); [lra|].
    unfold Rdiv. rewrite Rmult_assoc, Rinv_l by lra. lra. }
  lra.
Qed.

(** C2 fails on the code as soon as a signal mask is given.  Whatever the
    data and the masks, a call with a signal mask leaves the data of the
    signal as it was.  On the 2 x 2 data [[1, 2], [3, 4]] with a signal
    mask that excludes no channel the call returns normally, the included
    block, here the whole data, is what it was, and the rescaled block of
    the specification is another one (its first entry is
    [1 / (sqrt 3 * sqrt 4)]). *)
Theorem normalize_signal_mask_failing_case :
  (forall (s : Signal) (nm : option bool_array) (m : bool_array),
      data (fst (normalize_poissonian_noise s nm (Some m))) = data s) /\
  (let s := sample_signal data_2x2 2 LearningResults_init in
   exists s',
     normalize_poissonian_noise s None (Some mask_none2) = (s', Ok tt) /\
     included_block (data s) (include_selector (Some mask_none2)) SliceAll
     = Ok data_2x2 /\
     included_block (data s') (include_selector (Some mask_none2)) SliceAll
     = Ok data_2x2 /\
     data_2x2 <> normalized_block data_2x2).
Proof.
  split.
  { intros s nm m.
    destruct (normalize_poissonian_noise s nm (Some m)) as [s' r] eqn:E.
    simpl. eapply normalize_with_signal_mask_keeps_data. exact E. }
  intros s.
  assert (Hblock : included_block (data s) (include_selector (Some mask_none2))
                     SliceAll = Ok data_2x2) by reflexivity.
  assert (Hall : Forall strictly_positive (concat data_2x2)).
  { unfold data_2x2, strictly_positive.
    repeat constructor; cbn [fltb]; apply Rltb_true; lra. }
  destruct (np_min (concat data_2x2)) as [m|e] eqn:Em; [|discriminate].
  pose proof (strictly_positive_not_le (@np_min_positive _ m Hall Em)) as Hm.
  assert (Hrun : exists s', normalize_poissonian_noise s None (Some mask_none2)
                            = (s', Ok tt) /\ data s' = data_2x2).
  { unfold normalize_poissonian_noise.
    cbn [option_map include_selector] in Hblock |- *.
    rewrite Hblock, Em, Hm.
    eexists. split; reflexivity. }
  destruct Hrun as (s' & Hrun & Hdata). exists s'.
  split; [exact Hrun|]. split; [exact Hblock|]. split.
  - rewrite Hdata. reflexivity.
  - apply normalized_block_2x2.
Qed.

(** *** The path without signal mask *)

Lemma select_put_rows {A} (keep : list bool) (t b : list A) :
  length b = length (select keep t) ->
  select keep (put_rows keep t b) = b.
Proof.
  revert t b. induction keep as [|k keep IH]; intros t b Hb.
  - simpl in Hb. destruct b; [|discriminate]. destruct t; reflexivity.
  - destruct t as [|x t]; simpl in *.
    + destruct b; [reflexivity | discriminate].
    + destruct k.
      * destruct b as [|b0 b]; [discriminate|]. simpl in *.
        f_equal. apply IH. lia.
      * simpl. apply IH. exact Hb.
Qed.

Lemma put_rows_length {A} (keep : list bool) (t b : list A) :
  length (put_rows keep t b) = length t.
Proof.
  revert t b. induction keep as [|k keep IH]; intros t b; [destruct t; reflexivity|].
  destruct t as [|x t]; [reflexivity|]. simpl.
  destruct k; [destruct b|]; simpl; rewrite IH; reflexivity.
Qed.

Lemma put_rows_outside {A} (keep : list bool) (t b : list A) (i : nat) (d : A) :
  nth i keep true = false ->
  nth i (put_rows keep t b) d = nth i t d.
Proof.
  revert t b i. induction keep as [|k keep IH]; intros t b i Hi.
  - destruct i; discriminate.
  - destruct t as [|x t]; [reflexivity|]. simpl.
    destruct i as [|i]; simpl in Hi.
    + subst k. reflexivity.
    + destruct k; [destruct b|]; simpl; apply IH; exact Hi.
Qed.

Lemma sqrt_squeezed_ok (v r : vector) :
  sqrt_squeezed v = Ok r -> r = map fsqrt v.
Proof.
  unfold sqrt_squeezed. destruct v as [|x [|y v]]; intros H;
    inversion H; reflexivity.
Qed.

Lemma map2_length (f : float -> float -> float) (a b : matrix) :
  length a = length b -> length (map2 f a b) = length a.
Proof.
  intros H. unfold map2. rewrite length_map, length_combine, H.
  apply Nat.min_id.
Qed.

Lemma included_block_rows (dc : matrix) (nav : selector) :
  included_block dc SliceAll nav = getitem_rows dc nav.
Proof. reflexivity. Qed.

Lemma setitem_chain_rows (dc : matrix) (nav : selector) (blk B : matrix) :
  getitem_rows dc nav = Ok blk ->
  setitem_chain dc SliceAll nav B = Ok (setitem_rows dc nav B).
Proof.
  intros H. unfold setitem_chain. cbn [getitem_cols bind]. rewrite H.
  reflexivity.
Qed.

Lemma getitem_rows_setitem (dc : matrix) (nav : selector) (blk B : matrix) :
  getitem_rows dc nav = Ok blk -> length B = length blk ->
  getitem_rows (setitem_rows dc nav B) nav = Ok B.
Proof.
  intros H HB. destruct nav as [|keep]; [reflexivity|].
  cbn [getitem_rows setitem_rows] in *. rewrite put_rows_length.
  destruct (one_dim keep && _); [|discriminate].
  inversion H; subst blk. f_equal. apply select_put_rows. exact HB.
Qed.

Lemma setitem_rows_length (dc : matrix) (nav : selector) (blk B : matrix) :
  getitem_rows dc nav = Ok blk -> length B = length blk ->
  length (setitem_rows dc nav B) = length dc.
Proof.
  intros H HB. destruct nav as [|keep].
  - inversion H; subst. exact HB.
  - apply put_rows_length.
Qed.

(** Without a signal mask the call does what the specification says: the
    included rows become the rescaled block, the other rows stay. *)
Lemma normalize_without_signal_mask (s s' : Signal)
  (nm : option bool_array) (block : matrix) :
  included_block (data s) SliceAll (include_selector (option_map ravel nm))
  = Ok block ->
  normalize_poissonian_noise s nm None = (s', Ok tt) ->
  included_block (data s') SliceAll (include_selector (option_map ravel nm))
  = Ok (normalized_block block) /\
  length (data s') = length (data s) /\
  (forall keep i,
      include_selector (option_map ravel nm) = Sel keep ->
      nth i (bflat keep) true = false ->
      nth i (data s') [] = nth i (data s) []).
Proof.
  intros Hblock H. unfold normalize_poissonian_noise in H.
  cbn [include_selector] in H.
  set (nav := include_selector (option_map ravel nm)) in *.
  rewrite Hblock in H.
  destruct (np_min (concat block)) as [m|e]; [|discriminate].
  destruct (fleb m (Fin 0)); [discriminate|].
  destruct (sqrt_squeezed (sum_axis1 block)) as [ra|e] eqn:Ea; [|discriminate].
  destruct (sqrt_squeezed (sum_axis0 block)) as [rb|e] eqn:Eb; [|discriminate].
  apply sqrt_squeezed_ok in Ea, Eb. subst ra rb.
  set (B1 := map2 fdiv block
               (outer (map fsqrt (sum_axis1 block)) (map fsqrt (sum_axis0 block))))
    in *.
  assert (HB1 : length B1 = length block).
  { unfold B1. apply map2_length. unfold outer, sum_axis1.
    rewrite !length_map. reflexivity. }
  assert (Hnorm : normalized_block block = map (map nan_to_num) B1) by reflexivity.
  rewrite included_block_rows in Hblock.
  rewrite (@setitem_chain_rows _ _ _ B1 Hblock) in H.
  rewrite included_block_rows in H.
  pose proof (@getitem_rows_setitem _ _ _ _ Hblock HB1) as Hget1.
  rewrite Hget1 in H.
  rewrite (@setitem_chain_rows _ _ _ (map (map nan_to_num) B1) Hget1) in H.
  inversion H; subst s'. cbn [data set_data].
  assert (HB2 : length (map (map nan_to_num) B1) = length B1)
    by apply length_map.
  rewrite included_block_rows, Hnorm.
  split; [apply (@getitem_rows_setitem _ _ _ _ Hget1 HB2)|]. split.
  - rewrite (@setitem_rows_length _ _ _ _ Hget1 HB2).
    apply (@setitem_rows_length _ _ _ _ Hblock HB1).
  - intros keep i Hk Hi. rewrite Hk. cbn [setitem_rows].
    rewrite !put_rows_outside by exact Hi. reflexivity.
Qed.

(** ** Sign reversal *)

Lemma times_minus_one_fneg (x : float) : times_minus_one x = fneg x.
Proof.
  unfold times_minus_one. destruct x; cbn [fmul fneg]; try reflexivity.
  - unfold inf_of_sign. decide_reals. reflexivity.
  - f_equal. lra.
  - unfold inf_of_sign. decide_reals. reflexivity.
Qed.

(** The test of the code, [minimum < 0 and -minimum > maximum], is the
    criterion of the specification, [min < 0 and |min| > max]. *)
Lemma criterion_code_spec (m M : float) :
  fltb m (Fin 0) && fgtb (fneg m) M = fltb m (Fin 0) && fgtb (fabs m) M.
Proof.
  destruct (fltb m (Fin 0)) eqn:E; [|reflexivity]. cbn [andb].
  destruct m; cbn [fltb] in E; try discriminate; [reflexivity|].
  apply Rltb_spec in E. cbn [fneg fabs]. rewrite Rabs_left by exact E.
  reflexivity.
Qed.

Lemma mapi_from_length {A} (f : nat -> A -> A) (n : nat) (l : list A) :
  length (mapi_from f n l) = length l.
Proof. revert n. induction l; intros n; simpl; auto. Qed.

Lemma mapi_from_ext {A} (f g : nat -> A -> A) (n : nat) (l : list A) :
  (forall i x, (n <= i < n + length l)%nat -> f i x = g i x) ->
  mapi_from f n l = mapi_from g n l.
Proof.
  revert n. induction l as [|x l IH]; intros n H; simpl; [reflexivity|].
  f_equal.
  - apply H. simpl. lia.
  - apply IH. intros i y Hi. apply H. simpl. lia.
Qed.

Lemma mapi_from_nth {A} (f : nat -> A -> A) (n i : nat) (l : list A) (d : A) :
  (i < length l)%nat ->
  nth i (mapi_from f n l) d = f (n + i)%nat (nth i l d).
Proof.
  revert n i. induction l as [|x l IH]; intros n i Hi; simpl in Hi; [lia|].
  destruct i as [|i]; simpl.
  - rewrite Nat.add_0_r. reflexivity.
  - rewrite IH by lia. f_equal. lia.
Qed.

Lemma map_at_mapi_from {A} (h : A -> A) (f : nat -> A -> A) (n j : nat)
  (l : list A) :
  map_at h j (mapi_from f n l)
  = mapi_from (fun i x => if (i =? n + j)%nat then h (f i x) else f i x) n l.
Proof.
  revert n j. induction l as [|x l IH]; intros n j; simpl; [reflexivity|].
  destruct j as [|j]; simpl.
  - rewrite Nat.add_0_r, Nat.eqb_refl. f_equal.
    apply mapi_from_ext. intros i y Hi.
    destruct (i =? n)%nat eqn:E; [apply Nat.eqb_eq in E; lia | reflexivity].
  - destruct (n =? n + S j)%nat eqn:E; [apply Nat.eqb_eq in E; lia|].
    f_equal. rewrite IH. apply mapi_from_ext. intros i y Hi.
    replace (S n + j)%nat with (n + S j)%nat by lia. reflexivity.
Qed.

Lemma column_mapi_from (f : nat -> float -> float) (i : nat) (m : matrix) :
  Forall (fun r => (i < length r)%nat) m ->
  column NaN i (map (mapi_from f 0) m) = map (f i) (column NaN i m).
Proof.
  intros H. unfold column. rewrite !map_map. apply map_ext_in.
  intros r Hr. rewrite Forall_forall in H.
  rewrite mapi_from_nth by (apply H, Hr). reflexivity.
Qed.

Lemma nan_reductions_ok (col : vector) :
  col <> [] ->
  exists m M, np_nanmin col = Ok m /\ np_nanmax col = Ok M.
Proof.
  intros H. destruct col as [|x col]; [congruence|].
  unfold np_nanmin, np_nanmax.
  destruct (filter not_nan (x :: col)); eauto.
Qed.

Lemma reverse_columns_ext (f g : nat -> bool) (k : nat) (m : matrix) :
  rect k m -> (forall i, (i < k)%nat -> f i = g i) ->
  reverse_columns f m = reverse_columns g m.
Proof.
  intros Hr H. unfold reverse_columns. apply map_ext_in. intros r Hin.
  unfold rect in Hr. rewrite Forall_forall in Hr. specialize (Hr r Hin).
  apply mapi_from_ext. intros i x Hi. rewrite H by lia. reflexivity.
Qed.

Lemma reverse_rows_ext (f g : nat -> bool) (w : matrix) :
  (forall i, (i < length w)%nat -> f i = g i) ->
  reverse_rows f w = reverse_rows g w.
Proof.
  intros H. unfold reverse_rows. apply mapi_from_ext.
  intros i x Hi. rewrite H by lia. reflexivity.
Qed.

Lemma reverse_columns_rect (f : nat -> bool) (k : nat) (m : matrix) :
  rect k m -> rect k (reverse_columns f m).
Proof.
  unfold rect, reverse_columns. intros H. apply Forall_forall.
  intros r Hr. apply in_map_iff in Hr. destruct Hr as (r0 & <- & Hr0).
  rewrite mapi_from_length. rewrite Forall_forall in H. auto.
Qed.

Lemma rect_index_ok (k j : nat) (m : matrix) :
  rect k m -> (j < k)%nat ->
  forallb (fun r => (j <? length r)%nat) m = true.
Proof.
  intros H Hj. apply forallb_forall. intros r Hr.
  unfold rect in H. rewrite Forall_forall in H. rewrite (H r Hr).
  apply Nat.ltb_lt, Hj.
Qed.

(** Reversing column [j] after the columns below [j]. *)
Lemma negate_column_step (values : matrix) (k j : nat) (m : matrix) :
  rect k m -> (j < k)%nat -> reversal_flag values j = true ->
  negate_column j (reverse_columns (reversed_upto values j) m)
  = Ok (reverse_columns (reversed_upto values (S j)) m).
Proof.
  intros Hr Hj Hflag. unfold negate_column.
  rewrite (rect_index_ok (reverse_columns_rect _ Hr) Hj). f_equal.
  unfold reverse_columns. rewrite map_map. apply map_ext_in. intros r Hin.
  rewrite map_at_mapi_from. apply mapi_from_ext. intros i x Hi.
  unfold reversed_upto. simpl.
  destruct (i =? j)%nat eqn:E.
  - apply Nat.eqb_eq in E. subst i. rewrite Nat.ltb_irrefl, Hflag.
    replace (j <? S j)%nat with true by (symmetry; apply Nat.ltb_lt; lia).
    reflexivity.
  - apply Nat.eqb_neq in E.
    replace (i <? S j)%nat with (i <? j)%nat; [reflexivity|].
    destruct (i <? j)%nat eqn:E1.
    + apply Nat.ltb_lt in E1. symmetry. apply Nat.ltb_lt. lia.
    + apply Nat.ltb_ge in E1. symmetry. apply Nat.ltb_ge. lia.
Qed.

Lemma negate_row_step (values : matrix) (j : nat) (w : matrix) :
  (j < length w)%nat -> reversal_flag values j = true ->
  negate_row j (reverse_rows (reversed_upto values j) w)
  = Ok (reverse_rows (reversed_upto values (S j)) w).
Proof.
  intros Hj Hflag. unfold negate_row, reverse_rows.
  rewrite mapi_from_length.
  replace (j <? length w)%nat with true by (symmetry; apply Nat.ltb_lt; lia).
  f_equal. rewrite map_at_mapi_from. apply mapi_from_ext. intros i x Hi.
  unfold reversed_upto. simpl.
  destruct (i =? j)%nat eqn:E.
  - apply Nat.eqb_eq in E. subst i. rewrite Nat.ltb_irrefl, Hflag.
    replace (j <? S j)%nat with true by (symmetry; apply Nat.ltb_lt; lia).
    reflexivity.
  - apply Nat.eqb_neq in E.
    replace (i <? S j)%nat with (i <? j)%nat; [reflexivity|].
    destruct (i <? j)%nat eqn:E1.
    + apply Nat.ltb_lt in E1. symmetry. apply Nat.ltb_lt. lia.
    + apply Nat.ltb_ge in E1. symmetry. apply Nat.ltb_ge. lia.
Qed.

(** Skipping column [j]. *)
Lemma reversed_upto_skip (values : matrix) (j i : nat) :
  reversal_flag values j = false ->
  reversed_upto values (S j) i = reversed_upto values j i.
Proof.
  intros Hflag. unfold reversed_upto.
  destruct (Nat.eq_dec i j) as [->|Hne].
  - rewrite Hflag, !andb_false_r. reflexivity.
  - replace (i <? S j)%nat with (i <? j)%nat; [reflexivity|].
    destruct (i <? j)%nat eqn:E1.
    + apply Nat.ltb_lt in E1. symmetry. apply Nat.ltb_lt. lia.
    + apply Nat.ltb_ge in E1. symmetry. apply Nat.ltb_ge. lia.
Qed.

(** Column [j] is still the original one when the loop reaches it. *)
Lemma column_not_yet_reversed (values : matrix) (k j : nat) (m : matrix) :
  rect k m -> (j < k)%nat ->
  column NaN j (reverse_columns (reversed_upto values j) m) = column NaN j m.
Proof.
  intros Hr Hj. unfold reverse_columns. rewrite column_mapi_from.
  - unfold reversed_upto. rewrite Nat.ltb_irrefl. simpl. apply map_id.
  - unfold rect in Hr. rewrite Forall_forall in *. intros r Hin.
    rewrite (Hr r Hin). exact Hj.
Qed.

Section AutoReverse.

Variables (criterion : string) (F L W V : matrix) (k : nat).

Hypothesis Hcriterion :
  (criterion = "factors"%string /\ V = F) \/
  (criterion = "loadings"%string /\ V = L).
Hypothesis HF : rect k F.
Hypothesis HL : rect k L.
Hypothesis HV : V <> [].
Hypothesis HW : (k <= length W)%nat.

Lemma rect_V : rect k V.
Proof. destruct Hcriterion as [[_ ->]|[_ ->]]; assumption. Qed.

Lemma auto_reverse_step_ok (j : nat) (lr : LearningResults) :
  (j < k)%nat ->
  reversed_state V F L W j lr ->
  exists lr',
    auto_reverse_step criterion j lr = (lr', Ok tt) /\
    reversed_state V F L W (S j) lr'.
Proof.
  intros Hj (HsF & HsL & HsW).
  assert (Hvalues :
    (if String.eqb criterion "factors" then not_none (bss_factors lr)
     else if String.eqb criterion "loadings" then not_none (bss_loadings lr)
     else Raise E_reverse_criterion)
    = Ok (reverse_columns (reversed_upto V j) V)).
  { destruct Hcriterion as [[-> ->]|[-> ->]]; simpl.
    - rewrite HsF. reflexivity.
    - rewrite HsL. reflexivity. }
  assert (Hcol : get_column j (reverse_columns (reversed_upto V j) V)
                 = Ok (column NaN j V)).
  { unfold get_column.
    rewrite (rect_index_ok (reverse_columns_rect _ rect_V) Hj).
    rewrite (column_not_yet_reversed _ rect_V Hj). reflexivity. }
  assert (Hne : column NaN j V <> []).
  { unfold column. destruct V; [congruence | discriminate]. }
  destruct (nan_reductions_ok Hne) as (m & M & Hm & HM).
  assert (Hflag : reversal_flag V j = fltb m (Fin 0) && fgtb (fneg m) M).
  { unfold reversal_flag, reversal_criterion. rewrite Hm, HM. simpl.
    symmetry. apply criterion_code_spec. }
  unfold auto_reverse_step, bindM, get, lift.
  rewrite Hvalues, Hcol, Hm, HM, <- Hflag.
  destruct (reversal_flag V j) eqn:Eflag; cbn [when].
  - unfold reverse_bss_component, bindM, update.
    rewrite HsF. cbn [not_none bind].
    rewrite (negate_column_step V HF Hj Eflag). cbn [bind bss_loadings set_bss_factors].
    rewrite HsL. cbn [not_none bind].
    rewrite (negate_column_step V HL Hj Eflag).
    cbn [bind unmixing_matrix set_bss_loadings set_bss_factors].
    rewrite HsW. cbn [not_none bind].
    rewrite (@negate_row_step V j W) by (assumption || lia).
    cbn [bind]. eexists. split; [reflexivity|].
    unfold reversed_state. simpl. auto.
  - exists lr. split; [reflexivity|]. unfold reversed_state.
    rewrite HsF, HsL, HsW. repeat split; f_equal.
    + apply reverse_columns_ext with k; [exact HF|].
      intros i _. symmetry. apply reversed_upto_skip, Eflag.
    + apply reverse_columns_ext with k; [exact HL|].
      intros i _. symmetry. apply reversed_upto_skip, Eflag.
    + apply reverse_rows_ext.
      intros i _. symmetry. apply reversed_upto_skip, Eflag.
Qed.

Lemma auto_reverse_loop_ok (n j : nat) (lr : LearningResults) :
  (j + n <= k)%nat ->
  reversed_state V F L W j lr ->
  exists lr',
    for_each (auto_reverse_step criterion) (seq j n) lr = (lr', Ok tt) /\
    reversed_state V F L W (j + n) lr'.
Proof.
  revert j lr. induction n as [|n IH]; intros j lr Hjn Hs.
  - exists lr. rewrite Nat.add_0_r. split; [reflexivity | exact Hs].
  - destruct (@auto_reverse_step_ok j lr) as (lr1 & H1 & Hs1); [lia | exact Hs |].
    destruct (IH (S j) lr1) as (lr2 & H2 & Hs2); [lia | exact Hs1 |].
    exists lr2. split.
    + cbn [seq for_each]. unfold bindM. rewrite H1. exact H2.
    + replace (j + S n)%nat with (S j + n)%nat by lia. exact Hs2.
Qed.

End AutoReverse.

Lemma mapi_from_id {A} (f : nat -> A -> A) (n : nat) (l : list A) :
  (forall i x, f i x = x) -> mapi_from f n l = l.
Proof.
  intros H. revert n. induction l as [|x l IH]; intros n; simpl; [reflexivity|].
  rewrite H, IH. reflexivity.
Qed.

Lemma reversed_state_start (V F L W : matrix) (lr : LearningResults) :
  bss_factors lr = Some F -> bss_loadings lr = Some L ->
  unmixing_matrix lr = Some W ->
  reversed_state V F L W 0 lr.
Proof.
  intros HF HL HW. unfold reversed_state, reverse_columns, reverse_rows.
  rewrite HF, HL, HW. repeat split; f_equal.
  - rewrite <- (map_id F) at 1. apply map_ext. intros r.
    symmetry. apply mapi_from_id. reflexivity.
  - rewrite <- (map_id L) at 1. apply map_ext. intros r.
    symmetry. apply mapi_from_id. reflexivity.
  - symmetry. apply mapi_from_id. reflexivity.
Qed.

Lemma reversal_criterion_example_1 :
  reversal_criterion [Fin (-5); Fin 1; Fin 2] = Ok true.
Proof.
  unfold reversal_criterion, np_nanmin, np_nanmax.
  cbn [filter not_nan isnan negb fold_left bind].
  unfold fminimum, fmaximum. cbn [isnan fltb]. decide_reals.
  cbn [isnan fltb]. decide_reals.
  unfold fgtb. cbn [fabs fltb]. rewrite (Rabs_left (-5)) by lra.
  decide_reals. reflexivity.
Qed.

Lemma reversal_criterion_example_2 :
  reversal_criterion [Fin (-1); Fin 5; Fin 2] = Ok false.
Proof.
  unfold reversal_criterion, np_nanmin, np_nanmax.
  cbn [filter not_nan isnan negb fold_left bind].
  unfold fminimum, fmaximum. cbn [isnan fltb]. decide_reals.
  cbn [isnan fltb]. decide_reals.
  unfold fgtb. cbn [fabs fltb]. rewrite (Rabs_left (-1)) by lra.
  decide_reals. reflexivity.
Qed.

(** C6.  Let the reference array be [bss_factors] or [bss_loadings], as
    [reverse_component_criterion] says.  For every component [i], with
    [m] and [M] the minimum and the maximum of column [i] of the
    reference array, NaN ignored, the pass negates column [i] of
    [bss_factors] and of [bss_loadings] and row [i] of the unmixing
    matrix if [m < 0] and [|m| > M], and leaves them as they are if not.
    In particular the column [-5, 1, 2] is negated and the column
    [-1, 5, 2] is not.  (The arrays are numpy arrays with one column per
    component and at least one row.) *)
Theorem auto_reverse_bss_component_criterion :
  (forall (criterion : string) (lr : LearningResults) (F L W V : matrix)
          (k : nat),
      bss_factors lr = Some F ->
      bss_loadings lr = Some L ->
      unmixing_matrix lr = Some W ->
      reference_array criterion lr = Some V ->
      rect k F -> rect k L -> F <> [] -> V <> [] -> (k <= length W)%nat ->
      exists lr' F' L' W',
        _auto_reverse_bss_component criterion lr = (lr', Ok tt) /\
        bss_factors lr' = Some F' /\
        bss_loadings lr' = Some L' /\
        unmixing_matrix lr' = Some W' /\
        forall i, (i < k)%nat ->
          exists b,
            reversal_criterion (column NaN i V) = Ok b /\
            column NaN i F'
            = (if b then map fneg (column NaN i F) else column NaN i F) /\
            column NaN i L'
            = (if b then map fneg (column NaN i L) else column NaN i L) /\
            nth i W' []
            = (if b then map fneg (nth i W []) else nth i W [])) /\
  reversal_criterion [Fin (-5); Fin 1; Fin 2] = Ok true /\
  reversal_criterion [Fin (-1); Fin 5; Fin 2] = Ok false.
Proof.
  split; [|split; [apply reversal_criterion_example_1
                  | apply reversal_criterion_example_2]].
  intros criterion lr F L W V k HF HL HW Href HrF HrL HneF HneV HkW.
  assert (Hcrit : (criterion = "factors"%string /\ V = F) \/
                  (criterion = "loadings"%string /\ V = L)).
  { unfold reference_array in Href.
    destruct (String.eqb criterion "factors") eqn:E1.
    - apply String.eqb_eq in E1. left. split; [exact E1 | congruence].
    - destruct (String.eqb criterion "loadings") eqn:E2; [|discriminate].
      apply String.eqb_eq in E2. right. split; [exact E2 | congruence]. }
  assert (Hk : ncols F = k).
  { destruct F as [|r F0]; [congruence|]. inversion HrF; subst. reflexivity. }
  destruct (@auto_reverse_loop_ok criterion F L W V k Hcrit HrF HrL HneV HkW
              k 0 lr) as (lr' & Hloop & HsF & HsL & HsW).
  { lia. }
  { apply reversed_state_start; assumption. }
  exists lr', (reverse_columns (reversed_upto V k) F),
    (reverse_columns (reversed_upto V k) L),
    (reverse_rows (reversed_upto V k) W).
  split.
  { unfold _auto_reverse_bss_component, bindM, get, lift.
    rewrite HF. cbn [not_none]. rewrite Hk. exact Hloop. }
  split; [exact HsF|]. split; [exact HsL|]. split; [exact HsW|].
  intros i Hi.
  assert (Hne : column NaN i V <> []).
  { unfold column. destruct V; [congruence | discriminate]. }
  destruct (nan_reductions_ok Hne) as (m & M & Hm & HM).
  exists (reversal_flag V i).
  assert (Hup : reversed_upto V k i = reversal_flag V i).
  { unfold reversed_upto.
    replace (i <? k)%nat with true by (symmetry; apply Nat.ltb_lt; exact Hi).
    reflexivity. }
  assert (Hcols : forall X, rect k X ->
            column NaN i (reverse_columns (reversed_upto V k) X)
            = (if reversal_flag V i then map fneg (column NaN i X)
               else column NaN i X)).
  { intros X HX. unfold reverse_columns. rewrite column_mapi_from.
    - rewrite Hup. destruct (reversal_flag V i).
      + apply map_ext. intros x. apply times_minus_one_fneg.
      + apply map_id.
    - unfold rect in HX. rewrite Forall_forall in *. intros r Hr.
      rewrite (HX r Hr). exact Hi. }
  split.
  { unfold reversal_flag, reversal_criterion. rewrite Hm, HM. reflexivity. }
  split; [apply Hcols, HrF|]. split; [apply Hcols, HrL|].
  unfold reverse_rows. rewrite mapi_from_nth by lia. cbn [Nat.add].
  rewrite Hup. destruct (reversal_flag V i); [|reflexivity].
  apply map_ext. intros x. apply times_minus_one_fneg.
Qed.

Lemma auto_reverse_bss_component_criterion_witness :
  exists lr' F' W',
    _auto_reverse_bss_component "factors" bss_results = (lr', Ok tt) /\
    bss_factors lr' = Some F' /\
    unmixing_matrix lr' = Some W' /\
    column NaN 0 F' = map fneg [Fin (-5); Fin 1; Fin 2] /\
    column NaN 1 F' = [Fin (-1); Fin 5; Fin 2] /\
    nth 0 W' [] = map fneg [Fin 1; Fin 2] /\
    nth 1 W' [] = [Fin 3; Fin 4].
Proof.
  destruct (proj1 auto_reverse_bss_component_criterion
              "factors"%string bss_results
              [[Fin (-5); Fin (-1)]; [Fin 1; Fin 5]; [Fin 2; Fin 2]]
              [[Fin 1; Fin 1]; [Fin 2; Fin 2]]
              [[Fin 1; Fin 2]; [Fin 3; Fin 4]]
              [[Fin (-5); Fin (-1)]; [Fin 1; Fin 5]; [Fin 2; Fin 2]]
              2%nat
              eq_refl eq_refl eq_refl eq_refl)
    as (lr' & F' & L' & W' & Hrun & HF' & _ & HW' & Hcols).
  - repeat constructor.
  - repeat constructor.
  - discriminate.
  - discriminate.
  - simpl. lia.
  - exists lr', F', W'. split; [exact Hrun|]. split; [exact HF'|].
    split; [exact HW'|].
    destruct (Hcols 0%nat ltac:(lia)) as (b0 & Hb0 & Hc0 & _ & Hw0).
    destruct (Hcols 1%nat ltac:(lia)) as (b1 & Hb1 & Hc1 & _ & Hw1).
    cbn [column map nth] in Hb0, Hb1.
    rewrite reversal_criterion_example_1 in Hb0.
    rewrite reversal_criterion_example_2 in Hb1.
    inversion Hb0; subst b0. inversion Hb1; subst b1.
    repeat split; assumption.
Defined.

(** ** Normalization of the components *)

Lemma inplace_rowwise_rect (f : float -> float -> float) (k : nat)
  (m : matrix) (v : vector) :
  rect k m -> length v = k ->
  inplace_rowwise f m v = Ok (scale_columns f v m).
Proof.
  intros Hm Hv. unfold inplace_rowwise, scale_columns.
  assert (Hall : forallb (fun r => (length r =? length v)%nat) m = true).
  { apply forallb_forall. intros r Hr. unfold rect in Hm.
    rewrite Forall_forall in Hm. rewrite (Hm r Hr), Hv. apply Nat.eqb_refl. }
  destruct v as [|y [|z v]]; rewrite ?Hall; try reflexivity.
  f_equal. apply map_ext_in. intros r Hr.
  unfold rect in Hm. rewrite Forall_forall in Hm. specialize (Hm r Hr).
  simpl in Hv. subst k. destruct r as [|x [|x' r]]; try discriminate.
  reflexivity.
Qed.

Lemma scale_columns_rect (f : float -> float -> float) (k : nat)
  (m : matrix) (v : vector) :
  rect k m -> length v = k -> rect k (scale_columns f v m).
Proof.
  intros Hm Hv. unfold rect, scale_columns in *. apply Forall_forall.
  intros r Hr. apply in_map_iff in Hr. destruct Hr as (r0 & <- & Hr0).
  rewrite Forall_forall in Hm.
  rewrite length_map, length_combine, (Hm r0 Hr0), Hv. apply Nat.min_id.
Qed.

Lemma scale_columns_column (f : float -> float -> float) (k i : nat)
  (m : matrix) (v : vector) :
  rect k m -> length v = k -> (i < k)%nat ->
  column NaN i (scale_columns f v m)
  = map (fun x => f x (nth i v NaN)) (column NaN i m).
Proof.
  intros Hm Hv Hi. unfold column, scale_columns. rewrite !map_map.
  apply map_ext_in. intros r Hr.
  unfold rect in Hm. rewrite Forall_forall in Hm. specialize (Hm r Hr).
  rewrite (nth_indep _ NaN (f NaN NaN))
    by (rewrite length_map, length_combine; lia).
  rewrite (map_nth (fun p => f (fst p) (snd p)) (combine r v) (NaN, NaN)).
  rewrite combine_nth by lia. reflexivity.
Qed.

Lemma normalize_components_ok (function : matrix -> vector)
  (T O : matrix) (k : nat) :
  rect k T -> rect k O -> length (function T) = k ->
  _normalize_components T (Some O) function
  = (scale_columns fdiv (function T) T,
     Some (scale_columns fmul (function T) O), Ok tt).
Proof.
  intros HT HO Hc. unfold _normalize_components.
  rewrite (@inplace_rowwise_rect fdiv k T (function T) HT Hc).
  rewrite (@inplace_rowwise_rect fmul k O (function T) HO Hc). reflexivity.
Qed.

(** C10, amended.  With one coefficient [function(target, axis=0)] per
    component, whatever their values, [normalize_decomposition_components]
    and [normalize_bss_components] return normally, divide each column [i]
    of the target array by its coefficient and multiply column [i] of the
    other array by the same coefficient. *)
Theorem normalize_components_scale_columns :
  (forall (target : string) (function : matrix -> vector)
          (lr : LearningResults) (F L : matrix) (k : nat),
      factors lr = Some F -> loadings lr = Some L ->
      rect k F -> rect k L ->
      target = "factors"%string \/ target = "loadings"%string ->
      let T := fst (target_and_other target F L) in
      let O := snd (target_and_other target F L) in
      length (function T) = k ->
      exists lr' F' L',
        normalize_decomposition_components target function lr = (lr', Ok tt) /\
        factors lr' = Some F' /\ loadings lr' = Some L' /\
        (forall i, (i < k)%nat ->
           column NaN i (fst (target_and_other target F' L'))
           = map (fun x => fdiv x (nth i (function T) NaN)) (column NaN i T) /\
           column NaN i (snd (target_and_other target F' L'))
           = map (fun x => fmul x (nth i (function T) NaN)) (column NaN i O))) /\
  (forall (target : string) (function : matrix -> vector)
          (lr : LearningResults) (F L : matrix) (k : nat),
      bss_factors lr = Some F -> bss_loadings lr = Some L ->
      rect k F -> rect k L ->
      target = "factors"%string \/ target = "loadings"%string ->
      let T := fst (target_and_other target F L) in
      let O := snd (target_and_other target F L) in
      length (function T) = k ->
      exists lr' F' L',
        normalize_bss_components target function lr = (lr', Ok tt) /\
        bss_factors lr' = Some F' /\ bss_loadings lr' = Some L' /\
        (forall i, (i < k)%nat ->
           column NaN i (fst (target_and_other target F' L'))
           = map (fun x => fdiv x (nth i (function T) NaN)) (column NaN i T) /\
           column NaN i (snd (target_and_other target F' L'))
           = map (fun x => fmul x (nth i (function T) NaN)) (column NaN i O))).
Proof.
  split.
  - intros target function lr F L k HF HL HrF HrL [-> | ->];
      cbn [target_and_other String.eqb fst snd]; cbv zeta;
      change ("factors" =? "factors")%string with true;
      change ("loadings" =? "factors")%string with false;
      cbn [fst snd]; intros Hc.
    + exists (set_loadings (Some (scale_columns fmul (function F) L))
                (set_factors (Some (scale_columns fdiv (function F) F)) lr)),
        (scale_columns fdiv (function F) F),
        (scale_columns fmul (function F) L).
      split.
      { unfold normalize_decomposition_components.
        change ("factors" =? "factors")%string with true. cbv iota.
        rewrite HF, HL, (@normalize_components_ok function F L k HrF HrL Hc).
        reflexivity. }
      split; [reflexivity|]. split; [reflexivity|].
      intros i Hi. split; apply scale_columns_column with k; assumption.
    + exists (set_factors (Some (scale_columns fmul (function L) F))
                (set_loadings (Some (scale_columns fdiv (function L) L)) lr)),
        (scale_columns fmul (function L) F),
        (scale_columns fdiv (function L) L).
      split.
      { unfold normalize_decomposition_components.
        change ("loadings" =? "factors")%string with false.
        change ("loadings" =? "loadings")%string with true. cbv iota.
        rewrite HL, HF, (@normalize_components_ok function L F k HrL HrF Hc).
        reflexivity. }
      split; [reflexivity|]. split; [reflexivity|].
      intros i Hi. split; apply scale_columns_column with k; assumption.
  - intros target function lr F L k HF HL HrF HrL [-> | ->];
      cbn [target_and_other String.eqb fst snd]; cbv zeta;
      change ("factors" =? "factors")%string with true;
      change ("loadings" =? "factors")%string with false;
      cbn [fst snd]; intros Hc.
    + exists (set_bss_loadings (Some (scale_columns fmul (function F) L))
                (set_bss_factors (Some (scale_columns fdiv (function F) F)) lr)),
        (scale_columns fdiv (function F) F),
        (scale_columns fmul (function F) L).
      split.
      { unfold normalize_bss_components.
        change ("factors" =? "factors")%string with true. cbv iota.
        rewrite HF, HL, (@normalize_components_ok function F L k HrF HrL Hc).
        reflexivity. }
      split; [reflexivity|]. split; [reflexivity|].
      intros i Hi. split; apply scale_columns_column with k; assumption.
    + exists (set_bss_factors (Some (scale_columns fmul (function L) F))
                (set_bss_loadings (Some (scale_columns fdiv (function L) L)) lr)),
        (scale_columns fmul (function L) F),
        (scale_columns fdiv (function L) L).
      split.
      { unfold normalize_bss_components.
        change ("loadings" =? "factors")%string with false.
        change ("loadings" =? "loadings")%string with true. cbv iota.
        rewrite HL, HF, (@normalize_components_ok function L F k HrL HrF Hc).
        reflexivity. }
      split; [reflexivity|]. split; [reflexivity|].
      intros i Hi. split; apply scale_columns_column with k; assumption.
Qed.

Lemma normalize_components_scale_columns_witness :
  (exists lr' F' L',
      normalize_decomposition_components "factors" np_sum_axis0 fit_results
      = (lr', Ok tt) /\
      factors lr' = Some F' /\ loadings lr' = Some L' /\
      column NaN 1 F'
      = map (fun x => fdiv x (nth 1 (np_sum_axis0 [[Fin 1; Fin 2]; [Fin 3; Fin 6]]) NaN))
          [Fin 2; Fin 6] /\
      column NaN 1 L'
      = map (fun x => fmul x (nth 1 (np_sum_axis0 [[Fin 1; Fin 2]; [Fin 3; Fin 6]]) NaN))
          [Fin 3; Fin 7; Fin 1]) /\
  (exists lr' F' L',
      normalize_bss_components "loadings" np_sum_axis0 bss_results
      = (lr', Ok tt) /\
      bss_factors lr' = Some F' /\ bss_loadings lr' = Some L' /\
      column NaN 0 L'
      = map (fun x => fdiv x (nth 0 (np_sum_axis0 [[Fin 1; Fin 1]; [Fin 2; Fin 2]]) NaN))
          [Fin 1; Fin 2] /\
      column NaN 0 F'
      = map (fun x => fmul x (nth 0 (np_sum_axis0 [[Fin 1; Fin 1]; [Fin 2; Fin 2]]) NaN))
          [Fin (-5); Fin 1; Fin 2]).
Proof.
  destruct normalize_components_scale_columns as [Hd Hb].
  split.
  - destruct (Hd "factors"%string np_sum_axis0 fit_results
                [[Fin 1; Fin 2]; [Fin 3; Fin 6]]
                [[Fin 1; Fin 3]; [Fin 5; Fin 7]; [Fin 0; Fin 1]]
                2%nat eq_refl eq_refl)
      as (lr' & F' & L' & Hrun & HF & HL & Hcol).
    + repeat constructor.
    + repeat constructor.
    + left; reflexivity.
    + reflexivity.
    + exists lr', F', L'. split; [exact Hrun|]. split; [exact HF|].
      split; [exact HL|]. exact (Hcol 1%nat ltac:(lia)).
  - destruct (Hb "loadings"%string np_sum_axis0 bss_results
                [[Fin (-5); Fin (-1)]; [Fin 1; Fin 5]; [Fin 2; Fin 2]]
                [[Fin 1; Fin 1]; [Fin 2; Fin 2]]
                2%nat eq_refl eq_refl)
      as (lr' & F' & L' & Hrun & HF & HL & Hcol).
    + repeat constructor.
    + repeat constructor.
    + right; reflexivity.
    + reflexivity.
    + exists lr', F', L'. split; [exact Hrun|]. split; [exact HF|].
      split; [exact HL|]. exact (Hcol 0%nat ltac:(lia)).
Defined.

(** C10 as the specification states it fails: an infinite coefficient is
    not zero, and with it the reconstruction changes.  The factors
    [[inf], [1]] have the column sum [inf]; dividing gives [[NaN], [0]],
    the loadings [[2]] become [[inf]], and the product, [[inf], [2]]
    before the call, is [[NaN], [NaN]] after it. *)
Lemma normalize_components_change_reconstruction :
  np_sum_axis0 [[PInf]; [Fin 1]] = [PInf] /\
  reconstruction [[PInf]; [Fin 1]] [[Fin 2]] = [[PInf]; [Fin 2]] /\
  exists lr',
    normalize_decomposition_components "factors" np_sum_axis0 results_with_inf
    = (lr', Ok tt) /\
    factors lr' = Some [[NaN]; [Fin 0]] /\
    loadings lr' = Some [[PInf]] /\
    reconstruction [[NaN]; [Fin 0]] [[PInf]] = [[NaN]; [NaN]].
Proof.
  assert (H2 : inf_of_sign 2 = PInf).
  { unfold inf_of_sign. rewrite Rltb_true by lra. reflexivity. }
  assert (H0 : inf_of_sign 0 = NaN).
  { unfold inf_of_sign. rewrite Rltb_false by lra. reflexivity. }
  split; [reflexivity|]. split.
  - unfold reconstruction, dot, np_sum.
    cbn [map combine fst snd fmul fold_left fadd].
    rewrite H2. replace (0 + 1 * 2) with 2 by lra. reflexivity.
  - eexists. split; [|split; [|split]].
    + unfold normalize_decomposition_components, results_with_inf.
      cbn. rewrite H2. reflexivity.
    + reflexivity.
    + reflexivity.
    + unfold reconstruction, dot, np_sum.
      cbn [map combine fst snd fmul fold_left fadd]. rewrite H0. reflexivity.
Qed.
(** ** More about decomposition *)

Lemma variance_ratio_single (v : float) :
  variance_ratio (Some [v]) = Raise argmax_of_nothing.
Proof. reflexivity. Qed.

Lemma finally_clause_results (copy : bool) (target : LearningResults)
  (s s' : Signal) (r : result unit) :
  finally_clause copy target s = (s', r) ->
  learning_results s' = dict_update (learning_results s) target.
Proof.
  unfold finally_clause, undo_treatments. intros H.
  destruct copy, (_unfolded4decomposition s);
    cbn in H; try destruct (_data_before_treatments s);
    inversion H; subst; reflexivity.
Qed.

(** A fit that yields exactly one explained-variance value makes the call
    fail: the elbow estimate on the one-point ratio takes [np.argmax] of
    an empty array.  The call raises that [ValueError], the stored
    results are those of a fresh [LearningResults()], and under
    [copy=True] the data is what it was. *)
Theorem decomposition_single_variance_fails (B : Backends) (a : Args.t)
  (s s1 : Signal) (p : prelude) (dc : matrix) (sm nm : selector)
  (data_ : matrix) (fo : fit_out) (v : float) :
  validate B a s = Ok p ->
  prepare p a (enter a s) = (s1, Ok (dc, sm, nm, data_)) ->
  fit_of B p a data_ = Ok fo ->
  fo_explained_variance fo = Some [v] ->
  exists s',
    decomposition B a s = (s', Raise argmax_of_nothing) /\
    class_of argmax_of_nothing = ValueError /\
    learning_results s'
    = dict_update (learning_results s) LearningResults_init /\
    (Args.copy a = true -> data s' = data s).
Proof.
  intros Hv Hp Hfit Hev.
  assert (Hstage : fit_stage B p a data_ = Raise argmax_of_nothing).
  { unfold fit_stage. unfold fit_of in Hfit. rewrite Hfit. cbn [bind].
    rewrite Hev. reflexivity. }
  destruct (decomposition B a s) as [s' r] eqn:Hd.
  destruct (decomposition_after_validation _ _ _ Hv Hd)
    as (s2 & target & out & Htry & Hlr & Hc1 & Hc2 & _).
  unfold try_body in Htry. rewrite Hp, Hstage in Htry.
  inversion Htry; subst. exists s'.
  assert (Hr : r = Raise argmax_of_nothing).
  { destruct (Args.copy a); [apply Hc1 | apply Hc2]; reflexivity. }
  subst r. repeat split; try assumption.
  intros Hcopy. apply Hc1, Hcopy.
Qed.

Lemma decomposition_single_variance_fails_witness :
  let s := sample_signal data_2x3 3 earlier_results in
  let a := call "mlpca" (Some 1%Z) None None in
  exists s',
    decomposition one_component_backends a s = (s', Raise argmax_of_nothing) /\
    class_of argmax_of_nothing = ValueError /\
    learning_results s'
    = dict_update (learning_results s) LearningResults_init /\
    (Args.copy a = true -> data s' = data s).
Proof.
  intros s a.
  apply (@decomposition_single_variance_fails one_component_backends a s
           (enter a s)
           {| algorithm' := Name "mlpca"; svd_solver' := "auto";
              is_sklearn_like := false; estim := None |}
           data_2x3 SliceAll SliceAll data_2x3
           {| fo_factors := [[Fin 1]; [Fin 0]; [Fin 0]];
              fo_loadings := [[fmul (Fin 1) (Fin 6)]; [fmul (Fin 0) (Fin 6)]];
              fo_explained_variance :=
                Some (variance_of_singular_values [Fin 6]
                        [[Fin 1]; [Fin 0]; [Fin 0]]);
              fo_mean := None; fo_centre := None;
              fo_to_return := None; fo_fitted := None |}
           (fdiv (fmul (Fin 6) (Fin 6)) (Fin (INR 3))));
    vm_compute; reflexivity.
Defined.

(** A deprecated algorithm name is only another way to write the call:
    the call with [fast_svd], [fast_mlpca], [RPCA_GoDec], [ORPCA] or
    [ORNMF] leaves the signal in the same state and returns or raises the
    same as the call with the new name ([svd], [mlpca], [rpca], [orpca],
    [ornmf]) and, for the two [fast_] names, [svd_solver="randomized"]. *)
Theorem decomposition_deprecated_names (B : Backends) (a : Args.t)
  (s : Signal) (old : string) :
  Args.algorithm a = Name old ->
  In old ["fast_svd"; "fast_mlpca"; "RPCA_GoDec"; "ORPCA"; "ORNMF"]%string ->
  decomposition B a s = decomposition B (deprecated_call old a) s /\
  In (Args.algorithm (deprecated_call old a))
     [Name "svd"; Name "mlpca"; Name "rpca"; Name "orpca"; Name "ornmf"] /\
  (In old ["fast_svd"; "fast_mlpca"]%string ->
   Args.svd_solver (deprecated_call old a) = "randomized"%string).
Proof.
  intros Ha Hin. destruct a as [npn alg od ce at_ nmk smk va vf rp ri sv cp pf].
  cbn [Args.algorithm] in Ha. subst alg.
  cbn [In] in Hin.
  destruct Hin as [<-|[<-|[<-|[<-|[<-|[]]]]]];
    (split; [|split; [cbn; auto 10 | try (intros _; reflexivity)]]).
  all: try (intros [H|[H|[]]]; discriminate H).
  all: unfold decomposition, deprecated_call, validate.
  all: cbn [Args.algorithm Args.output_dimension Args.svd_solver
            algorithms_deprecated is_name String.eqb Ascii.eqb Bool.eqb
            with_algorithm renamed contains].
  all: destruct (dtype_is_float s); [|reflexivity].
  all: destruct (navigation_size s <? 2)%nat; [reflexivity|].
  all: cbn -[try_body finally_clause enter].
  all: try reflexivity.
  all: destruct od; reflexivity.
Qed.

Lemma decomposition_deprecated_names_witness :
  let a := call "fast_svd" None None None in
  let s := sample_signal data_2x2 2 earlier_results in
  decomposition sample_backends a s
  = decomposition sample_backends (deprecated_call "fast_svd" a) s /\
  In (Args.algorithm (deprecated_call "fast_svd" a))
     [Name "svd"; Name "mlpca"; Name "rpca"; Name "orpca"; Name "ornmf"] /\
  (In "fast_svd"%string ["fast_svd"; "fast_mlpca"]%string ->
   Args.svd_solver (deprecated_call "fast_svd" a) = "randomized"%string).
Proof.
  intros a s.
  apply (@decomposition_deprecated_names sample_backends a s "fast_svd").
  - reflexivity.
  - simpl. auto.
Defined.

(** With MLPCA the noise normalization is switched off: the call with
    [algorithm="mlpca"] (or its deprecated name) and
    [normalize_poissonian_noise=True] leaves the signal in the same state
    and returns or raises the same as the call with
    [normalize_poissonian_noise=False]. *)
Theorem decomposition_mlpca_without_normalization (B : Backends)
  (a : Args.t) (s : Signal) :
  renamed (Args.algorithm a) = Name "mlpca" ->
  decomposition B a s = decomposition B (with_normalize false a) s.
Proof.
  intros Ha. destruct a as [npn alg od ce at_ nmk smk va vf rp ri sv cp pf].
  cbn [Args.algorithm] in Ha.
  unfold decomposition.
  change (validate B (with_normalize false
                        (Args.Build_t npn alg od ce at_ nmk smk va vf rp ri sv cp pf)) s)
    with (validate B (Args.Build_t npn alg od ce at_ nmk smk va vf rp ri sv cp pf) s).
  destruct (validate B _ s) as [p|e] eqn:Ev; [|reflexivity].
  destruct (validate_ok _ _ _ Ev) as (_ & _ & Hp & _).
  cbn [Args.algorithm] in Hp. rewrite Ha in Hp.
  assert (He : forall n, effective_normalize p
                 (Args.Build_t n alg od ce at_ nmk smk va vf rp ri sv cp pf)
               = if n then false else false).
  { intros n. unfold effective_normalize. rewrite Hp.
    cbn [Args.normalize_poissonian_noise]. destruct n; reflexivity. }
  unfold try_body, prepare, store_results, with_normalize.
  cbn [Args.normalize_poissonian_noise Args.algorithm Args.output_dimension
       Args.centre Args.auto_transpose Args.navigation_mask Args.signal_mask
       Args.var_array Args.var_func Args.reproject Args.return_info
       Args.svd_solver Args.copy Args.polyfit].
  rewrite !He. destruct npn; reflexivity.
Qed.

Lemma decomposition_mlpca_without_normalization_witness :
  let a := with_normalize true (call "mlpca" (Some 2%Z) None None) in
  let s := sample_signal data_2x3 3 earlier_results in
  decomposition sample_backends a s
  = decomposition sample_backends (with_normalize false a) s.
Proof.
  intros a s.
  apply (@decomposition_mlpca_without_normalization sample_backends a s).
  reflexivity.
Defined.

(** [decomposition] leaves no snapshot of the data behind.  A signal
    without [_data_before_treatments] has none after the call, whatever
    the arguments and however the call ends (under [copy=True] the
    [finally] clause has used and deleted it), so [undo_treatments]
    called after it raises [AttributeError] and changes nothing. *)
Theorem decomposition_leaves_no_snapshot (B : Backends) (a : Args.t)
  (s s' : Signal) (r : result (option info)) :
  _data_before_treatments s = None ->
  decomposition B a s = (s', r) ->
  _data_before_treatments s' = None /\
  undo_treatments s' = (s', Raise E_undo_unavailable) /\
  class_of E_undo_unavailable = AttributeError.
Proof.
  intros Hnone H.
  assert (Hs : _data_before_treatments s' = None).
  { unfold decomposition in H.
    destruct (validate B a s) as [p|e]; [|inversion H; subst; exact Hnone].
    destruct (try_body B p a (enter a s) LearningResults_init)
      as [[s1 target] out] eqn:Etry.
    pose proof (try_body_frame _ _ _ _ _ Etry) as (_ & Hsnap & _).
    unfold finally_clause, undo_treatments in H.
    assert (He : _data_before_treatments (enter a s)
                 = if Args.copy a then Some (data s) else None).
    { unfold enter. destruct (Args.copy a); cbn; [reflexivity | exact Hnone]. }
    rewrite He in Hsnap.
    destruct (Args.copy a), (_unfolded4decomposition s1);
      cbn in H; rewrite ?Hsnap in H; inversion H; subst; cbn;
      try reflexivity; exact Hsnap. }
  split; [exact Hs|]. split; [|reflexivity].
  unfold undo_treatments. rewrite Hs. reflexivity.
Qed.

Lemma decomposition_leaves_no_snapshot_witness :
  let s := sample_signal data_2x2 2 earlier_results in
  let out := decomposition sample_backends (call "svd" None None None) s in
  _data_before_treatments (fst out) = None /\
  undo_treatments (fst out) = (fst out, Raise E_undo_unavailable) /\
  class_of E_undo_unavailable = AttributeError.
Proof.
  intros s out.
  apply (@decomposition_leaves_no_snapshot sample_backends
           (call "svd" None None None) s (fst out) (snd out)).
  - reflexivity.
  - unfold out. destruct (decomposition _ _ _); reflexivity.
Defined.

(** ** The variance ratio *)

Lemma fold_fadd_Fin (rs : list R) (a : R) :
  fold_left fadd (map Fin rs) (Fin a) = Fin (fold_left Rplus rs a).
Proof.
  revert a. induction rs as [|r rs IH]; intros a; [reflexivity|].
  cbn [map fold_left fadd]. apply IH.
Qed.

Lemma fold_Rplus_shift (rs : list R) (a : R) :
  fold_left Rplus rs a = a + fold_left Rplus rs 0.
Proof.
  revert a. induction rs as [|r rs IH]; intros a; cbn [fold_left].
  - lra.
  - rewrite (IH (a + r)), (IH (0 + r)). lra.
Qed.

Lemma variance_ratio_some (ev ratio : option vector) (k : option nat) :
  variance_ratio ev = Ok (ratio, k) ->
  match ratio with
  | None => ev = None /\ k = None
  | Some r =>
      (2 <= length r)%nat /\
      (exists n, k = Some n /\ (1 <= n <= 20)%nat /\ (n < length r)%nat)
  end.
Proof.
  unfold variance_ratio. destruct ev as [ev|].
  2:{ intros H. inversion H; subst. auto. }
  set (r := map (fun x => fdiv x (np_sum ev)) ev).
  intros H. apply bind_ok in H. destruct H as (n & Hn & H).
  inversion H; subst ratio k; clear H.
  assert (Hlen : (2 <= length ev)%nat).
  { destruct ev as [|x [|y ev]]; [discriminate | discriminate | simpl; lia]. }
  assert (Hr : length r = length ev) by (unfold r; apply length_map).
  split; [rewrite Hr; exact Hlen|].
  destruct (elbow_of_curve_first_max r (max_points := 20))
    as (n' & Hn' & Hlt & _); [rewrite Hr; exact Hlen | lia |].
  unfold estimate_elbow_position in Hn. rewrite Hn' in Hn.
  inversion Hn; subst n'. exists (n + 1)%nat. split; [reflexivity|]. lia.
Qed.

Section RatioFacts.

Variable B : Backends.

Lemma store_results_ratio p a self dc sm nm fo ratio significant t t' u :
  store_results B p a self dc sm nm fo ratio significant t = (t', Ok u) ->
  ratio_is ratio significant t'.
Proof.
  intros H. unfold store_results, store_fit in H.
  apply bindM_ok in H. destruct H as (t1 & [] & H1 & H).
  apply bindM_ok in H1. destruct H1 as (t0 & [] & H0 & H1).
  inversion H0; subst t0; clear H0.
  assert (H1' : preserves (ratio_is ratio significant)
            (match Args.output_dimension a with
             | Some n =>
                 when (truthy (Args.output_dimension a)
                       && negb (Z.of_nat (ncols (fo_factors fo)) =? n)%Z)
                   (update (fun target => crop_decomposition_dimension target n))
             | None => ret tt
             end ;;;
             modify (set_unmixing_matrix None) ;;;
             modify (set_bss_algorithm None) ;;;
             when (_unfolded4decomposition self)
               (modify (set_original_shape
                          (Some (folding_original_shape self)))))%M).
  { preserves_fields ratio_is. }
  assert (Hrest : preserves (ratio_is ratio significant)
            (reproject <- reproject_results B dc (is_sklearn_like p) (estim p)
                            (Args.reproject a) sm nm fo ;;
             when (effective_normalize p a) (rescale_results self) ;;;
             store_signal_mask self dc reproject sm ;;;
             store_navigation_mask self dc reproject nm)%M).
  { unfold reproject_results, rescale_results, store_signal_mask,
      store_navigation_mask.
    preserves_fields ratio_is. }
  eapply Hrest; [|exact H]. eapply H1'; [|exact H1].
  split; reflexivity.
Qed.

End RatioFacts.

(** After a call of [decomposition] that returns normally with a variance
    ratio in the results, the ratio has at least two entries and the
    number of significant components is at least 1, at most 20 and
    smaller than the number of entries. *)
Theorem decomposition_variance_ratio (B : Backends) (a : Args.t)
  (s s' : Signal) (v : option info) (ratio : vector) :
  decomposition B a s = (s', Ok v) ->
  explained_variance_ratio (learning_results s') = Some ratio ->
  (2 <= length ratio)%nat /\
  (exists n, number_significant_components (learning_results s') = Some n /\
             (1 <= n <= 20)%nat /\ (n < length ratio)%nat).
Proof.
  intros H Hr.
  destruct (decomposition_ok_stages _ _ _ H)
    as (p & s1 & dc & sm & nm & data_ & fo & ratio' & sig & target
        & _ & _ & Hfit & Hstore & Hlr & _).
  apply store_results_ratio in Hstore. destruct Hstore as [Hs1 Hs2].
  rewrite Hlr in *. cbn [dict_update explained_variance_ratio
                         number_significant_components] in *.
  rewrite Hs1 in Hr. subst ratio'. rewrite Hs2.
  unfold fit_stage in Hfit.
  apply bind_ok in Hfit. destruct Hfit as (fo' & _ & Hfit).
  apply bind_ok in Hfit. destruct Hfit as ([r' k'] & Hvr & Hfit).
  inversion Hfit; subst; clear Hfit.
  exact (variance_ratio_some _ Hvr).
Qed.

Lemma decomposition_variance_ratio_witness :
  exists s' ratio,
    decomposition sample_backends (call "mlpca" (Some 2%Z) None None)
      (sample_signal data_2x3 3 LearningResults_init) = (s', Ok None) /\
    explained_variance_ratio (learning_results s') = Some ratio /\
    (2 <= length ratio)%nat /\
    (exists n, number_significant_components (learning_results s') = Some n /\
               (1 <= n <= 20)%nat /\ (n < length ratio)%nat).
Proof.
  destruct sample_mlpca_call as (s' & Hd & Hev & _).
  destruct (explained_variance_ratio (learning_results s')) as [ratio|] eqn:Er.
  - exists s', ratio. split; [exact Hd|]. split; [exact Er|].
    exact (decomposition_variance_ratio _ _ _ Hd Er).
  - exfalso.
    destruct (decomposition_ok_stages _ _ _ Hd)
      as (p & s1 & dc & sm & nm & data_ & fo & ratio' & sig & target
          & _ & _ & Hfit & Hstore & Hlr & _).
    pose proof (store_results_variance _ _ _ _ _ _ _ _ _ _ _ Hstore) as Hv.
    apply store_results_ratio in Hstore. destruct Hstore as [Hs1 _].
    rewrite Hlr in Er, Hev. cbn in Er, Hev. rewrite Hs1 in Er. subst ratio'.
    unfold fit_stage in Hfit.
    apply bind_ok in Hfit. destruct Hfit as (fo' & _ & Hfit).
    apply bind_ok in Hfit. destruct Hfit as ([r' k'] & Hvr & Hfit).
    inversion Hfit; subst; clear Hfit.
    apply variance_ratio_some in Hvr. destruct Hvr as [Hnone _].
    rewrite Hv in Hev. unfold stored_variance in Hev. rewrite Hnone in Hev.
    cbn in Hev. destruct (negb _); discriminate.
Defined.

(** ** Masked positions in the stored factors and loadings *)

Lemma expand_rows_length (keep : list bool) (block : matrix) (k : nat) :
  length (expand_rows keep block k) = length keep.
Proof.
  revert block. induction keep as [|b keep IH]; intros block; [reflexivity|].
  destruct b; cbn [expand_rows].
  - destruct block; cbn [length]; rewrite IH; reflexivity.
  - cbn [length]. rewrite IH. reflexivity.
Qed.

Lemma expand_rows_excluded (keep : list bool) (block : matrix) (k i : nat) :
  nth i keep true = false ->
  nth i (expand_rows keep block k) [] = repeat NaN k.
Proof.
  revert block i. induction keep as [|b keep IH]; intros block i Hi.
  - destruct i; discriminate.
  - destruct i as [|i]; cbn [nth] in Hi.
    + subst b. reflexivity.
    + destruct b; cbn [expand_rows]; [destruct block|]; cbn [nth];
        apply IH, Hi.
Qed.

Lemma fill_excluded_ok (n : nat) (keep : bool_array) (block F : matrix) :
  fill_excluded n (Sel keep) block = Ok F ->
  exists block', F = expand_rows (bflat keep) block' (ncols block).
Proof.
  unfold fill_excluded. destruct (negb _); [discriminate|].
  destruct (_ =? _)%nat.
  - intros H. inversion H. eauto.
  - destruct block as [|b [|b' block]]; try discriminate.
    intros H. inversion H. eauto.
Qed.

Lemma nan_row_repeat (k : nat) : nan_row (repeat NaN k).
Proof. unfold nan_row. induction k; constructor; auto. Qed.

Lemma in_list_swap (x : option string) (u v : string) :
  in_list x [u; v] = in_list x [v; u].
Proof.
  destruct x as [s|]; [|reflexivity]. cbn [in_list existsb].
  rewrite !orb_false_r. apply orb_comm.
Qed.

Section FillFacts.

Variable B : Backends.

(** Without reprojection of the signal space the local [reproject] stays
    what it was. *)
Lemma reproject_results_signal dc sk estim reproject sm nm fo t t' r :
  in_list reproject ["signal"; "both"]%string = false ->
  reproject_results B dc sk estim reproject sm nm fo t = (t', Ok r) ->
  r = reproject.
Proof.
  intros Hs H. unfold reproject_results in H. rewrite Hs in H.
  apply bindM_ok in H. destruct H as (t1 & [] & _ & H).
  inversion H. reflexivity.
Qed.

(** In the other cases it is still none of ["navigation"] and ["both"] if
    it was none of them. *)
Lemma reproject_results_navigation dc sk estim reproject sm nm fo t t' r :
  in_list reproject ["navigation"; "both"]%string = false ->
  reproject_results B dc sk estim reproject sm nm fo t = (t', Ok r) ->
  in_list r ["both"; "navigation"]%string = false.
Proof.
  intros Hn H. unfold reproject_results in H. rewrite Hn in H.
  cbn [when] in H.
  apply bindM_ok in H. destruct H as (t1 & [] & _ & H).
  rewrite in_list_swap in Hn.
  destruct (in_list reproject ["signal"; "both"]%string) eqn:Es.
  - destruct (negb sk).
    + apply bindM_ok in H. destruct H as (t2 & f' & _ & H).
      apply bindM_ok in H. destruct H as (t3 & [] & _ & H).
      inversion H; subst. exact Hn.
    + inversion H; subst.
      destruct (in_list reproject ["both"]%string); reflexivity.
  - inversion H; subst. exact Hn.
Qed.

Lemma store_signal_mask_fills self dc reproject keep t t' u :
  in_list reproject ["both"; "signal"]%string = false ->
  store_signal_mask self dc reproject (Sel keep) t = (t', Ok u) ->
  exists block k,
    factors t' = Some (expand_rows (bflat keep) block k).
Proof.
  intros Hr H. unfold store_signal_mask in H. rewrite Hr in H.
  cbn [negb when] in H.
  apply bindM_ok in H. destruct H as (t1 & [] & _ & H).
  unfold update in H.
  destruct (factors t1) as [f|]; [|discriminate].
  destruct (bind _ _) as [t2|e] eqn:E; [|discriminate].
  inversion H; subst t2; clear H.
  apply bind_ok in E. destruct E as (F & HF & E). inversion E; subst.
  apply fill_excluded_ok in HF. destruct HF as (block' & ->).
  cbn [factors set_factors]. eauto.
Qed.

Lemma store_navigation_mask_fills self dc reproject keep t t' u :
  in_list reproject ["both"; "navigation"]%string = false ->
  store_navigation_mask self dc reproject (Sel keep) t = (t', Ok u) ->
  exists block k,
    loadings t' = Some (expand_rows (bflat keep) block k).
Proof.
  intros Hr H. unfold store_navigation_mask in H. rewrite Hr in H.
  cbn [negb when] in H.
  apply bindM_ok in H. destruct H as (t1 & [] & _ & H).
  unfold update in H.
  destruct (loadings t1) as [l|]; [|discriminate].
  destruct (bind _ _) as [t2|e] eqn:E; [|discriminate].
  inversion H; subst t2; clear H.
  apply bind_ok in E. destruct E as (L & HL & E). inversion E; subst.
  apply fill_excluded_ok in HL. destruct HL as (block' & ->).
  cbn [loadings set_loadings]. eauto.
Qed.

Lemma store_navigation_mask_keeps_factors self dc reproject nm v :
  preserves (factors_is v) (store_navigation_mask self dc reproject nm).
Proof. unfold store_navigation_mask. preserves_fields factors_is. Qed.

End FillFacts.

Lemma nth_negb (l : list bool) (i : nat) :
  nth i (map negb l) true = negb (nth i l false).
Proof. exact (map_nth negb l false i). Qed.

(** A call of [decomposition] that returns normally stores factors with
    one row per channel when it is given a signal mask and does not
    reproject the signal space: the rows of the channels that the mask
    excludes hold NaN.  In the same way, with a navigation mask and no
    reprojection of the navigation space, the loadings have one row per
    navigation position, and the rows of the excluded positions hold
    NaN. *)
Theorem decomposition_masked_rows_are_nan (B : Backends) (a : Args.t)
  (s s' : Signal) (v : option info) :
  decomposition B a s = (s', Ok v) ->
  (forall m,
      Args.signal_mask a = Some m ->
      in_list (Args.reproject a) ["signal"; "both"]%string = false ->
      exists F,
        factors (learning_results s') = Some F /\
        length F = length (bflat m) /\
        forall i, nth i (bflat m) false = true -> nan_row (nth i F [])) /\
  (forall m,
      Args.navigation_mask a = Some m ->
      in_list (Args.reproject a) ["navigation"; "both"]%string = false ->
      exists L,
        loadings (learning_results s') = Some L /\
        length L = length (bflat m) /\
        forall i, nth i (bflat m) false = true -> nan_row (nth i L [])).
Proof.
  intros H.
  destruct (decomposition_ok_stages _ _ _ H)
    as (p & s1 & dc & sm & nm & data_ & fo & ratio & sig & target
        & _ & Hprep & _ & Hstore & Hlr & _).
  destruct (prepare_ok _ _ _ Hprep) as (_ & Hsm & Hnm & _).
  unfold store_results in Hstore.
  apply bindM_ok in Hstore. destruct Hstore as (t1 & [] & _ & Hstore).
  apply bindM_ok in Hstore. destruct Hstore as (t2 & r & H2 & Hstore).
  apply bindM_ok in Hstore. destruct Hstore as (t3 & [] & _ & Hstore).
  apply bindM_ok in Hstore. destruct Hstore as (t4 & [] & H4 & H5).
  rewrite Hlr. cbn [dict_update factors loadings]. split.
  - intros m Hm Hr. rewrite Hm in Hsm. cbn in Hsm. subst sm.
    pose proof (reproject_results_signal _ _ _ _ _ _ _ _ _ Hr H2) as ->.
    rewrite in_list_swap in Hr.
    destruct (store_signal_mask_fills _ _ _ _ _ Hr H4) as (block & k & HF).
    pose proof (store_navigation_mask_keeps_factors _ _ _ _ HF H5) as HF'.
    unfold factors_is in HF'. cbn [invert ravel bflat] in HF'.
    eexists. split; [exact HF'|]. split.
    + rewrite expand_rows_length, length_map. reflexivity.
    + intros i Hi. rewrite expand_rows_excluded.
      * apply nan_row_repeat.
      * rewrite nth_negb, Hi. reflexivity.
  - intros m Hm Hr. rewrite Hm in Hnm. cbn in Hnm. subst nm.
    pose proof (reproject_results_navigation _ _ _ _ _ _ _ _ _ Hr H2) as Hr'.
    destruct (store_navigation_mask_fills _ _ _ _ _ Hr' H5) as (block & k & HL).
    cbn [invert ravel bflat] in HL.
    eexists. split; [exact HL|]. split.
    + rewrite expand_rows_length, length_map. reflexivity.
    + intros i Hi. rewrite expand_rows_excluded.
      * apply nan_row_repeat.
      * rewrite nth_negb, Hi. reflexivity.
Qed.

Lemma decomposition_masked_rows_are_nan_witness :
  let a := call "svd" None (Some mask_last) (Some mask_first) in
  let out := decomposition sample_backends a signal_3x3 in
  (exists F,
      factors (learning_results (fst out)) = Some F /\
      length F = 3%nat /\
      forall i, nth i [true; false; false] false = true -> nan_row (nth i F [])) /\
  (exists L,
      loadings (learning_results (fst out)) = Some L /\
      length L = 3%nat /\
      forall i, nth i [false; false; true] false = true -> nan_row (nth i L [])).
Proof.
  intros a out.
  destruct (@decomposition_masked_rows_are_nan sample_backends a signal_3x3
              (fst out) None ltac:(vm_compute; reflexivity)) as [HF HL].
  split.
  - exact (HF mask_first eq_refl eq_refl).
  - exact (HL mask_last eq_refl eq_refl).
Defined.

(** ** More about the noise normalization *)

Lemma nan_to_num_finite (x : float) : finite (nan_to_num x).
Proof. destruct x; cbn [nan_to_num]; eexists; reflexivity. Qed.

(** When [normalize_poissonian_noise] raises, whatever the error, the
    data of the signal is what it was before the call, and so are the
    stored results. *)
Theorem normalize_poissonian_noise_failure_keeps_data (s s' : Signal)
  (nm sm : option bool_array) (e : exn) :
  normalize_poissonian_noise s nm sm = (s', Raise e) ->
  data s' = data s /\ learning_results s' = learning_results s.
Proof.
  intros H. split.
  2:{ apply normalize_poissonian_noise_frame in H. apply H. }
  destruct sm as [m|].
  { eapply normalize_with_signal_mask_keeps_data. exact H. }
  unfold normalize_poissonian_noise in H. cbn [include_selector] in H.
  set (nav := include_selector (option_map ravel nm)) in *.
  destruct (included_block (data s) SliceAll nav) as [block|e0] eqn:Hblock;
    [|inversion H; reflexivity].
  destruct (np_min (concat block)) as [m|e0]; [|inversion H; reflexivity].
  destruct (fleb m (Fin 0)); [inversion H; reflexivity|].
  destruct (sqrt_squeezed (sum_axis1 block)) as [ra|e0] eqn:Ea;
    [|inversion H; reflexivity].
  destruct (sqrt_squeezed (sum_axis0 block)) as [rb|e0] eqn:Eb;
    [|inversion H; reflexivity].
  exfalso.
  apply sqrt_squeezed_ok in Ea, Eb. subst ra rb.
  set (B1 := map2 fdiv block
               (outer (map fsqrt (sum_axis1 block)) (map fsqrt (sum_axis0 block))))
    in *.
  assert (HB1 : length B1 = length block).
  { unfold B1. apply map2_length. unfold outer, sum_axis1.
    rewrite !length_map. reflexivity. }
  rewrite included_block_rows in Hblock.
  rewrite (@setitem_chain_rows _ _ _ B1 Hblock) in H.
  cbn [data set_data set_root_aG set_root_bH] in H.
  rewrite included_block_rows in H.
  pose proof (@getitem_rows_setitem _ _ _ _ Hblock HB1) as Hget1.
  rewrite Hget1 in H.
  rewrite (@setitem_chain_rows _ _ _ (map (map nan_to_num) B1) Hget1) in H.
  discriminate.
Qed.

Lemma normalize_poissonian_noise_failure_keeps_data_witness :
  let s := sample_signal data_with_negative 2 earlier_results in
  data (fst (normalize_poissonian_noise s None None)) = data s /\
  learning_results (fst (normalize_poissonian_noise s None None))
  = learning_results s.
Proof.
  intros s.
  apply (@normalize_poissonian_noise_failure_keeps_data s
           (fst (normalize_poissonian_noise s None None)) None None
           E_negative_values).
  unfold normalize_poissonian_noise, s, sample_signal, data_with_negative.
  cbn [include_selector option_map included_block getitem_cols getitem_rows
       bind data concat app np_min fold_left].
  unfold fminimum. cbn [isnan fltb]. decide_reals.
  cbn [isnan fltb]. decide_reals. cbn [isnan fltb]. decide_reals.
  cbn [fleb]. decide_reals. reflexivity.
Defined.

Lemma sum_axis0_length (b : matrix) : length (sum_axis0 b) = ncols b.
Proof. unfold sum_axis0. rewrite length_map, length_seq. reflexivity. Qed.

Lemma length_one {A} (l : list A) : length l = 1%nat -> exists x, l = [x].
Proof. destruct l as [|x [|y l]]; try discriminate. eauto. Qed.

(** The normalization needs two included navigation positions and two
    included channels: on a block of strictly positive values with one
    row only, or with one column only, the squeezed sum is a scalar and
    the call raises [IndexError]; the data is left as it was. *)
Theorem normalize_poissonian_noise_single_row_or_channel (s : Signal)
  (nm sm : option bool_array) (block : matrix) :
  included_block (data s) (include_selector sm)
    (include_selector (option_map ravel nm)) = Ok block ->
  concat block <> [] ->
  Forall strictly_positive (concat block) ->
  (nrows block = 1 \/ ncols block = 1)%nat ->
  exists s',
    normalize_poissonian_noise s nm sm = (s', Raise index_to_scalar) /\
    class_of index_to_scalar = IndexError /\
    data s' = data s.
Proof.
  intros Hblock Hne Hpos Hone. unfold normalize_poissonian_noise.
  rewrite Hblock.
  destruct (np_min (concat block)) as [m|e] eqn:Em.
  2:{ destruct (concat block); [congruence | discriminate]. }
  rewrite (strictly_positive_not_le (np_min_positive Hpos Em)).
  destruct (Nat.eq_dec (nrows block) 1) as [Hr|Hr].
  - destruct (length_one (sum_axis1 block)) as (x & Hx).
    { unfold sum_axis1. rewrite length_map. exact Hr. }
    rewrite Hx. cbn [sqrt_squeezed]. eexists. repeat split.
  - destruct Hone as [Hone|Hc]; [contradiction|].
    assert (Ha : sqrt_squeezed (sum_axis1 block)
                 = Ok (map fsqrt (sum_axis1 block))).
    { unfold sqrt_squeezed. destruct (sum_axis1 block) as [|x [|y l]] eqn:E;
        try reflexivity.
      exfalso. apply Hr. unfold nrows.
      apply (f_equal (@length float)) in E. unfold sum_axis1 in E.
      rewrite length_map in E. exact E. }
    rewrite Ha.
    destruct (length_one (sum_axis0 block)) as (x & Hx).
    { rewrite sum_axis0_length. exact Hc. }
    rewrite Hx. cbn [sqrt_squeezed]. eexists. repeat split.
Qed.

Lemma normalize_poissonian_noise_single_row_or_channel_witness :
  let s := sample_signal [[Fin 1]; [Fin 2]] 1 earlier_results in
  exists s',
    normalize_poissonian_noise s None None = (s', Raise index_to_scalar) /\
    class_of index_to_scalar = IndexError /\
    data s' = data s.
Proof.
  intros s.
  apply (@normalize_poissonian_noise_single_row_or_channel s None None
           [[Fin 1]; [Fin 2]]).
  - reflexivity.
  - discriminate.
  - unfold strictly_positive. repeat constructor; cbn [fltb];
      apply Rltb_true; lra.
  - right. reflexivity.
Defined.

(** After a call without signal mask that returns normally, every value
    of the included block of the data is a finite number: the NaN and the
    infinities of the rescaling have been replaced. *)
Theorem normalize_poissonian_noise_result_finite (s s' : Signal)
  (nm : option bool_array) :
  normalize_poissonian_noise s nm None = (s', Ok tt) ->
  exists block',
    included_block (data s') SliceAll (include_selector (option_map ravel nm))
    = Ok block' /\
    Forall finite (concat block').
Proof.
  intros H.
  destruct (included_block (data s) SliceAll
              (include_selector (option_map ravel nm))) as [block|e] eqn:Hblock.
  2:{ unfold normalize_poissonian_noise in H. cbn [include_selector] in H.
      rewrite Hblock in H. discriminate. }
  destruct (normalize_without_signal_mask _ _ Hblock H) as (Hb & _).
  exists (normalized_block block). split; [exact Hb|].
  unfold normalized_block. apply Forall_forall. intros x Hx.
  apply in_concat in Hx. destruct Hx as (row & Hrow & Hx).
  apply in_map_iff in Hrow. destruct Hrow as (row0 & <- & _).
  apply in_map_iff in Hx. destruct Hx as (y & <- & _).
  apply nan_to_num_finite.
Qed.

Lemma normalize_poissonian_noise_result_finite_witness :
  let s := sample_signal data_2x2 2 earlier_results in
  exists block',
    included_block (data (fst (normalize_poissonian_noise s None None)))
      SliceAll SliceAll = Ok block' /\
    Forall finite (concat block').
Proof.
  intros s.
  apply (@normalize_poissonian_noise_result_finite s
           (fst (normalize_poissonian_noise s None None)) None).
  assert (Hall : Forall strictly_positive (concat data_2x2)).
  { unfold data_2x2, strictly_positive.
    repeat constructor; cbn [fltb]; apply Rltb_true; lra. }
  destruct (np_min (concat data_2x2)) as [m|e] eqn:Em; [|discriminate].
  pose proof (strictly_positive_not_le (np_min_positive Hall Em)) as Hm.
  unfold normalize_poissonian_noise, s.
  cbn [include_selector option_map included_block getitem_cols getitem_rows
       bind data sample_signal].
  rewrite Em, Hm. reflexivity.
Defined.

(** ** Cropping the results *)

Lemma py_slice_to_twice {A} (n m : Z) (a : list A) :
  (0 <= n)%Z -> (0 <= m)%Z ->
  py_slice_to m (py_slice_to n a) = py_slice_to (Z.min n m) a.
Proof.
  intros Hn Hm. unfold py_slice_to.
  replace (n <? 0)%Z with false by (symmetry; apply Z.ltb_ge; exact Hn).
  replace (m <? 0)%Z with false by (symmetry; apply Z.ltb_ge; exact Hm).
  replace (Z.min n m <? 0)%Z with false by (symmetry; apply Z.ltb_ge; lia).
  rewrite firstn_firstn. f_equal. lia.
Qed.

Lemma slice_cols_to_twice {A} (n m : Z) (a : list (list A)) :
  (0 <= n)%Z -> (0 <= m)%Z ->
  slice_cols_to m (slice_cols_to n a) = slice_cols_to (Z.min n m) a.
Proof.
  intros Hn Hm. unfold slice_cols_to. rewrite map_map.
  apply map_ext. intros r. apply py_slice_to_twice; assumption.
Qed.

Lemma py_slice_to_length {A} (n : Z) (a : list A) :
  (0 <= n)%Z -> (length (py_slice_to n a) <= Z.to_nat n)%nat.
Proof.
  intros Hn. unfold py_slice_to.
  replace (n <? 0)%Z with false by (symmetry; apply Z.ltb_ge; exact Hn).
  rewrite length_firstn. lia.
Qed.

(** Cropping composes: cropping to [n] components and then to [m] is
    cropping to the smaller of the two (for [n, m >= 0]); in particular
    cropping twice to [n] is cropping once.  After cropping to [n], no
    row of the factors or of the loadings and no explained variance has
    more than [n] entries. *)
Theorem crop_decomposition_dimension_composes (lr lr1 : LearningResults)
  (n m : Z) :
  (0 <= n)%Z -> (0 <= m)%Z ->
  crop_decomposition_dimension lr n = Ok lr1 ->
  crop_decomposition_dimension lr1 m
  = crop_decomposition_dimension lr (Z.min n m) /\
  crop_decomposition_dimension lr1 n = Ok lr1 /\
  (forall F, factors lr1 = Some F ->
             Forall (fun r => (length r <= Z.to_nat n)%nat) F) /\
  (forall L, loadings lr1 = Some L ->
             Forall (fun r => (length r <= Z.to_nat n)%nat) L) /\
  (forall ev, explained_variance lr1 = Some ev ->
              (length ev <= Z.to_nat n)%nat).
Proof.
  intros Hn Hm H. unfold crop_decomposition_dimension in *.
  destruct (loadings lr) as [l|]; [|discriminate].
  destruct (factors lr) as [f|]; [|discriminate].
  inversion H; subst lr1; clear H. cbn.
  assert (Hev : forall k, (0 <= k)%Z ->
            option_map (py_slice_to k)
              (option_map (py_slice_to n) (explained_variance lr))
            = option_map (py_slice_to (Z.min n k)) (explained_variance lr)).
  { intros k Hk. destruct (explained_variance lr); cbn; [|reflexivity].
    rewrite py_slice_to_twice by assumption. reflexivity. }
  split; [|split; [|split; [|split]]].
  - rewrite !slice_cols_to_twice, Hev by assumption. reflexivity.
  - rewrite !slice_cols_to_twice, Hev by assumption.
    rewrite Z.min_id. reflexivity.
  - intros F HF. inversion HF; subst. apply Forall_forall. intros r Hr.
    unfold slice_cols_to in Hr. apply in_map_iff in Hr.
    destruct Hr as (r0 & <- & _). apply py_slice_to_length, Hn.
  - intros L HL. inversion HL; subst. apply Forall_forall. intros r Hr.
    unfold slice_cols_to in Hr. apply in_map_iff in Hr.
    destruct Hr as (r0 & <- & _). apply py_slice_to_length, Hn.
  - intros ev He. destruct (explained_variance lr); [|discriminate].
    inversion He; subst. apply py_slice_to_length, Hn.
Qed.

Lemma crop_decomposition_dimension_composes_witness :
  exists lr1,
    crop_decomposition_dimension fit_results 1 = Ok lr1 /\
    crop_decomposition_dimension lr1 5
    = crop_decomposition_dimension fit_results (Z.min 1 5) /\
    crop_decomposition_dimension lr1 1 = Ok lr1 /\
    (forall F, factors lr1 = Some F ->
               Forall (fun r => (length r <= Z.to_nat 1)%nat) F) /\
    (forall L, loadings lr1 = Some L ->
               Forall (fun r => (length r <= Z.to_nat 1)%nat) L) /\
    (forall ev, explained_variance lr1 = Some ev ->
                (length ev <= Z.to_nat 1)%nat).
Proof.
  eexists. split; [reflexivity|].
  apply (@crop_decomposition_dimension_composes fit_results _ 1 5);
    [lia | lia | reflexivity].
Defined.

(** ** Reversing a component *)

Lemma times_minus_one_twice (x : float) :
  times_minus_one (times_minus_one x) = x.
Proof.
  rewrite !times_minus_one_fneg. destruct x; cbn [fneg]; try reflexivity.
  f_equal. lra.
Qed.

Lemma map_at_length {A} (f : A -> A) (i : nat) (l : list A) :
  length (map_at f i l) = length l.
Proof.
  revert i. induction l as [|x l IH]; intros i; [reflexivity|].
  destruct i; cbn [map_at length]; [reflexivity | rewrite IH; reflexivity].
Qed.

Lemma map_at_twice {A} (f : A -> A) (i : nat) (l : list A) :
  (forall x, f (f x) = x) -> map_at f i (map_at f i l) = l.
Proof.
  intros Hf. revert i. induction l as [|x l IH]; intros i; [reflexivity|].
  destruct i; cbn [map_at]; [rewrite Hf | rewrite IH]; reflexivity.
Qed.

Lemma negate_column_ok (i : nat) (m m' : matrix) :
  negate_column i m = Ok m' -> m' = map (map_at times_minus_one i) m.
Proof.
  unfold negate_column. destruct (forallb _ m); intros H; inversion H.
  reflexivity.
Qed.

Lemma negate_column_twice (i : nat) (m m' : matrix) :
  negate_column i m = Ok m' -> negate_column i m' = Ok m.
Proof.
  unfold negate_column. destruct (forallb _ m) eqn:E; [|discriminate].
  intros H. inversion H; subst m'; clear H.
  assert (E' : forallb (fun r => (i <? length r)%nat)
                 (map (map_at times_minus_one i) m) = true).
  { rewrite forallb_forall in *. intros r Hr. apply in_map_iff in Hr.
    destruct Hr as (r0 & <- & Hr0). rewrite map_at_length. apply E, Hr0. }
  rewrite E'. f_equal. rewrite map_map. rewrite <- (map_id m) at 2.
  apply map_ext. intros r. apply map_at_twice, times_minus_one_twice.
Qed.

Lemma negate_row_twice (i : nat) (m m' : matrix) :
  negate_row i m = Ok m' -> negate_row i m' = Ok m.
Proof.
  unfold negate_row. destruct (i <? length m)%nat eqn:E; [|discriminate].
  intros H. inversion H; subst m'; clear H.
  rewrite map_at_length, E. f_equal. apply map_at_twice.
  intros r. rewrite map_map. rewrite <- (map_id r) at 2.
  apply map_ext, times_minus_one_twice.
Qed.

Lemma ncols_negated (i : nat) (m : matrix) :
  ncols (map (map_at times_minus_one i) m) = ncols m.
Proof. destruct m as [|r m]; [reflexivity|]. apply map_at_length. Qed.

Lemma negate_column_at_twice (i : Z) (m m' : matrix) :
  negate_column_at i m = Ok m' -> negate_column_at i m' = Ok m.
Proof.
  unfold negate_column_at. intros H.
  apply bind_ok in H. destruct H as (j & Hj & H).
  pose proof (negate_column_ok _ _ H) as ->.
  rewrite ncols_negated, Hj. cbn [bind].
  apply negate_column_twice, H.
Qed.

(** Reversing a component twice gives the results back: a second call of
    [reverse_decomposition_component] (of [reverse_bss_component]) with
    the same component undoes the first one exactly, NaN and infinities
    included. *)
Theorem reverse_component_twice :
  (forall (i : Z) (lr lr1 : LearningResults),
      reverse_decomposition_component i lr = (lr1, Ok tt) ->
      reverse_decomposition_component i lr1 = (lr, Ok tt)) /\
  (forall (i : nat) (lr lr1 : LearningResults),
      reverse_bss_component i lr = (lr1, Ok tt) ->
      reverse_bss_component i lr1 = (lr, Ok tt)).
Proof.
  split.
  - intros i lr lr1 H. unfold reverse_decomposition_component in *.
    apply bindM_ok in H. destruct H as (t1 & [] & H1 & H2).
    unfold update in H1, H2.
    destruct (bind (not_none (factors lr)) _) as [t1'|e] eqn:E1; [|discriminate].
    inversion H1; subst t1'; clear H1.
    destruct (bind (not_none (loadings t1)) _) as [t2|e] eqn:E2; [|discriminate].
    inversion H2; subst t2; clear H2.
    apply bind_ok in E1. destruct E1 as (f & Hf & E1).
    apply bind_ok in E1. destruct E1 as (f' & Hf' & E1).
    inversion E1; subst t1; clear E1.
    apply bind_ok in E2. destruct E2 as (l & Hl & E2).
    apply bind_ok in E2. destruct E2 as (l' & Hl' & E2).
    inversion E2; subst lr1; clear E2.
    cbn [loadings set_factors] in Hl.
    destruct lr as [f0 l0 ev evr nsc da pnn od mn ce ba um bf bl uf os nmk smk
                    ol bn].
    cbn in *.
    destruct f0 as [f0|]; [|discriminate]. inversion Hf; subst f0.
    destruct l0 as [l0|]; [|discriminate]. inversion Hl; subst l0.
    unfold bindM, update. cbn.
    rewrite (negate_column_at_twice _ _ Hf'). cbn.
    rewrite (negate_column_at_twice _ _ Hl'). reflexivity.
  - intros i lr lr1 H. unfold reverse_bss_component in *.
    apply bindM_ok in H. destruct H as (t1 & [] & H1 & H).
    apply bindM_ok in H. destruct H as (t2 & [] & H2 & H3).
    unfold update in H1, H2, H3.
    destruct (bind (not_none (bss_factors lr)) _) as [t1'|e] eqn:E1;
      [|discriminate].
    inversion H1; subst t1'; clear H1.
    destruct (bind (not_none (bss_loadings t1)) _) as [t2'|e] eqn:E2;
      [|discriminate].
    inversion H2; subst t2'; clear H2.
    destruct (bind (not_none (unmixing_matrix t2)) _) as [t3|e] eqn:E3;
      [|discriminate].
    inversion H3; subst t3; clear H3.
    apply bind_ok in E1. destruct E1 as (f & Hf & E1).
    apply bind_ok in E1. destruct E1 as (f' & Hf' & E1).
    inversion E1; subst t1; clear E1.
    apply bind_ok in E2. destruct E2 as (l & Hl & E2).
    apply bind_ok in E2. destruct E2 as (l' & Hl' & E2).
    inversion E2; subst t2; clear E2.
    apply bind_ok in E3. destruct E3 as (w & Hw & E3).
    apply bind_ok in E3. destruct E3 as (w' & Hw' & E3).
    inversion E3; subst lr1; clear E3.
    destruct lr as [f0 l0 ev evr nsc da pnn od mn ce ba um bf bl uf os nmk smk
                    ol bn].
    cbn in *.
    destruct bf as [bf|]; [|discriminate]. inversion Hf; subst bf.
    destruct bl as [bl|]; [|discriminate]. inversion Hl; subst bl.
    destruct um as [um|]; [|discriminate]. inversion Hw; subst um.
    unfold bindM, update. cbn.
    rewrite (negate_column_twice _ _ Hf'). cbn.
    rewrite (negate_column_twice _ _ Hl'). cbn.
    rewrite (negate_row_twice _ _ Hw'). reflexivity.
Qed.

Lemma reverse_component_twice_witness :
  exists lr1 lr2,
    reverse_decomposition_component (-1) fit_results = (lr1, Ok tt) /\
    reverse_decomposition_component (-1) lr1 = (fit_results, Ok tt) /\
    reverse_bss_component 0 bss_results = (lr2, Ok tt) /\
    reverse_bss_component 0 lr2 = (bss_results, Ok tt).
Proof.
  eexists. eexists.
  split; [vm_compute; reflexivity|]. split.
  - apply (proj1 reverse_component_twice). vm_compute. reflexivity.
  - split; [vm_compute; reflexivity|].
    apply (proj2 reverse_component_twice). vm_compute. reflexivity.
Defined.

(** ** The model built from the components *)

Lemma transpose_n_columns (c : nat) (m : matrix) :
  transpose_n c m = map (fun j => column NaN j m) (seq 0 c).
Proof.
  induction c as [|c IH]; [reflexivity|].
  cbn [transpose_n]. rewrite IH, seq_S, map_app. reflexivity.
Qed.

Lemma transpose_length (m : matrix) : length (transpose m) = ncols m.
Proof.
  unfold transpose. rewrite transpose_n_columns, length_map, length_seq.
  reflexivity.
Qed.

Lemma rect_ncols {A} (k : nat) (m : list (list A)) :
  rect k m -> m <> [] -> ncols m = k.
Proof.
  intros H Hne. destruct m as [|r m]; [congruence|].
  inversion H; subst. reflexivity.
Qed.

Lemma list_as_map_nth {A} (d : A) (l : list A) :
  l = map (fun j => nth j l d) (seq 0 (length l)).
Proof.
  induction l as [|x l IH]; [reflexivity|].
  cbn [length seq map nth]. f_equal.
  rewrite <- seq_shift, map_map. exact IH.
Qed.

Lemma transpose_rect (k : nat) (m : matrix) :
  rect k m -> m <> [] -> rect (length m) (transpose m).
Proof.
  intros H Hne. unfold rect, transpose. rewrite transpose_n_columns.
  apply Forall_forall. intros r Hr. apply in_map_iff in Hr.
  destruct Hr as (j & <- & _). unfold column. apply length_map.
Qed.

Lemma transpose_twice (k : nat) (m : matrix) :
  rect k m -> m <> [] -> (1 <= k)%nat -> transpose (transpose m) = m.
Proof.
  intros H Hne Hk.
  assert (Hc : ncols m = k) by (apply rect_ncols; assumption).
  assert (Hn : ncols (transpose m) = length m).
  { unfold transpose. rewrite transpose_n_columns, Hc.
    destruct k as [|k]; [lia|]. cbn [seq map ncols]. unfold column.
    apply length_map. }
  unfold transpose at 1. rewrite transpose_n_columns, Hn.
  transitivity (map (fun j => nth j m []) (seq 0 (length m)));
    [|symmetry; apply list_as_map_nth].
  apply map_ext_in. intros i Hi. apply in_seq in Hi.
  unfold transpose. rewrite transpose_n_columns, Hc.
  unfold column. rewrite map_map.
  assert (Hrow : length (nth i m []) = k).
  { unfold rect in H. rewrite Forall_forall in H. apply H, nth_In. lia. }
  transitivity (map (fun j => nth j (nth i m []) NaN) (seq 0 k));
    [|rewrite <- Hrow; symmetry; apply list_as_map_nth].
  apply map_ext. intros j.
  rewrite (nth_indep _ NaN (nth j [] NaN)) by (rewrite length_map; lia).
  rewrite (map_nth (fun r => nth j r NaN) m [] i). reflexivity.
Qed.

(** On arrays with at least one row and one component the product
    [factors @ loadings.T] is the array of the dot products of the rows
    of [factors] and of [loadings]. *)
Lemma matmul_transpose (k : nat) (F L : matrix) :
  rect k F -> rect k L -> F <> [] -> L <> [] -> (1 <= k)%nat ->
  matmul F (transpose L) = Ok (reconstruction F L).
Proof.
  intros HF HL HneF HneL Hk. unfold matmul.
  replace (nrows F =? 0)%nat with false
    by (symmetry; apply Nat.eqb_neq; destruct F; [congruence | discriminate]).
  unfold nrows. rewrite transpose_length.
  rewrite (rect_ncols HF HneF), (rect_ncols HL HneL), Nat.eqb_refl.
  rewrite (transpose_twice HL HneL Hk). reflexivity.
Qed.

Lemma dot_negated (i : nat) (a b : vector) :
  dot (map_at times_minus_one i a) (map_at times_minus_one i b) = dot a b.
Proof.
  unfold dot. f_equal. revert i b.
  induction a as [|x a IH]; intros i b; [reflexivity|].
  destruct b as [|y b]; [destruct i; reflexivity|].
  destruct i as [|i]; cbn [map_at combine map fst snd].
  - f_equal. rewrite !times_minus_one_fneg.
    destruct x, y; cbn [fneg fmul]; unfold inf_of_sign;
      rewrite ?Ropp_involutive; try reflexivity.
    f_equal. lra.
  - f_equal. apply IH.
Qed.

Lemma reconstruction_negated (i : nat) (F L : matrix) :
  reconstruction (map (map_at times_minus_one i) F)
                 (map (map_at times_minus_one i) L)
  = reconstruction F L.
Proof.
  unfold reconstruction. rewrite map_map. apply map_ext. intros f.
  rewrite map_map. apply map_ext. intros l. apply dot_negated.
Qed.

Lemma negated_rect (i k : nat) (m : matrix) :
  rect k m -> rect k (map (map_at times_minus_one i) m).
Proof.
  unfold rect. intros H. apply Forall_forall. intros r Hr.
  apply in_map_iff in Hr. destruct Hr as (r0 & <- & Hr0).
  rewrite map_at_length. rewrite Forall_forall in H. apply H, Hr0.
Qed.

Lemma axis_index_ok (n : nat) (i : Z) (j : nat) :
  axis_index n i = Ok j -> (j < n)%nat.
Proof.
  unfold axis_index. destruct (_ || _)%Z eqn:E; [discriminate|].
  intros H. inversion H; subst. apply orb_false_iff in E. destruct E as [E1 E2].
  apply Z.ltb_ge in E1. apply Z.leb_gt in E2. lia.
Qed.

Lemma negate_column_at_ok (i : Z) (m m' : matrix) :
  negate_column_at i m = Ok m' ->
  exists j, (j < ncols m)%nat /\ m' = map (map_at times_minus_one j) m.
Proof.
  unfold negate_column_at. intros H.
  apply bind_ok in H. destruct H as (j & Hj & H).
  exists j. split; [eapply axis_index_ok; eauto | apply negate_column_ok, H].
Qed.

Lemma axis_index_inj (n : nat) (i : Z) (j j' : nat) :
  axis_index n i = Ok j -> axis_index n i = Ok j' -> j = j'.
Proof. congruence. Qed.

(** Reversing a component leaves the model of the decomposition as it
    is: after [reverse_decomposition_component], the data that
    [get_decomposition_model()] builds from all the components is the
    data it built before, NaN and infinities included. *)
Theorem reverse_component_keeps_model (i : Z) (s : Signal)
  (lr1 : LearningResults) (F L : matrix) (k : nat) :
  factors (learning_results s) = Some F ->
  loadings (learning_results s) = Some L ->
  rect k F -> rect k L -> F <> [] -> L <> [] ->
  reverse_decomposition_component i (learning_results s) = (lr1, Ok tt) ->
  snd (get_decomposition_model AllComponents (set_learning_results lr1 s))
  = snd (get_decomposition_model AllComponents s).
Proof.
  intros HF HL HrF HrL HneF HneL H.
  unfold reverse_decomposition_component in H.
  apply bindM_ok in H. destruct H as (t1 & [] & H1 & H2).
  unfold update in H1, H2.
  destruct (bind (not_none (factors _)) _) as [t1'|e] eqn:E1; [|discriminate].
  inversion H1; subst t1'; clear H1.
  destruct (bind (not_none (loadings t1)) _) as [t2|e] eqn:E2; [|discriminate].
  inversion H2; subst t2; clear H2.
  rewrite HF in E1. cbn [not_none bind] in E1.
  apply bind_ok in E1. destruct E1 as (F' & HF' & E1).
  inversion E1; subst t1; clear E1.
  cbn [loadings set_factors] in E2. rewrite HL in E2. cbn [not_none bind] in E2.
  apply bind_ok in E2. destruct E2 as (L' & HL' & E2).
  inversion E2; subst lr1; clear E2.
  unfold negate_column_at in HF', HL'.
  rewrite (rect_ncols HrF HneF) in HF'. rewrite (rect_ncols HrL HneL) in HL'.
  apply bind_ok in HF'. destruct HF' as (j & Hj & HF').
  rewrite Hj in HL'. cbn [bind] in HL'.
  apply negate_column_ok in HF', HL'. subst F' L'.
  pose proof (axis_index_ok _ _ Hj) as Hjk.
  assert (Hk : (1 <= k)%nat) by lia.
  unfold get_decomposition_model, _calculate_recmatrix.
  cbn [learning_results set_learning_results factors loadings set_loadings
       set_factors mean data snd recmatrix_product].
  rewrite HF, HL.
  rewrite (@matmul_transpose k (map (map_at times_minus_one j) F)
             (map (map_at times_minus_one j) L)).
  - rewrite (matmul_transpose HrF HrL HneF HneL Hk).
    rewrite reconstruction_negated. reflexivity.
  - apply negated_rect, HrF.
  - apply negated_rect, HrL.
  - destruct F; [congruence | discriminate].
  - destruct L; [congruence | discriminate].
  - exact Hk.
Qed.

Lemma reverse_component_keeps_model_witness :
  exists lr1,
    reverse_decomposition_component 1 fit_results = (lr1, Ok tt) /\
    snd (get_decomposition_model AllComponents
           (set_learning_results lr1 fitted_signal))
    = snd (get_decomposition_model AllComponents fitted_signal).
Proof.
  eexists. split; [vm_compute; reflexivity|].
  apply (@reverse_component_keeps_model 1 fitted_signal _
           [[Fin 1; Fin 2]; [Fin 3; Fin 6]]
           [[Fin 1; Fin 3]; [Fin 5; Fin 7]; [Fin 0; Fin 1]] 2);
    try reflexivity; try discriminate; try (repeat constructor).
Defined.

Lemma firstn_of_seq (c a k : nat) :
  firstn c (seq a k) = seq a (Nat.min c k).
Proof.
  revert a k. induction c as [|c IH]; intros a k; [reflexivity|].
  destruct k as [|k]; [reflexivity|]. cbn [seq firstn Nat.min].
  rewrite IH. reflexivity.
Qed.

Lemma firstn_map_seq {A} (f : nat -> A) (c k : nat) :
  firstn c (map f (seq 0 k)) = map f (seq 0 (Nat.min c k)).
Proof.
  rewrite firstn_map, firstn_of_seq. reflexivity.
Qed.

Lemma column_firstn (c j : nat) (m : matrix) :
  (j < c)%nat -> column NaN j (map (firstn c) m) = column NaN j m.
Proof.
  intros Hj. unfold column. rewrite map_map. apply map_ext. intros r.
  revert j Hj r. induction c as [|c IH]; intros j Hj r; [lia|].
  destruct r as [|x r]; [destruct j; reflexivity|].
  destruct j as [|j]; [reflexivity|]. cbn [firstn nth]. apply IH. lia.
Qed.

Lemma transpose_firstn (k c : nat) (m : matrix) :
  rect k m -> transpose (map (firstn c) m) = firstn c (transpose m).
Proof.
  intros H. destruct m as [|r m]; [destruct c; reflexivity|].
  unfold transpose. rewrite !transpose_n_columns, firstn_map_seq.
  cbn [map ncols]. rewrite length_firstn.
  apply map_ext_in. intros j Hj. apply in_seq in Hj.
  apply (@column_firstn _ _ (r :: m)). lia.
Qed.

(** The columns that [a[:n]] keeps of rows with [k] entries. *)
Lemma py_slice_to_firstn {A} (n : Z) (k : nat) (a : list A) :
  length a = k ->
  py_slice_to n a
  = firstn (Z.to_nat (if (n <? 0)%Z then Z.of_nat k + n else n)%Z) a.
Proof.
  intros <-. unfold py_slice_to. destruct (n <? 0)%Z; reflexivity.
Qed.

Lemma transpose_slice (k : nat) (n : Z) (m : matrix) :
  rect k m -> transpose (slice_cols_to n m) = py_slice_to n (transpose m).
Proof.
  intros H. destruct m as [|r m]; [unfold py_slice_to; cbn;
    destruct (n <? 0)%Z; rewrite firstn_nil; reflexivity|].
  assert (Hk : ncols (r :: m) = k) by (apply rect_ncols; [exact H | discriminate]).
  unfold slice_cols_to.
  rewrite (py_slice_to_firstn n (k := k) (transpose (r :: m)))
    by (rewrite transpose_length; exact Hk).
  rewrite <- (transpose_firstn _ H). f_equal.
  apply map_ext_in. intros r' Hr'. apply py_slice_to_firstn.
  unfold rect in H. rewrite Forall_forall in H. apply H, Hr'.
Qed.

(** The model built from the first [n] components is the model built
    from all the components of the results cropped to [n]:
    [get_decomposition_model(n)] returns the data that
    [get_decomposition_model()] returns after
    [crop_decomposition_dimension(n)]. *)
Theorem model_of_first_components (n : Z) (s : Signal)
  (lr1 : LearningResults) (L : matrix) (k : nat) :
  loadings (learning_results s) = Some L ->
  rect k L ->
  crop_decomposition_dimension (learning_results s) n = Ok lr1 ->
  snd (get_decomposition_model (UpTo n) s)
  = snd (get_decomposition_model AllComponents (set_learning_results lr1 s)).
Proof.
  intros HL HrL H. unfold crop_decomposition_dimension in H.
  rewrite HL in H. destruct (factors (learning_results s)) as [F|] eqn:HF;
    [|discriminate].
  inversion H; subst lr1; clear H.
  unfold get_decomposition_model, _calculate_recmatrix.
  cbn [learning_results set_learning_results factors loadings mean data snd
       recmatrix_product].
  rewrite HF, HL. rewrite (transpose_slice n HrL).
  destruct (matmul _ _); reflexivity.
Qed.

Lemma model_of_first_components_witness :
  exists lr1,
    crop_decomposition_dimension fit_results 1 = Ok lr1 /\
    snd (get_decomposition_model (UpTo 1) fitted_signal)
    = snd (get_decomposition_model AllComponents
             (set_learning_results lr1 fitted_signal)).
Proof.
  eexists. split; [reflexivity|].
  apply (@model_of_first_components 1 fitted_signal _
           [[Fin 1; Fin 3]; [Fin 5; Fin 7]; [Fin 0; Fin 1]] 2).
  - reflexivity.
  - repeat constructor.
  - reflexivity.
Defined.

Lemma py_index_nat {A} (a : list A) (i : nat) (x : A) :
  nth_error a i = Some x -> py_index a (Z.of_nat i) = Ok x.
Proof.
  intros H. unfold py_index.
  assert (Hi : (i < length a)%nat) by (apply nth_error_Some; congruence).
  replace (Z.of_nat i <? 0)%Z with false by (symmetry; apply Z.ltb_ge; lia).
  replace ((Z.of_nat i <? 0) || (Z.of_nat (length a) <=? Z.of_nat i))%Z
    with false.
  - rewrite Nat2Z.id, H. reflexivity.
  - symmetry. apply orb_false_iff. split; [apply Z.ltb_ge | apply Z.leb_gt]; lia.
Qed.




Lemma py_slice_to_nat {A} (n : nat) (a : list A) :
  py_slice_to (Z.of_nat n) a = firstn n a.
Proof.
  unfold py_slice_to.
  replace (Z.of_nat n <? 0)%Z with false by (symmetry; apply Z.ltb_ge; lia).
  rewrite Nat2Z.id. reflexivity.
Qed.



Lemma chunks_shape (r c : nat) (flat : vector) :
  length flat = (r * c)%nat ->
  length (chunks r c flat) = r /\ rect c (chunks r c flat).
Proof.
  revert flat. induction r as [|r IH]; intros flat H.
  - split; [reflexivity | constructor].
  - cbn [chunks]. destruct (IH (skipn c flat)) as [Hl Hr].
    { rewrite length_skipn. cbn in H. lia. }
    split; [cbn; rewrite Hl; reflexivity|].
    constructor; [|exact Hr]. rewrite length_firstn. cbn in H. lia.
Qed.

Lemma inplace_rowwise_shape (f : float -> float -> float) (c : nat)
  (m m' : matrix) (v : vector) :
  rect c m -> inplace_rowwise f m v = Ok m' ->
  length m' = length m /\ rect c m'.
Proof.
  intros Hm H. unfold inplace_rowwise in H.
  assert (Hone : forall y, length (map (map (fun x => f x y)) m) = length m /\
                           rect c (map (map (fun x => f x y)) m)).
  { intros y. split; [apply length_map|]. unfold rect in *.
    apply Forall_forall. intros r Hr. apply in_map_iff in Hr.
    destruct Hr as (r0 & <- & Hr0). rewrite length_map.
    rewrite Forall_forall in Hm. apply Hm, Hr0. }
  assert (Hall : forall u,
            forallb (fun r => (length r =? length u)%nat) m = true ->
            length (map (fun r => map (fun p => f (fst p) (snd p)) (combine r u)) m)
            = length m /\
            rect c (map (fun r => map (fun p => f (fst p) (snd p)) (combine r u)) m)).
  { intros u Hu. split; [apply length_map|]. unfold rect in *.
    apply Forall_forall. intros r Hr. apply in_map_iff in Hr.
    destruct Hr as (r0 & <- & Hr0). rewrite length_map, length_combine.
    rewrite forallb_forall in Hu. specialize (Hu r0 Hr0).
    apply Nat.eqb_eq in Hu. rewrite <- Hu, Nat.min_id.
    rewrite Forall_forall in Hm. apply Hm, Hr0. }
  destruct v as [|y [|z v]].
  - destruct (forallb _ m) eqn:E; [|discriminate]. inversion H; subst.
    apply Hall, E.
  - inversion H; subst. apply Hone.
  - destruct (forallb _ m) eqn:E; [|discriminate]. inversion H; subst.
    apply Hall, E.
Qed.

(** The model has the shape of the data: when
    [get_decomposition_model] or [get_bss_model] return, whatever the
    components asked for, the data they return has as many rows as the
    data of the signal and each row has as many entries as a row of the
    data; the signal keeps its data and its results. *)
Theorem model_has_the_shape_of_the_data (components : components_arg)
  (mva_type : mva_kind) (s s' : Signal) (d : matrix) :
  _calculate_recmatrix components mva_type s = (s', Ok d) ->
  nrows d = nrows (data s) /\ rect (ncols (data s)) d /\
  data s' = data s /\ learning_results s' = learning_results s.
Proof.
  unfold _calculate_recmatrix. intros H.
  destruct (match mva_type with
            | Decomposition => _
            | Bss => _
            end) as [f l].
  destruct l as [l|]; [|discriminate].
  destruct (match f with Some _ => _ | None => _ end) as [a|e]; [|discriminate].
  inversion H as [[Hs Hd]]; clear H.
  apply bind_ok in Hd. destruct Hd as (d0 & Hd0 & Hd).
  unfold reshape_to in Hd0.
  destruct (_ =? _)%nat eqn:E; [|discriminate]. apply Nat.eqb_eq in E.
  inversion Hd0; subst d0; clear Hd0.
  destruct (chunks_shape _ _ _ E) as [Hl Hr].
  assert (Hshape : nrows d = nrows (data s) /\ rect (ncols (data s)) d).
  { destruct (mean (learning_results s)) as [mn|].
    - destruct (inplace_rowwise_shape _ _ Hr Hd) as [Hl' Hr'].
      unfold nrows in *. split; [congruence | exact Hr'].
    - inversion Hd; subst d. split; assumption. }
  destruct Hshape. repeat split; assumption.
Qed.

Lemma model_has_the_shape_of_the_data_witness :
  exists s' d,
    _calculate_recmatrix AllComponents Decomposition fitted_signal = (s', Ok d) /\
    nrows d = nrows (data fitted_signal) /\
    rect (ncols (data fitted_signal)) d /\
    data s' = data fitted_signal /\
    learning_results s' = learning_results fitted_signal.
Proof.
  destruct (_calculate_recmatrix AllComponents Decomposition fitted_signal)
    as [s' [d|e]] eqn:E.
  - exists s', d. split; [reflexivity|].
    exact (model_has_the_shape_of_the_data _ _ _ E).
  - exfalso. vm_compute in E. discriminate.
Defined.

(** ** What the automatic reversal reaches *)

Lemma fltb_fneg (a b : float) : fltb (fneg b) (fneg a) = fltb a b.
Proof.
  destruct a, b; cbn [fneg fltb]; try reflexivity.
  unfold Rltb. destruct (Rlt_dec (- r0) (- r)), (Rlt_dec r r0);
    try reflexivity; exfalso; lra.
Qed.

Lemma isnan_fneg (a : float) : isnan (fneg a) = isnan a.
Proof. destruct a; reflexivity. Qed.

Lemma fminimum_fneg (a b : float) :
  fminimum (fneg a) (fneg b) = fneg (fmaximum a b).
Proof.
  unfold fminimum, fmaximum. rewrite !isnan_fneg, fltb_fneg.
  destruct (isnan a); [reflexivity|]. destruct (isnan b); [reflexivity|].
  destruct (fltb a b); reflexivity.
Qed.

Lemma fmaximum_fneg (a b : float) :
  fmaximum (fneg a) (fneg b) = fneg (fminimum a b).
Proof.
  unfold fminimum, fmaximum. rewrite !isnan_fneg, fltb_fneg.
  destruct (isnan a); [reflexivity|]. destruct (isnan b); [reflexivity|].
  destruct (fltb b a); reflexivity.
Qed.

Lemma fold_fminimum_fneg (v : vector) (x : float) :
  fold_left fminimum (map fneg v) (fneg x) = fneg (fold_left fmaximum v x).
Proof.
  revert x. induction v as [|y v IH]; intros x; [reflexivity|].
  cbn [map fold_left]. rewrite fminimum_fneg. apply IH.
Qed.

Lemma fold_fmaximum_fneg (v : vector) (x : float) :
  fold_left fmaximum (map fneg v) (fneg x) = fneg (fold_left fminimum v x).
Proof.
  revert x. induction v as [|y v IH]; intros x; [reflexivity|].
  cbn [map fold_left]. rewrite fmaximum_fneg. apply IH.
Qed.

Lemma filter_not_nan_fneg (v : vector) :
  filter not_nan (map fneg v) = map fneg (filter not_nan v).
Proof.
  induction v as [|x v IH]; [reflexivity|].
  cbn [map filter]. rewrite IH. unfold not_nan. rewrite isnan_fneg.
  destruct (negb (isnan x)); reflexivity.
Qed.

Lemma nan_reductions_fneg (col : vector) (m M : float) :
  np_nanmin col = Ok m -> np_nanmax col = Ok M ->
  np_nanmin (map fneg col) = Ok (fneg M) /\
  np_nanmax (map fneg col) = Ok (fneg m).
Proof.
  unfold np_nanmin, np_nanmax. destruct col as [|x col]; [discriminate|].
  cbn [map]. change (fneg x :: map fneg col) with (map fneg (x :: col)).
  rewrite filter_not_nan_fneg.
  destruct (filter not_nan (x :: col)) as [|y v]; cbn [map]; intros Hm HM;
    inversion Hm; inversion HM; subst.
  - split; reflexivity.
  - rewrite fold_fminimum_fneg, fold_fmaximum_fneg. split; reflexivity.
Qed.

(** A column that meets the criterion does not meet it once negated. *)
Lemma reversal_criterion_fneg (col : vector) :
  reversal_criterion col = Ok true ->
  reversal_criterion (map fneg col) = Ok false.
Proof.
  unfold reversal_criterion. intros H.
  destruct (np_nanmin col) as [m|e] eqn:Em; [|discriminate].
  destruct (np_nanmax col) as [M|e] eqn:EM; [|discriminate].
  cbn [bind] in H. inversion H as [Hc]; clear H.
  destruct (nan_reductions_fneg _ Em EM) as [-> ->]. cbn [bind]. f_equal.
  apply andb_true_iff in Hc. destruct Hc as [H1 H2]. unfold fgtb in *.
  destruct m as [| |a|]; cbn [fltb] in H1; try discriminate.
  - destruct M as [| |b|]; cbn [fneg fabs fltb] in *; try discriminate;
      try reflexivity.
    apply andb_false_r.
  - apply Rltb_spec in H1.
    destruct M as [| |b|]; cbn [fneg fabs fltb] in *; try discriminate;
      try reflexivity.
    apply Rltb_spec in H2. rewrite Rabs_left in H2 by exact H1.
    destruct (Rltb (- b) 0) eqn:E; [|reflexivity]. cbn [andb].
    apply Rltb_spec in E. apply Rltb_false.
    rewrite Rabs_left by exact E. lra.
Qed.

Lemma reference_array_cases (criterion : string) (lr : LearningResults)
  (V : matrix) :
  reference_array criterion lr = Some V ->
  (criterion = "factors"%string /\ bss_factors lr = Some V) \/
  (criterion = "loadings"%string /\ bss_loadings lr = Some V).
Proof.
  unfold reference_array.
  destruct (String.eqb criterion "factors") eqn:E1.
  - apply String.eqb_eq in E1. auto.
  - destruct (String.eqb criterion "loadings") eqn:E2; [|discriminate].
    apply String.eqb_eq in E2. auto.
Qed.

(** A turn of the loop on a component that does not meet the criterion
    changes nothing. *)
Lemma auto_reverse_step_skips (criterion : string) (lr : LearningResults)
  (V : matrix) (k j : nat) :
  reference_array criterion lr = Some V ->
  rect k V -> V <> [] -> (j < k)%nat ->
  reversal_flag V j = false ->
  auto_reverse_step criterion j lr = (lr, Ok tt).
Proof.
  intros Href HrV HneV Hj Hflag.
  assert (Hvalues :
    (if String.eqb criterion "factors" then not_none (bss_factors lr)
     else if String.eqb criterion "loadings" then not_none (bss_loadings lr)
     else Raise E_reverse_criterion) = Ok V).
  { destruct (reference_array_cases _ _ Href) as [[-> ->]|[-> ->]]; reflexivity. }
  assert (Hcol : get_column j V = Ok (column NaN j V)).
  { unfold get_column. rewrite (rect_index_ok HrV Hj). reflexivity. }
  assert (Hne : column NaN j V <> []).
  { unfold column. destruct V; [congruence | discriminate]. }
  destruct (nan_reductions_ok Hne) as (m & M & Hm & HM).
  assert (Hc : fltb m (Fin 0) && fgtb (fneg m) M = false).
  { rewrite criterion_code_spec. unfold reversal_flag, reversal_criterion in Hflag.
    rewrite Hm, HM in Hflag. exact Hflag. }
  unfold auto_reverse_step, bindM, get, lift.
  rewrite Hvalues, Hcol, Hm, HM, Hc. reflexivity.
Qed.

Lemma auto_reverse_loop_skips (criterion : string) (lr : LearningResults)
  (V : matrix) (k : nat) (l : list nat) :
  reference_array criterion lr = Some V ->
  rect k V -> V <> [] ->
  (forall j, In j l -> (j < k)%nat /\ reversal_flag V j = false) ->
  for_each (auto_reverse_step criterion) l lr = (lr, Ok tt).
Proof.
  intros Href HrV HneV. induction l as [|j l IH]; intros H; [reflexivity|].
  cbn [for_each]. unfold bindM.
  destruct (H j (or_introl eq_refl)) as [Hj Hf].
  rewrite (auto_reverse_step_skips _ _ Href HrV HneV Hj Hf).
  apply IH. intros i Hi. apply H. right. exact Hi.
Qed.

(** The automatic reversal reaches its aim and stays there: after
    [_auto_reverse_bss_component], no component of the reference array
    meets the criterion ([min < 0] and [|min| > max]) any more, and a
    second pass leaves the results exactly as they are. *)
Theorem auto_reverse_bss_component_settles (criterion : string)
  (lr lr' : LearningResults) (F L W V : matrix) (k : nat) :
  bss_factors lr = Some F ->
  bss_loadings lr = Some L ->
  unmixing_matrix lr = Some W ->
  reference_array criterion lr = Some V ->
  rect k F -> rect k L -> F <> [] -> V <> [] -> (k <= length W)%nat ->
  _auto_reverse_bss_component criterion lr = (lr', Ok tt) ->
  exists V',
    reference_array criterion lr' = Some V' /\
    (forall i, (i < k)%nat ->
               reversal_criterion (column NaN i V') = Ok false) /\
    _auto_reverse_bss_component criterion lr' = (lr', Ok tt).
Proof.
  intros HF HL HW Href HrF HrL HneF HneV HkW Hrun.
  assert (Hcrit : (criterion = "factors"%string /\ V = F) \/
                  (criterion = "loadings"%string /\ V = L)).
  { destruct (reference_array_cases _ _ Href) as [[-> Hv]|[-> Hv]];
      [left | right]; split; congruence. }
  assert (Hk : ncols F = k) by (apply rect_ncols; assumption).
  destruct (@auto_reverse_loop_ok criterion F L W V k Hcrit HrF HrL HneV HkW
              k 0 lr) as (lr0 & Hloop & HsF & HsL & HsW).
  { lia. }
  { apply reversed_state_start; assumption. }
  assert (Hrun0 : _auto_reverse_bss_component criterion lr = (lr0, Ok tt)).
  { unfold _auto_reverse_bss_component, bindM, get, lift.
    rewrite HF. cbn [not_none]. rewrite Hk. exact Hloop. }
  assert (lr0 = lr') by congruence. subst lr0. clear Hrun0.
  cbn [Nat.add] in *.
  set (V' := reverse_columns (reversed_upto V k) V).
  assert (HrV : rect k V) by (destruct Hcrit as [[_ ->]|[_ ->]]; assumption).
  assert (Href' : reference_array criterion lr' = Some V').
  { unfold reference_array, V'.
    destruct Hcrit as [[-> ->]|[-> ->]]; cbn; assumption. }
  assert (HrV' : rect k V') by (apply reverse_columns_rect, HrV).
  assert (HneV' : V' <> []).
  { unfold V', reverse_columns. destruct V; [congruence | discriminate]. }
  assert (Hcols : forall i, (i < k)%nat ->
            reversal_criterion (column NaN i V') = Ok false).
  { intros i Hi. unfold V', reverse_columns. rewrite column_mapi_from.
    2:{ unfold rect in HrV. rewrite Forall_forall in *. intros r Hr.
        rewrite (HrV r Hr). exact Hi. }
    assert (Hup : reversed_upto V k i = reversal_flag V i).
    { unfold reversed_upto.
      replace (i <? k)%nat with true by (symmetry; apply Nat.ltb_lt; exact Hi).
      reflexivity. }
    rewrite Hup.
    assert (Hne : column NaN i V <> []).
    { unfold column. destruct V; [congruence | discriminate]. }
    destruct (nan_reductions_ok Hne) as (m & M & Hm & HM).
    destruct (reversal_flag V i) eqn:Ef.
    - rewrite (map_ext _ _ times_minus_one_fneg).
      apply reversal_criterion_fneg.
      unfold reversal_flag in Ef. unfold reversal_criterion in *.
      rewrite Hm, HM in *. cbn [bind] in *. rewrite Ef. reflexivity.
    - rewrite map_id.
      unfold reversal_flag in Ef. unfold reversal_criterion in *.
      rewrite Hm, HM in *. cbn [bind] in *. rewrite Ef. reflexivity. }
  exists V'. split; [exact Href'|]. split; [exact Hcols|].
  unfold _auto_reverse_bss_component, bindM, get, lift.
  rewrite HsF. cbn [not_none].
  rewrite (rect_ncols (reverse_columns_rect _ HrF)).
  2:{ unfold reverse_columns. destruct F; [congruence | discriminate]. }
  eapply auto_reverse_loop_skips; [exact Href' | exact HrV' | exact HneV' |].
  intros j Hj. apply in_seq in Hj. split; [lia|].
  unfold reversal_flag. rewrite Hcols by lia. reflexivity.
Qed.

Lemma auto_reverse_bss_component_settles_witness :
  exists lr' V',
    _auto_reverse_bss_component "factors" bss_results = (lr', Ok tt) /\
    reference_array "factors" lr' = Some V' /\
    (forall i, (i < 2)%nat ->
               reversal_criterion (column NaN i V') = Ok false) /\
    _auto_reverse_bss_component "factors" lr' = (lr', Ok tt).
Proof.
  destruct (_auto_reverse_bss_component "factors" bss_results)
    as [lr' [[]|e]] eqn:Hrun.
  - destruct (@auto_reverse_bss_component_settles "factors" bss_results lr'
                [[Fin (-5); Fin (-1)]; [Fin 1; Fin 5]; [Fin 2; Fin 2]]
                [[Fin 1; Fin 1]; [Fin 2; Fin 2]]
                [[Fin 1; Fin 2]; [Fin 3; Fin 4]]
                [[Fin (-5); Fin (-1)]; [Fin 1; Fin 5]; [Fin 2; Fin 2]]
                2%nat eq_refl eq_refl eq_refl eq_refl)
      as (V' & H1 & H2 & H3);
      try (repeat constructor); try discriminate; try exact Hrun.
    exists lr', V'. auto.
  - exfalso.
    assert (Hcrit : ("factors"%string = "factors"%string /\
                     [[Fin (-5); Fin (-1)]; [Fin 1; Fin 5]; [Fin 2; Fin 2]]
                     = [[Fin (-5); Fin (-1)]; [Fin 1; Fin 5]; [Fin 2; Fin 2]]) \/
                    ("factors"%string = "loadings"%string /\
                     [[Fin (-5); Fin (-1)]; [Fin 1; Fin 5]; [Fin 2; Fin 2]]
                     = [[Fin 1; Fin 1]; [Fin 2; Fin 2]])) by (left; auto).
    destruct (@auto_reverse_loop_ok "factors"
                [[Fin (-5); Fin (-1)]; [Fin 1; Fin 5]; [Fin 2; Fin 2]]
                [[Fin 1; Fin 1]; [Fin 2; Fin 2]]
                [[Fin 1; Fin 2]; [Fin 3; Fin 4]]
                [[Fin (-5); Fin (-1)]; [Fin 1; Fin 5]; [Fin 2; Fin 2]]
                2%nat Hcrit) with (n := 2%nat) (j := 0%nat) (lr := bss_results)
      as (lr0 & Hloop & _);
      try (repeat constructor); try discriminate; try (simpl; lia).
    unfold _auto_reverse_bss_component, bindM, get, lift in Hrun.
    cbn [bss_results bss_factors set_unmixing_matrix set_bss_loadings
         set_bss_factors not_none ncols length] in Hrun.
    cbn [Nat.add] in Hloop. rewrite Hloop in Hrun. discriminate.
Defined.

(** ** More about the elbow estimate *)

Lemma argmax_from_zeros (v : vector) (bi i : nat) :
  Forall (fun x => x = Fin 0) v -> argmax_from (Fin 0) bi i v = bi.
Proof.
  intros H. revert i. induction H as [|x v -> _ IH]; intros i; [reflexivity|].
  cbn [argmax_from isnan orb fltb]. rewrite Rltb_false by lra. apply IH.
Qed.

Lemma nth_repeat_lt {A} (x d : A) (n i : nat) :
  (i < n)%nat -> nth i (repeat x n) d = x.
Proof.
  revert i. induction n as [|n IH]; intros i Hi; [lia|].
  destruct i; [reflexivity|]. cbn [repeat nth]. apply IH. lia.
Qed.

(** On a flat curve every distance is zero. *)
Lemma flat_distance (y : float) (dx di : Z) :
  nan_to_num
    (fdiv (fabs (fsub (fmul (of_Z dx) (fsub y y)) (fmul (of_Z di) (fsub y y))))
          (fsqrt (fadd (of_Z (dx ^ 2)) (fmul (fsub y y) (fsub y y)))))
  = Fin 0.
Proof.
  destruct y as [| |a|]; try reflexivity.
  unfold of_Z. cbn [fsub fneg fadd fmul fabs fsqrt].
  assert (H0 : Rabs (IZR dx * (a + - a) + - (IZR di * (a + - a))) = 0).
  { replace (IZR dx * (a + - a) + - (IZR di * (a + - a))) with 0 by ring.
    apply Rabs_R0. }
  rewrite H0.
  destruct (Rltb _ 0); [reflexivity|]. cbn [fdiv].
  destruct (Reqb _ 0).
  - unfold inf_of_sign. rewrite !Rltb_false by lra. reflexivity.
  - cbn [nan_to_num]. f_equal. unfold Rdiv. ring.
Qed.

(** A flat curve has no elbow: on a curve of at least two equal values,
    whatever the value (NaN and infinities included) and whatever
    [max_points >= 1], [estimate_elbow_position] returns index 0. *)
Theorem estimate_elbow_position_flat_curve (stored : option vector)
  (x : float) (n : nat) (max_points : Z) :
  (2 <= n)%nat -> (1 <= max_points)%Z ->
  estimate_elbow_position stored (Some (repeat x n)) max_points = Ok 0%nat.
Proof.
  intros Hn Hmp. cbn [estimate_elbow_position].
  rewrite elbow_distance_list by (rewrite ?repeat_length; assumption).
  rewrite repeat_length.
  set (mp := Z.to_nat (Z.min max_points (Z.of_nat n - 1))).
  assert (Hmp' : (1 <= mp < n)%nat) by (subst mp; lia).
  assert (Hall : Forall (fun d => d = Fin 0)
                   (map (elbow_distance (repeat x n) mp) (seq 0 mp))).
  { apply Forall_forall. intros d Hd. apply in_map_iff in Hd.
    destruct Hd as (i & <- & Hi). apply in_seq in Hi.
    unfold elbow_distance, elbow_y.
    rewrite !nth_repeat_lt by lia. apply flat_distance. }
  destruct mp as [|mp']; [lia|]. cbn [seq map] in *.
  inversion Hall as [|d v Hd Hv]; subst. rewrite Hd.
  cbn [np_argmax]. f_equal. apply argmax_from_zeros. exact Hv.
Qed.

Lemma estimate_elbow_position_flat_curve_witness :
  estimate_elbow_position None (Some (repeat (Fin 0) 3)) 20 = Ok 0%nat.
Proof.
  apply (@estimate_elbow_position_flat_curve None (Fin 0) 3 20); lia.
Defined.

(** ** The path of the normalization without signal mask *)

Lemma normalize_poissonian_noise_roots (s s' : Signal)
  (nm sm : option bool_array) (block : matrix) :
  included_block (data s) (include_selector sm)
    (include_selector (option_map ravel nm)) = Ok block ->
  normalize_poissonian_noise s nm sm = (s', Ok tt) ->
  _root_aG s' = Some (map fsqrt (sum_axis1 block)) /\
  _root_bH s' = Some (map fsqrt (sum_axis0 block)).
Proof.
  intros Hblock H. unfold normalize_poissonian_noise in H.
  rewrite Hblock in H.
  destruct (np_min (concat block)) as [m|e]; [|discriminate].
  destruct (fleb m (Fin 0)); [discriminate|].
  destruct (sqrt_squeezed (sum_axis1 block)) as [ra|e] eqn:Ea; [|discriminate].
  destruct (sqrt_squeezed (sum_axis0 block)) as [rb|e] eqn:Eb; [|discriminate].
  apply sqrt_squeezed_ok in Ea, Eb. subst ra rb.
  destruct (setitem_chain _ _ _ _) as [dc1|e]; [|discriminate].
  cbn [data set_data set_root_aG set_root_bH] in H.
  destruct (included_block dc1 _ _) as [b1|e]; [|discriminate].
  destruct (setitem_chain dc1 _ _ _) as [dc2|e]; [|discriminate].
  inversion H; subst s'. split; reflexivity.
Qed.

(** Without a signal mask [normalize_poissonian_noise] does what its
    comments announce.  When it returns, every included row of the data
    holds its old values divided by the square root of the sum of their
    row and by the square root of the sum of their column (sums over the
    included block), NaN replaced by 0 and infinities by the largest
    finite doubles; the rows of the navigation positions that the mask
    excludes are untouched; the data keeps its number of rows; and
    [_root_aG] and [_root_bH] hold the square roots of the row sums and
    of the column sums. *)
Theorem normalize_poissonian_noise_rescales_rows (s s' : Signal)
  (nm : option bool_array) (block : matrix) :
  included_block (data s) SliceAll (include_selector (option_map ravel nm))
  = Ok block ->
  normalize_poissonian_noise s nm None = (s', Ok tt) ->
  included_block (data s') SliceAll (include_selector (option_map ravel nm))
  = Ok (map (map nan_to_num)
          (map2 fdiv block
             (outer (map fsqrt (sum_axis1 block))
                    (map fsqrt (sum_axis0 block))))) /\
  length (data s') = length (data s) /\
  (forall keep i,
      include_selector (option_map ravel nm) = Sel keep ->
      nth i (bflat keep) true = false ->
      nth i (data s') [] = nth i (data s) []) /\
  _root_aG s' = Some (map fsqrt (sum_axis1 block)) /\
  _root_bH s' = Some (map fsqrt (sum_axis0 block)).
Proof.
  intros Hblock H.
  destruct (normalize_without_signal_mask _ _ Hblock H) as (H1 & H2 & H3).
  destruct (@normalize_poissonian_noise_roots s s' nm None block Hblock H)
    as [H4 H5].
  repeat split; assumption.
Qed.

Lemma normalize_poissonian_noise_rescales_rows_witness :
  let s := sample_signal data_2x2 2 earlier_results in
  let s' := fst (normalize_poissonian_noise s None None) in
  included_block (data s') SliceAll SliceAll
  = Ok (map (map nan_to_num)
          (map2 fdiv data_2x2
             (outer (map fsqrt (sum_axis1 data_2x2))
                    (map fsqrt (sum_axis0 data_2x2))))) /\
  length (data s') = length (data s) /\
  (forall keep i,
      SliceAll = Sel keep ->
      nth i (bflat keep) true = false ->
      nth i (data s') [] = nth i (data s) []) /\
  _root_aG s' = Some (map fsqrt (sum_axis1 data_2x2)) /\
  _root_bH s' = Some (map fsqrt (sum_axis0 data_2x2)).
Proof.
  intros s s'.
  apply (@normalize_poissonian_noise_rescales_rows s s' None data_2x2).
  - reflexivity.
  - assert (Hall : Forall strictly_positive (concat data_2x2)).
    { unfold data_2x2, strictly_positive.
      repeat constructor; cbn [fltb]; apply Rltb_true; lra. }
    destruct (np_min (concat data_2x2)) as [m|e] eqn:Em; [|discriminate].
    pose proof (strictly_positive_not_le (np_min_positive Hall Em)) as Hm.
    unfold s', normalize_poissonian_noise, s.
    cbn [include_selector option_map included_block getitem_cols getitem_rows
         bind data sample_signal].
    rewrite Em, Hm. reflexivity.
Defined.

(** ** The criterion argument of the automatic reversal *)

(** [reverse_component_criterion] is only looked at inside the loop over
    the components.  With a value other than ["factors"] and
    ["loadings"], [_auto_reverse_bss_component] raises [ValueError] and
    changes nothing when there is at least one component, and returns
    normally, the results unchanged, when [bss_factors] has no column. *)
Theorem auto_reverse_bss_component_bad_criterion (criterion : string)
  (lr : LearningResults) (F : matrix) :
  criterion <> "factors"%string -> criterion <> "loadings"%string ->
  bss_factors lr = Some F ->
  _auto_reverse_bss_component criterion lr
  = (lr, if (ncols F =? 0)%nat then Ok tt else Raise E_reverse_criterion) /\
  class_of E_reverse_criterion = ValueError.
Proof.
  intros H1 H2 HF. split; [|reflexivity].
  unfold _auto_reverse_bss_component, bindM, get, lift. rewrite HF.
  cbn [not_none]. destruct (ncols F) as [|k]; [reflexivity|].
  cbn [seq for_each Nat.eqb]. unfold bindM, auto_reverse_step, bindM, get, lift.
  apply String.eqb_neq in H1, H2. rewrite H1, H2. reflexivity.
Qed.

Lemma auto_reverse_bss_component_bad_criterion_witness :
  _auto_reverse_bss_component "factor" bss_results
  = (bss_results, Raise E_reverse_criterion) /\
  class_of E_reverse_criterion = ValueError.
Proof.
  apply (@auto_reverse_bss_component_bad_criterion "factor" bss_results
           [[Fin (-5); Fin (-1)]; [Fin 1; Fin 5]; [Fin 2; Fin 2]]);
    [discriminate | discriminate | reflexivity].
Defined.

(** ** Loading saved results *)

Lemma getattr_delattr (k k' : string) (d : attrs) :
  getattr k (delattr k' d) = if String.eqb k k' then None else getattr k d.
Proof.
  induction d as [|[k0 v] d IH]; cbn [delattr filter getattr fst].
  - destruct (String.eqb k k'); reflexivity.
  - fold (delattr k' d).
    destruct (String.eqb k' k0) eqn:E0; cbn [negb getattr].
    + apply String.eqb_eq in E0. subst k0. rewrite IH.
      destruct (String.eqb k k'); reflexivity.
    + rewrite IH. destruct (String.eqb k k') eqn:E; [|reflexivity].
      apply String.eqb_eq in E. subst k'. rewrite E0. reflexivity.
Qed.

Lemma getattr_setattr (k k' : string) (v : pyvalue) (d : attrs) :
  getattr k (setattr k' v d) = if String.eqb k k' then Some v else getattr k d.
Proof.
  unfold setattr. cbn [getattr]. rewrite getattr_delattr.
  destruct (String.eqb k k'); reflexivity.
Qed.

Lemma getattr_load_entries (k : string) (archive : list (string * npz_value))
  (d : attrs) :
  getattr k (fold_left load_entry archive d) = stored k archive d.
Proof.
  induction archive as [|[k0 v] archive IH] using rev_ind; [reflexivity|].
  rewrite fold_left_app. cbn [fold_left]. unfold stored.
  rewrite rev_app_distr. cbn [rev app find fst].
  unfold load_entry. cbn [fst snd]. rewrite getattr_setattr.
  destruct (String.eqb k k0).
  - destruct v; reflexivity.
  - exact IH.
Qed.

Lemma compat_rename_other (k old new : string) (d : attrs) :
  k <> old -> k <> new -> getattr k (compat d (Rename old new)) = getattr k d.
Proof.
  intros H1 H2. apply String.eqb_neq in H1, H2. cbn [compat].
  destruct (getattr old d); [|reflexivity].
  rewrite getattr_delattr, getattr_setattr, H1, H2. reflexivity.
Qed.

Lemma compat_rename_new (old new : string) (d : attrs) :
  old <> new ->
  getattr new (compat d (Rename old new))
  = first_of [getattr old d; getattr new d].
Proof.
  intros H. cbn [compat first_of fold_right].
  destruct (getattr old d) as [v|].
  - rewrite getattr_delattr, getattr_setattr, String.eqb_refl.
    assert (E : String.eqb new old = false)
      by (apply String.eqb_neq; congruence).
    rewrite E. reflexivity.
  - destruct (getattr new d); reflexivity.
Qed.

Lemma compat_rename_old (old new : string) (d : attrs) :
  getattr old (compat d (Rename old new)) = None.
Proof.
  cbn [compat]. destruct (getattr old d) eqn:E; [|exact E].
  rewrite getattr_delattr, String.eqb_refl. reflexivity.
Qed.

Lemma compat_drop_other (k old : string) (d : attrs) :
  k <> old -> getattr k (compat d (Drop old)) = getattr k d.
Proof.
  intros H. apply String.eqb_neq in H. cbn [compat].
  destruct (hasattr old d); [|reflexivity].
  rewrite getattr_delattr, H. reflexivity.
Qed.

Lemma compat_drop_old (old : string) (d : attrs) :
  getattr old (compat d (Drop old)) = None.
Proof.
  cbn [compat]. unfold hasattr. destruct (getattr old d) eqn:E; [|exact E].
  rewrite getattr_delattr, String.eqb_refl. reflexivity.
Qed.

Lemma compat_keeps_none (k : string) (step : compat_step) (d : attrs) :
  getattr k d = None ->
  match step with Rename _ new => k <> new | Drop _ => True end ->
  getattr k (compat d step) = None.
Proof.
  intros Hk Hn. destruct step as [old new|old].
  - destruct (String.eqb k old) eqn:E.
    + apply String.eqb_eq in E. subst k. apply compat_rename_old.
    + apply String.eqb_neq in E. rewrite compat_rename_other; assumption.
  - destruct (String.eqb k old) eqn:E.
    + apply String.eqb_eq in E. subst k. apply compat_drop_old.
    + apply String.eqb_neq in E. rewrite compat_drop_other; assumption.
Qed.

Ltac compat_none :=
  repeat first
    [ apply compat_rename_old
    | apply compat_drop_old
    | apply compat_keeps_none; [|first [exact I | discriminate]] ].

Ltac compat_other :=
  repeat first
    [ rewrite compat_rename_other by (first [discriminate | assumption])
    | rewrite compat_drop_other by (first [discriminate | assumption]) ].

Ltac first_of_cases d :=
  cbn [first_of fold_right];
  repeat match goal with
         | |- context [match getattr ?k d with _ => _ end] =>
             destruct (getattr k d)
         end;
  reflexivity.

(** After [load] no attribute carries a name of an older version,
    whatever the archive and the attributes of before, and also when the
    closing [summary] raises. *)
Theorem load_forgets_old_names (str : pyvalue -> string)
  (archive : list (string * npz_value)) (self : attrs) (k : string) :
  In k legacy_names ->
  getattr k (fst (load str archive self)) = None.
Proof.
  intros Hk. unfold load. cbn [fst].
  set (d := fold_left load_entry archive self). clearbody d.
  unfold compat_steps. cbn [fold_left].
  unfold legacy_names in Hk. cbn [In] in Hk.
  repeat (destruct Hk as [Hk|Hk]; [subst k; compat_none|]).
  destruct Hk.
Qed.

Lemma load_forgets_old_names_witness :
  In "pc"%string legacy_names /\
  getattr "pc" (fst (load (fun _ => "x"%string) old_archive new_results))
  = None.
Proof.
  assert (H : In "pc"%string legacy_names)
    by (unfold legacy_names; cbn [In]; tauto).
  split; [exact H|].
  exact (@load_forgets_old_names (fun _ => "x"%string) old_archive new_results
           "pc"%string H).
Defined.

(** What [load] leaves under the present names.  For a name that older
    versions spelled differently, the value of the old spelling wins over
    the value of the present one, and among old spellings the one that is
    checked last: [pc], then [scores], then [v] for [loadings];
    [pca_algorithm], then [algorithm] for [decomposition_algorithm].
    Every other attribute holds the entry of the archive, or what it
    held before when the archive has no such entry. *)
Theorem load_prefers_old_names (str : pyvalue -> string)
  (archive : list (string * npz_value)) (self : attrs) :
  let self' := fst (load str archive self) in
  let was k := stored k archive self in
  getattr "loadings" self'
  = first_of [was "pc"; was "scores"; was "v"; was "loadings"]%string /\
  getattr "decomposition_algorithm" self'
  = first_of [was "pca_algorithm"; was "algorithm";
              was "decomposition_algorithm"]%string /\
  getattr "explained_variance" self'
  = first_of [was "V"; was "explained_variance"]%string /\
  getattr "unmixing_matrix" self'
  = first_of [was "w"; was "unmixing_matrix"]%string /\
  getattr "bss_algorithm" self'
  = first_of [was "ica_algorithm"; was "bss_algorithm"]%string /\
  getattr "bss_loadings" self'
  = first_of [was "ica_scores"; was "bss_loadings"]%string /\
  getattr "bss_factors" self'
  = first_of [was "ica_factors"; was "bss_factors"]%string /\
  (forall k, ~ In k legacy_names -> ~ In k renamed_to ->
             getattr k self' = was k).
Proof.
  intros self' was. subst self' was. cbv beta. unfold load. cbn [fst].
  assert (Hlast : forall k,
             getattr k (fold_left compat compat_steps
                          (fold_left load_entry archive self))
             = getattr k (fold_left load_entry archive self) ->
             getattr k (fold_left compat compat_steps
                          (fold_left load_entry archive self))
             = stored k archive self)
    by (intros k Hk; rewrite Hk; apply getattr_load_entries).
  rewrite <- !getattr_load_entries.
  revert Hlast.
  set (d := fold_left load_entry archive self). clearbody d. intros Hlast.
  repeat split; try (unfold compat_steps; cbn [fold_left]).
  - compat_other. rewrite compat_rename_new by discriminate. compat_other.
    rewrite compat_rename_new by discriminate. compat_other.
    rewrite compat_rename_new by discriminate. compat_other.
    first_of_cases d.
  - compat_other. rewrite compat_rename_new by discriminate. compat_other.
    rewrite compat_rename_new by discriminate. compat_other.
    first_of_cases d.
  - compat_other. rewrite compat_rename_new by discriminate. compat_other.
    first_of_cases d.
  - compat_other. rewrite compat_rename_new by discriminate. compat_other.
    first_of_cases d.
  - compat_other. rewrite compat_rename_new by discriminate. compat_other.
    first_of_cases d.
  - compat_other. rewrite compat_rename_new by discriminate. compat_other.
    first_of_cases d.
  - compat_other. rewrite compat_rename_new by discriminate. compat_other.
    first_of_cases d.
  - intros k Hl Hr. apply Hlast.
    unfold legacy_names, renamed_to in Hl, Hr. cbn [In] in Hl, Hr.
    unfold compat_steps. cbn [fold_left].
    assert (Hne : forall k', k = k' -> In k' (legacy_names ++ renamed_to) ->
                             False).
    { intros k' -> Hin. apply in_app_or in Hin. tauto. }
    repeat first
      [ rewrite compat_rename_other
          by (intros Hq; apply (Hne _ Hq); unfold legacy_names, renamed_to;
              cbn [In app]; tauto)
      | rewrite compat_drop_other
          by (intros Hq; apply (Hne _ Hq); unfold legacy_names, renamed_to;
              cbn [In app]; tauto) ].
    reflexivity.
Qed.

Lemma load_prefers_old_names_witness :
  let self' := fst (load (fun _ => "x"%string) old_archive new_results) in
  getattr "loadings" self'
  = Some (PyArray {| first_axis := 2%nat; other_axes := [1%nat];
                     items := [SFloat (Fin 1); SFloat (Fin 2)] |}) /\
  getattr "decomposition_algorithm" self' = Some (PyScalar (SStr "svd")) /\
  getattr "output_dimension" self' = Some PyNone.
Proof.
  intros self'.
  destruct (@load_prefers_old_names (fun _ => "x"%string) old_archive
              new_results) as (H1 & H2 & _ & _ & _ & _ & _ & H8).
  fold self' in H1, H2, H8.
  split; [exact H1|]. split; [exact H2|].
  apply (H8 "output_dimension"%string).
  - unfold legacy_names. cbn [In]. intros H.
    repeat (destruct H as [H|H]; [discriminate|]). exact H.
  - unfold renamed_to. cbn [In]. intros H.
    repeat (destruct H as [H|H]; [discriminate|]). exact H.
Defined.


(** ** The cumulative explained variance *)

Lemma cumsum_from_Fin (rs : list R) (a : R) :
  cumsum_from (Fin a) (map Fin rs)
  = map Fin (map (fun i => fold_left Rplus (firstn (S i) rs) a)
               (seq 0 (length rs))).
Proof.
  revert a. induction rs as [|r rs IH]; intros a; [reflexivity|].
  cbn [map cumsum_from fadd length seq firstn fold_left]. f_equal.
  rewrite IH, <- seq_shift, !map_map. reflexivity.
Qed.

Lemma cumsum_Fin (rs : list R) :
  cumsum (map Fin rs)
  = map Fin (map (fun i => fold_left Rplus (firstn (S i) rs) 0)
               (seq 0 (length rs))).
Proof.
  rewrite <- cumsum_from_Fin. destruct rs as [|r rs]; [reflexivity|].
  cbn [map cumsum cumsum_from fadd]. replace (0 + r) with r by lra.
  reflexivity.
Qed.

Lemma prefix_sum_le (rs : list R) :
  Forall (fun r => 0 <= r) rs ->
  forall i j, (i <= j)%nat ->
  fold_left Rplus (firstn i rs) 0 <= fold_left Rplus (firstn j rs) 0.
Proof.
  induction 1 as [|r rs Hr _ IH]; intros i j Hij.
  - rewrite !firstn_nil. lra.
  - destruct i as [|i], j as [|j]; cbn [firstn fold_left]; try lia; try lra.
    + rewrite fold_Rplus_shift. pose proof (IH 0%nat j ltac:(lia)) as H0.
      cbn [firstn fold_left] in H0. lra.
    + rewrite (fold_Rplus_shift (firstn i rs)), (fold_Rplus_shift (firstn j rs)).
      pose proof (IH i j ltac:(lia)). lra.
Qed.

(** The points of [plot_cumulative_explained_variance_ratio] for an
    explained variance of finite numbers that are not negative and have
    a positive sum, and [n] not negative.  The call hands [n] points to
    the plot, or as many as there are components when those are fewer,
    so that abscissae and ordinates have the same size; point [i] has
    abscissa [i]; the ordinates are numbers that are not negative and
    that never decrease. *)
Theorem cumulative_explained_variance_ratio_points (n : Z) (s : Signal)
  (rs : list R) :
  explained_variance (learning_results s) = Some (map Fin rs) ->
  Forall (fun r => 0 <= r) rs ->
  0 < fold_left Rplus rs 0 ->
  (0 <= n)%Z ->
  exists ys : list R,
    plot_cumulative_explained_variance_ratio n s
    = Ok (combine (map Z.of_nat (seq 0 (length ys))) (map Fin ys)) /\
    length ys = Nat.min (Z.to_nat n) (length rs) /\
    (forall i, (i < length ys)%nat -> 0 <= nth i ys 0) /\
    (forall i j, (i <= j)%nat -> (j < length ys)%nat ->
       nth i ys 0 <= nth j ys 0).
Proof.
  intros Hev Hpos Htot Hn.
  set (T := fold_left Rplus rs 0) in *.
  set (P := fun i => fold_left Rplus (firstn (S i) rs) 0 / T).
  set (m := Nat.min (Z.to_nat n) (length rs)).
  assert (Hlen : length (map P (seq 0 m)) = m)
    by (rewrite length_map, length_seq; reflexivity).
  assert (Hnth : forall i, (i < m)%nat -> nth i (map P (seq 0 m)) 0 = P i).
  { intros i Hi.
    rewrite (nth_indep _ 0 (P 0%nat)) by (rewrite Hlen; exact Hi).
    rewrite map_nth, seq_nth by exact Hi. reflexivity. }
  assert (Hle : forall i j, (i <= j)%nat -> P i <= P j).
  { intros i j Hij. unfold P.
    pose proof (@prefix_sum_le rs Hpos (S i) (S j) ltac:(lia)) as H.
    apply Rmult_le_compat_r; [|exact H].
    apply Rlt_le, Rinv_0_lt_compat, Htot. }
  assert (Hbound : forall i, 0 <= P i).
  { intros i. unfold P.
    pose proof (@prefix_sum_le rs Hpos 0%nat (S i) ltac:(lia)) as H0.
    cbn [firstn fold_left] in H0.
    apply Rmult_le_pos; [exact H0|]. apply Rlt_le, Rinv_0_lt_compat, Htot. }
  exists (map P (seq 0 m)). rewrite Hlen.
  split; [|split; [reflexivity|split]].
  - unfold plot_cumulative_explained_variance_ratio. rewrite Hev.
    rewrite length_map.
    set (n' := if (Z.of_nat (length rs) <? n)%Z
               then Z.of_nat (length rs) else n).
    assert (Hn' : n' = Z.of_nat m).
    { unfold n', m. destruct (Z.ltb_spec (Z.of_nat (length rs)) n); lia. }
    rewrite Hn', py_slice_to_nat. unfold arange. rewrite Nat2Z.id.
    unfold np_sum. rewrite fold_fadd_Fin. fold T. rewrite cumsum_Fin.
    rewrite !map_map.
    assert (Hcumu : map (fun x => fdiv (Fin (fold_left Rplus (firstn (S x) rs) 0))
                                    (Fin T)) (seq 0 (length rs))
                    = map (fun i => Fin (P i)) (seq 0 (length rs))).
    { apply map_ext. intros i. cbn [fdiv].
      rewrite Reqb_false by lra. reflexivity. }
    rewrite Hcumu, firstn_map_seq. fold m.
    replace (Nat.min m (length rs)) with m by (unfold m; lia).
    rewrite !length_map, length_seq, Nat.eqb_refl. reflexivity.
  - intros i Hi. rewrite Hnth by exact Hi. apply Hbound.
  - intros i j Hij Hj. rewrite !Hnth by lia. apply Hle. exact Hij.
Qed.

Lemma cumulative_explained_variance_ratio_points_witness :
  exists ys : list R,
    plot_cumulative_explained_variance_ratio 50
      (sample_signal data_2x2 2 scree_results)
    = Ok (combine (map Z.of_nat (seq 0 (length ys))) (map Fin ys)) /\
    length ys = Nat.min (Z.to_nat 50) (length [3; 1]) /\
    (forall i, (i < length ys)%nat -> 0 <= nth i ys 0) /\
    (forall i j, (i <= j)%nat -> (j < length ys)%nat ->
       nth i ys 0 <= nth j ys 0).
Proof.
  apply (@cumulative_explained_variance_ratio_points 50
           (sample_signal data_2x2 2 scree_results)
           [3; 1]).
  - reflexivity.
  - repeat constructor; lra.
  - cbn [fold_left]. lra.
  - lia.
Defined.

(** ** The points that the elbow estimate reads *)

Lemma py_index_firstn {A} (a : list A) (k i : nat) :
  (i < k)%nat -> (i < length a)%nat ->
  py_index (firstn k a) (Z.of_nat i) = py_index a (Z.of_nat i).
Proof.
  intros Hk Hi. destruct (nth_error a i) as [x|] eqn:E.
  - rewrite (py_index_nat a i E). apply py_index_nat.
    rewrite nth_error_firstn.
    apply Nat.ltb_lt in Hk. rewrite Hk. exact E.
  - apply nth_error_None in E. lia.
Qed.

Lemma elbow_of_curve_prefix (c : vector) (m : nat) :
  (m < length c)%nat ->
  elbow_of_curve c (Z.of_nat m) = elbow_of_curve (firstn (S m) c) (Z.of_nat m).
Proof.
  intros Hm. unfold elbow_of_curve.
  rewrite length_firstn, (Nat.min_l (S m) (length c)) by lia.
  replace (Z.min (Z.of_nat m) (Z.of_nat (length c) - 1)) with (Z.of_nat m)
    by lia.
  replace (Z.min (Z.of_nat m) (Z.of_nat (S m) - 1)) with (Z.of_nat m) by lia.
  rewrite <- firstn_map.
  set (a := map (clip_below (Fin 1e-30)) c).
  assert (Ha : length a = length c) by (unfold a; apply length_map).
  assert (H0 : py_index (firstn (S m) a) 0 = py_index a 0)
    by (apply (@py_index_firstn _ a (S m) 0); lia).
  rewrite H0, (@py_index_firstn _ a (S m) m), !py_slice_to_nat, firstn_firstn,
    (Nat.min_l m (S m)) by lia.
  reflexivity.
Qed.

(** [estimate_elbow_position] reads the first [max_points + 1] values of
    the curve only: two curves with more than [max_points] values that
    agree on these have the same elbow, or fail alike. *)
Theorem estimate_elbow_position_ignores_tail (stored : option vector)
  (c c' : vector) (max_points : Z) :
  (0 <= max_points)%Z ->
  (Z.to_nat max_points < length c)%nat ->
  (Z.to_nat max_points < length c')%nat ->
  firstn (S (Z.to_nat max_points)) c = firstn (S (Z.to_nat max_points)) c' ->
  estimate_elbow_position stored (Some c) max_points
  = estimate_elbow_position stored (Some c') max_points.
Proof.
  intros H0 Hc Hc' Heq. cbn [estimate_elbow_position].
  rewrite <- (Z2Nat.id max_points H0).
  rewrite (elbow_of_curve_prefix c Hc), (elbow_of_curve_prefix c' Hc'), Heq.
  reflexivity.
Qed.

Lemma estimate_elbow_position_ignores_tail_witness :
  estimate_elbow_position None (Some curve_example) 2
  = estimate_elbow_position None (Some [Fin 1; Fin 0.5; Fin 0.1; Fin 7]) 2.
Proof.
  apply estimate_elbow_position_ignores_tail.
  - lia.
  - cbn. lia.
  - cbn. lia.
  - reflexivity.
Defined.
